(** * orchids-apis: the media fetch-and-relay routes, embedded and verified

    The development follows the route handlers of the repository:
    - [app/api/downloader/yt/route.ts]                  (module [Yt])
    - [app/api/downloader/tiktokmp4downloader/route.ts] (module [TikTokMp4])
    - [app/api/downloader/tiktokvid2mp3/route.ts]       (module [TikTokMp3])
    - [app/api/result/ytdownloader/[id]/route.ts]       (module [YtResult])
    - the image generator route                         (module [Imagen])

    Handlers are asynchronous JavaScript functions that talk to the
    network, to object storage and to a datastore.  They are embedded in
    a monad [M] that records every external interaction in a trace and
    carries JavaScript exceptions; the answers of the outside world are
    read from a [World] record of oracles, so that each theorem
    quantifies over every possible behaviour of the third parties. *)

From Stdlib Require Import String Ascii List ZArith Bool Lia.
From Stdlib Require Import DecimalString.
Import ListNotations.
Local Open Scope string_scope.
Local Open Scope Z_scope.

Set Implicit Arguments.

(* ===================================================================== *)
(** * JavaScript values *)
(* ===================================================================== *)

(** JSON payloads, database rows and response envelopes are JavaScript
    objects; an object literal keeps its keys in insertion order.  The
    numbers the routes read or write are integers (a provider's [code],
    an HTTP status). *)
#[local] Unset Elimination Schemes.
Inductive jsval : Type :=
| JUndefined
| JNull
| JBool (b : bool)
| JNum (n : Z)
| JStr (s : string)
| JObj (fields : list (string * jsval)).
#[local] Set Elimination Schemes.

(** ToBoolean. *)
Definition truthy (v : jsval) : bool :=
  match v with
  | JUndefined | JNull => false
  | JBool b => b
  | JNum n => negb (n =? 0)
  | JStr s => negb (s =? EmptyString)%string
  | JObj _ => true
  end.

(** [a || b]. *)
Definition js_or (a b : jsval) : jsval := if truthy a then a else b.

(** [v === "s"]. *)
Definition js_eq_str (v : jsval) (s : string) : bool :=
  match v with
  | JStr s' => (s' =? s)%string
  | _ => false
  end.

(** [v !== 0]. *)
Definition js_neq_zero (v : jsval) : bool :=
  match v with
  | JNum 0 => false
  | _ => true
  end.

Fixpoint assoc (k : string) (fs : list (string * jsval)) : option jsval :=
  match fs with
  | [] => None
  | (k', v) :: fs' => if (k' =? k)%string then Some v else assoc k fs'
  end.

Fixpoint assoc_str (k : string) (hs : list (string * string)) : option string :=
  match hs with
  | [] => None
  | (k', v) :: hs' => if (k' =? k)%string then Some v else assoc_str k hs'
  end.

(** A JavaScript exception; [message] is what the handlers read back. *)
Record Error : Type := mkError { message : string }.

(** [v.k]: reading a property of [null] or [undefined] is a TypeError,
    a property that is absent (or read from a primitive) is [undefined]. *)
Definition get (v : jsval) (k : string) : Error + jsval :=
  match v with
  | JUndefined =>
      inl (mkError ("Cannot read properties of undefined (reading '" ++ k ++ "')"))
  | JNull =>
      inl (mkError ("Cannot read properties of null (reading '" ++ k ++ "')"))
  | JObj fs => inr (match assoc k fs with Some x => x | None => JUndefined end)
  | _ => inr JUndefined
  end.

(** [v?.k]. *)
Definition get_opt (v : jsval) (k : string) : jsval :=
  match v with
  | JObj fs => match assoc k fs with Some x => x | None => JUndefined end
  | _ => JUndefined
  end.

(** A nullable string ([searchParams.get], [headers.get]) as a value. *)
Definition of_nullable (o : option string) : jsval :=
  match o with Some s => JStr s | None => JNull end.

(** [!s] for a nullable string. *)
Definition falsy_str (o : option string) : bool :=
  match o with
  | None => true
  | Some s => (s =? EmptyString)%string
  end.

(** [s || d] for a nullable string. *)
Definition or_default (o : option string) (d : string) : string :=
  match o with
  | Some s => if (s =? EmptyString)%string then d else s
  | None => d
  end.

(** The double-quote character, as template literals embed it. *)
Definition dquote : string := String (ascii_of_nat 34) EmptyString.

(** Template-literal rendering of a number. *)
Definition string_of_Z (z : Z) : string := NilZero.string_of_int (Z.to_int z).

(* ===================================================================== *)
(** * Strings: the pieces of [String.prototype] the routes use *)
(* ===================================================================== *)

Fixpoint strip_prefix (p s : string) : option string :=
  match p with
  | EmptyString => Some s
  | String a p' =>
      match s with
      | String b s' => if Ascii.eqb a b then strip_prefix p' s' else None
      | EmptyString => None
      end
  end.

(** [s.includes(p)]. *)
Fixpoint includes (s p : string) : bool :=
  match strip_prefix p s with
  | Some _ => true
  | None =>
      match s with
      | EmptyString => false
      | String _ s' => includes s' p
      end
  end.

(** [s.split(",")[0]]: the text before the first comma. *)
Fixpoint split_comma_first (s : string) : string :=
  match s with
  | EmptyString => EmptyString
  | String c s' => if Ascii.eqb c "," then EmptyString else String c (split_comma_first s')
  end.

Definition in_range (lo hi c : ascii) : bool :=
  (nat_of_ascii lo <=? nat_of_ascii c)%nat && (nat_of_ascii c <=? nat_of_ascii hi)%nat.

Definition hex_digit (n : nat) : ascii :=
  nth n (list_ascii_of_string "0123456789ABCDEF") "0"%char.

(** [encodeURIComponent]: the unreserved characters are kept, every other
    byte of the UTF-8 encoding is written as [%XX]. *)
Definition uri_unreserved (c : ascii) : bool :=
  in_range "a" "z" c || in_range "A" "Z" c || in_range "0" "9" c
  || existsb (Ascii.eqb c) (list_ascii_of_string "-_.!~*'()").

Fixpoint encodeURIComponent (s : string) : string :=
  match s with
  | EmptyString => EmptyString
  | String c s' =>
      if uri_unreserved c then String c (encodeURIComponent s')
      else String "%" (String (hex_digit (nat_of_ascii c / 16))
                         (String (hex_digit (nat_of_ascii c mod 16))
                            (encodeURIComponent s')))
  end.

(* ===================================================================== *)
(** * Video-identifier extraction (yt/route.ts, [extractVideoId]) *)
(* ===================================================================== *)

Module VideoId.

(** The character class [[a-zA-Z0-9_-]]. *)
Definition isIdChar (c : ascii) : bool :=
  in_range "a" "z" c || in_range "A" "Z" c || in_range "0" "9" c
  || Ascii.eqb c "_" || Ascii.eqb c "-".

(** [([a-zA-Z0-9_-]{n})] at the head of [s]: the captured text and the
    rest of the input. *)
Fixpoint take_class (n : nat) (s : string) : option (string * string) :=
  match n with
  | O => Some (EmptyString, s)
  | S n' =>
      match s with
      | String c s' =>
          if isIdChar c then
            match take_class n' s' with
            | Some (cap, rest) => Some (String c cap, rest)
            | None => None
            end
          else None
      | EmptyString => None
      end
  end.

(** The two regular expressions of [patterns], in the shape they have:
    an unanchored alternation of literal prefixes followed by the
    capture group, and the anchored bare identifier. *)
Inductive pattern : Type :=
| Prefixed (alternatives : list string)   (* /(?:p1|p2|...)([a-zA-Z0-9_-]{11})/ *)
| Bare.                                   (* /^([a-zA-Z0-9_-]{11})$/ *)

(** The literal prefixes of the first expression, in the order the
    alternation lists them. *)
Definition shapes : list string :=
  [ "youtube.com/watch?v="; "youtu.be/"; "youtube.com/embed/";
    "youtube.com/v/"; "youtube.com/shorts/" ].

Definition patterns : list pattern := [ Prefixed shapes; Bare ].

(** The alternation tried at one start position: alternatives are taken
    left to right, and the matcher backtracks to the next one when the
    capture group does not follow. *)
Fixpoint match_alternatives (alts : list string) (s : string) : option string :=
  match alts with
  | [] => None
  | p :: alts' =>
      match strip_prefix p s with
      | Some rest =>
          match take_class 11 rest with
          | Some (cap, _) => Some cap
          | None => match_alternatives alts' s
          end
      | None => match_alternatives alts' s
      end
  end.

(** An unanchored expression is tried at every start position, leftmost
    first. *)
Fixpoint search (alts : list string) (s : string) : option string :=
  match match_alternatives alts s with
  | Some cap => Some cap
  | None =>
      match s with
      | EmptyString => None
      | String _ s' => search alts s'
      end
  end.

(** [url.match(pattern)], reduced to group 1 ([match[1]]); [None] is the
    [null] of a failed match. *)
Definition str_match (url : string) (p : pattern) : option string :=
  match p with
  | Prefixed alts => search alts url
  | Bare =>
      match take_class 11 url with
      | Some (cap, EmptyString) => Some cap
      | _ => None
      end
  end.

(** The [for (const pattern of patterns)] loop. *)
Fixpoint first_match (url : string) (ps : list pattern) : option string :=
  match ps with
  | [] => None
  | p :: ps' =>
      match str_match url p with
      | Some cap => Some cap
      | None => first_match url ps'
      end
  end.

Definition extractVideoId (url : string) : option string :=
  first_match url patterns.

(** A well-formed identifier: eleven characters of the class. *)
Fixpoint all_id_chars (s : string) : bool :=
  match s with
  | EmptyString => true
  | String c s' => isIdChar c && all_id_chars s'
  end.

Definition valid_id (s : string) : Prop :=
  String.length s = 11%nat /\ all_id_chars s = true.

(** No character [y] in [pre]: every literal prefix starts with one, so
    no match can start inside such a text. *)
Fixpoint no_y (pre : string) : bool :=
  match pre with
  | EmptyString => true
  | String c pre' => negb (Ascii.eqb "y" c) && no_y pre'
  end.

End VideoId.

(* ===================================================================== *)
(** * The outside world and the handler monad *)
(* ===================================================================== *)

Definition bytes : Type := list Byte.byte.

(** What [await fetch(...)] resolves to. [json] is the outcome of
    [await response.json()], which throws on a body that is not JSON,
    and [arrayBuffer] the outcome of [await response.arrayBuffer()],
    which rejects when the body cannot be read to its end. *)
Record FetchResponse : Type := mkFetchResponse {
  ok : bool;
  status : Z;
  content_type : option string;
  json : Error + jsval;
  arrayBuffer : Error + bytes
}.

(** The third parties, as oracles.  An [inl] is a rejected promise
    (a thrown exception); storage and datastore calls otherwise resolve
    to their [{ data, error }] object. *)
Record World : Type := mkWorld {
  fetch : jsval -> jsval -> Error + FetchResponse;          (* fetch(url, init) *)
  storage_upload : string -> string -> bytes -> string -> Error + option Error;
                                                            (* from(bucket).upload(path, body, {contentType}) -> error *)
  storage_getPublicUrl : string -> jsval -> jsval;          (* from(bucket).getPublicUrl(path) -> data; synchronous, no request *)
  db_insert : string -> jsval -> Error + option Error;      (* from(table).insert(row) -> error *)
  db_select_single : string -> string -> Error + (jsval * jsval);
                                                            (* from(table).select("*").eq("id", id).single() -> (data, error) *)
  randomUUID : string;                                      (* crypto.randomUUID() *)
  randomBytes4_hex : string;                                (* crypto.randomBytes(4).toString("hex") *)
  random_index : nat -> nat;                                (* Math.floor(Math.random() * n), per call *)
  sharp_watermark : bytes -> Error + bytes;                 (* the opacity/resize pipeline on the watermark *)
  sharp_composite : bytes -> bytes -> Error + bytes         (* sharp(image).composite([watermark]).png().toBuffer() *)
}.

(** Everything a handler does to the outside, in program order. *)
Inductive effect : Type :=
| Fetch (url init : jsval)
| StorageUpload (bucket path : string) (body : bytes) (contentType : string)
| DbInsert (table : string) (row : jsval)
| DbSelect (table id : string)
| IncrementStat (name : string)
| LogApiRequest (entry : jsval)
| ConsoleError (label : string).

(** A computation: the trace it leaves and either the exception it
    throws or the value it returns. *)
Definition M (A : Type) : Type := list effect * (Error + A).

Definition ret {A} (a : A) : M A := ([], inr a).
Definition throw {A} (msg : string) : M A := ([], inl (mkError msg)).
Definition rethrow {A} (e : Error) : M A := ([], inl e).
Definition lift {A} (r : Error + A) : M A := ([], r).
Definition emit (e : effect) : M unit := ([e], inr tt).

Definition bind {A B} (m : M A) (k : A -> M B) : M B :=
  match m with
  | (t, inl e) => (t, inl e)
  | (t, inr a) => let (t', r) := k a in ((t ++ t')%list, r)
  end.

(** [try { m } catch (e) { h e }]; what [m] did before throwing stays
    done. *)
Definition try_catch {A} (m : M A) (h : Error -> M A) : M A :=
  match m with
  | (t, inl e) => let (t', r) := h e in ((t ++ t')%list, r)
  | (t, inr a) => (t, inr a)
  end.

Definition trace {A} (m : M A) : list effect := fst m.
Definition outcome {A} (m : M A) : Error + A := snd m.

Declare Scope js_scope.
Delimit Scope js_scope with js.
Notation "x <- m ;; k" := (bind m (fun x => k))
  (at level 61, m at next level, right associativity) : js_scope.
Notation "m ;;; k" := (bind m (fun _ => k))
  (at level 61, right associativity) : js_scope.
Local Open Scope js_scope.

Section Calls.
Variable w : World.

Definition do_fetch (url init : jsval) : M FetchResponse :=
  emit (Fetch url init) ;;; lift (fetch w url init).

Definition do_upload (bucket path : string) (body : bytes) (ct : string)
  : M (option Error) :=
  emit (StorageUpload bucket path body ct) ;;; lift (storage_upload w bucket path body ct).

Definition do_insert (table : string) (row : jsval) : M (option Error) :=
  emit (DbInsert table row) ;;; lift (db_insert w table row).

Definition do_select (table id : string) : M (jsval * jsval) :=
  emit (DbSelect table id) ;;; lift (db_select_single w table id).
End Calls.

(** Modelled from the spec: [incrementStat] and [logApiRequest] are
    exported by [lib/supabase], which is not part of the sources at hand;
    the spec describes them as best-effort request logging and metrics
    counters, so a call is recorded and returns normally. *)
Definition incrementStat (name : string) : M unit := emit (IncrementStat name).
Definition logApiRequest (ip router : string) (st : Z) (ua : string) : M unit :=
  emit (LogApiRequest (JObj [("ip_address", JStr ip); ("method", JStr "GET");
                             ("router", JStr router); ("status", JNum st);
                             ("user_agent", JStr ua)])).

Definition console_error (label : string) : M unit := emit (ConsoleError label).

(* ===================================================================== *)
(** * Requests and responses *)
(* ===================================================================== *)

(** A [NextRequest], through the two accessors the routes use. *)
Record NextRequest : Type := mkRequest {
  searchParams_get : string -> option string;
  headers_get : string -> option string
}.

Inductive payload : Type :=
| JsonBody (v : jsval)
| RawBytes (b : bytes)
| ErrorPage (msg : string).

Record response : Type := mkResponse {
  r_status : option Z;
  r_headers : list (string * string);
  r_payload : payload
}.

(** [new NextResponse(body, { status, headers })]. *)
Definition NextResponse (body : bytes) (st : Z) (hs : list (string * string)) : response :=
  {| r_status := Some st; r_headers := hs; r_payload := RawBytes body |}.

(** Modelled from the spec: [prettyJson] lives in [lib/utils], which is
    not part of the sources at hand.  The spec has every JSON-returning
    endpoint answer with the envelope it is given under the conventional
    status code it is given; [None] stands for a call that leaves the
    status argument out. *)
Definition prettyJson (body : jsval) (st : option Z) : response :=
  {| r_status := st; r_headers := []; r_payload := JsonBody body |}.

(** Modelled from the spec: [errorRedirect] lives in [lib/utils], which is
    not part of the sources at hand.  The spec has the image-generation
    variant redirect to an error page instead of returning JSON, the
    error being reported under the conventional status code (400 for a
    missing parameter, 500 for an upstream or storage failure) together
    with its message.  The record below keeps the two arguments of the
    call, the code and the message; the response the helper builds
    from them (the redirect, its own status and its location) is not in
    the sources, and what is proved of the image route is stated on
    the call, [errorRedirect st msg], never on these fields. *)
Definition errorRedirect (st : Z) (msg : string) : response :=
  {| r_status := Some st; r_headers := []; r_payload := ErrorPage msg |}.

(** The error envelope [{ status: false, error }]. *)
Definition error_envelope (msg : string) : jsval :=
  JObj [("status", JBool false); ("error", JStr msg)].

(** [req.headers.get("x-forwarded-for")?.split(",")[0] || "127.0.0.1"]. *)
Definition userIP_of (req : NextRequest) : string :=
  or_default (option_map split_comma_first (headers_get req "x-forwarded-for")) "127.0.0.1".

Definition cobalt_instances : list string :=
  ["https://dwnld.nichind.dev"; "https://cobalt.nohello.net"].

(* ===================================================================== *)
(** * [app/api/downloader/yt/route.ts] *)
(* ===================================================================== *)

Module Yt.

Record DownloadResult : Type := mkDownload { url : jsval; filename : jsval }.
Record VideoInfo : Type := mkInfo { title : jsval; author : jsval; thumbnail : string }.

Definition unavailable : string :=
  "YouTube download tidak tersedia saat ini. Silakan coba lagi nanti.".

Definition thumbnail_of (videoId : string) : string :=
  "https://img.youtube.com/vi/" ++ videoId ++ "/maxresdefault.jpg".

Definition placeholder (videoId : string) : VideoInfo :=
  {| title := JStr "YouTube Video"; author := JStr "Unknown";
     thumbnail := thumbnail_of videoId |}.

Definition oembed_url (videoId : string) : string :=
  "https://www.youtube.com/oembed?url=https://www.youtube.com/watch?v="
    ++ videoId ++ "&format=json".

Definition result_base : string := "https://apis.visora.my.id/result/ytdownloader/".

Section Route.
Variable w : World.

(** The request sent to one relay instance; [body] is the object handed
    to [JSON.stringify]. *)
Definition cobalt_init (youtubeUrl ty : string) : jsval :=
  let isAudio := (ty =? "mp3")%string in
  JObj [("method", JStr "POST");
        ("headers", JObj [("Accept", JStr "application/json");
                          ("Content-Type", JStr "application/json")]);
        ("body", JObj [("url", JStr youtubeUrl);
                       ("videoQuality", JStr "1080");
                       ("audioFormat", JStr (if isAudio then "mp3" else "best"));
                       ("downloadMode", JStr (if isAudio then "audio" else "auto"));
                       ("filenameStyle", JStr "basic")])].

(** One turn of the loop of [downloadFromCobalt]: [Some] is the
    [return], [None] is a [continue] (or the end of the body). *)
Definition try_instance (instance youtubeUrl ty : string) : M (option DownloadResult) :=
  try_catch
    (response <- do_fetch w (JStr instance) (cobalt_init youtubeUrl ty) ;;
     if negb (ok response) then ret None else
     data <- lift (json response) ;;
     st <- lift (get data "status") ;;
     if js_eq_str st "error" then ret None else
     u <- lift (get data "url") ;;
     f <- lift (get data "filename") ;;
     if js_eq_str st "tunnel" || js_eq_str st "redirect" || js_eq_str st "stream"
     then ret (Some (mkDownload u f))
     else if truthy u then ret (Some (mkDownload u f))
     else ret None)
    (fun _ => console_error ("Cobalt instance " ++ instance ++ " failed:") ;;; ret None).

Fixpoint download_loop (instances : list string) (youtubeUrl ty : string)
  : M DownloadResult :=
  match instances with
  | [] => throw unavailable
  | instance :: rest =>
      r <- try_instance instance youtubeUrl ty ;;
      match r with
      | Some d => ret d
      | None => download_loop rest youtubeUrl ty
      end
  end.

Definition downloadFromCobalt (youtubeUrl ty : string) : M DownloadResult :=
  download_loop cobalt_instances youtubeUrl ty.

Definition getVideoInfo (youtubeUrl : string) : M VideoInfo :=
  match VideoId.extractVideoId youtubeUrl with
  | None => throw "Invalid YouTube URL"
  | Some videoId =>
      r <- try_catch
             (response <- do_fetch w (JStr (oembed_url videoId)) JUndefined ;;
              if ok response then
                data <- lift (json response) ;;
                t <- lift (get data "title") ;;
                a <- lift (get data "author_name") ;;
                ret (Some {| title := js_or t (JStr "YouTube Video");
                             author := js_or a (JStr "Unknown");
                             thumbnail := thumbnail_of videoId |})
              else ret None)
             (fun _ => console_error "Failed to get video info:" ;;; ret None) ;;
      match r with
      | Some info => ret info
      | None => ret (placeholder videoId)
      end
  end.

(** [await Promise.all([a, b])].  Both calls are started, so the trace
    holds the interactions of both (recorded here one after the other;
    the two run interleaved).  The second computation, [getVideoInfo],
    can only reject at its synchronous guard, that is before any
    rejection of the first. *)
Definition Promise_all2 {A B} (a : M A) (b : M B) : M (A * B) :=
  ((trace a ++ trace b)%list,
   match outcome b, outcome a with
   | inl e, _ => inl e
   | inr _, inl e => inl e
   | inr y, inr x => inr (x, y)
   end).

Definition realUA_of (req : NextRequest) : string :=
  or_default (headers_get req "user-agent") "Mozilla/5.0".

Definition router : string := "/api/downloader/yt".

(** The [try] block of [GET]. *)
Definition process (youtubeUrl ty realUA userIP : string) : M response :=
  p <- Promise_all2 (downloadFromCobalt youtubeUrl ty) (getVideoInfo youtubeUrl) ;;
  let (downloadResult, videoInfo) := p in
  mediaResponse <- do_fetch w (url downloadResult)
                     (JObj [("headers", JObj [("User-Agent", JStr realUA)])]) ;;
  if negb (ok mediaResponse)
  then throw ("Failed to fetch media: " ++ string_of_Z (status mediaResponse))
  else
    buffer <- lift (arrayBuffer mediaResponse) ;;
    let id := randomUUID w in
    let ext := if (ty =? "mp3")%string then "mp3" else "mp4" in
    let fileName := id ++ "." ++ ext in
    let contentType := if (ty =? "mp3")%string then "audio/mpeg" else "video/mp4" in
    uploadError <- do_upload w "yt-downloads" fileName buffer contentType ;;
    match uploadError with
    | Some e => throw ("Failed to upload to storage: " ++ message e)
    | None =>
        dbError <- do_insert w "yt_downloads"
                     (JObj [("id", JStr id);
                            ("youtube_url", JStr youtubeUrl);
                            ("title", title videoInfo);
                            ("author", author videoInfo);
                            ("thumbnail_url", JStr (thumbnail videoInfo));
                            ("mp4_path", if (ty =? "mp4")%string then JStr fileName else JNull);
                            ("mp3_path", if (ty =? "mp3")%string then JStr fileName else JNull);
                            ("type", JStr ty)]) ;;
        match dbError with
        | Some e => throw ("Failed to save metadata: " ++ message e)
        | None =>
            incrementStat "total_success" ;;;
            logApiRequest userIP router 200 realUA ;;;
            if (ty =? "mp4")%string
            then ret (NextResponse buffer 200
                        [("Content-Type", contentType);
                         ("Content-Disposition",
                          "inline; filename=" ++ dquote ++ "youtube_" ++ id ++ "." ++ ext ++ dquote)])
            else
              ret (prettyJson
                     (JObj [("status", JBool true);
                            ("result",
                             JObj [("id", JStr id);
                                   ("youtube_url", JStr youtubeUrl);
                                   ("title", title videoInfo);
                                   ("author", author videoInfo);
                                   ("thumbnail", JStr (thumbnail videoInfo));
                                   ("type", JStr ty);
                                   ("result_url", JStr (result_base ++ id))])])
                     None)
        end
    end.

Definition GET (req : NextRequest) : M response :=
  let youtubeUrl := searchParams_get req "youtube_url" in
  let ty := searchParams_get req "type" in
  if falsy_str youtubeUrl
  then ret (prettyJson (error_envelope "Parameter 'youtube_url' is required") (Some 400))
  else if falsy_str ty
          || (negb (or_default ty EmptyString =? "mp3")%string && negb (or_default ty EmptyString =? "mp4")%string)
  then ret (prettyJson
              (error_envelope "Parameter 'type' is required and must be 'mp3' or 'mp4'")
              (Some 400))
  else
    let youtubeUrl := or_default youtubeUrl EmptyString in
    let ty := or_default ty EmptyString in
    match VideoId.extractVideoId youtubeUrl with
    | None => ret (prettyJson (error_envelope "Invalid YouTube URL") (Some 400))
    | Some _ =>
        let userIP := userIP_of req in
        let realUA := realUA_of req in
        incrementStat "total_hits" ;;;
        try_catch (process youtubeUrl ty realUA userIP)
          (fun error =>
             console_error "YouTube Downloader API Error:" ;;;
             incrementStat "total_errors" ;;;
             logApiRequest userIP router 500 realUA ;;;
             ret (prettyJson (error_envelope (message error)) (Some 500)))
    end.
End Route.

End Yt.

(* ===================================================================== *)
(** * [app/api/downloader/tiktokmp4downloader/route.ts] *)
(* ===================================================================== *)

Module TikTokMp4.

Record TikTokData : Type := mkData {
  videoUrl : jsval;
  musicUrl : jsval;
  title : jsval;
  author : jsval;
  thumbnailUrl : jsval
}.

Definition tikwm_url (u : string) : string :=
  "https://www.tikwm.com/api/?url=" ++ encodeURIComponent u ++ "&hd=1".

Definition default_ua : string :=
  "Mozilla/5.0 (Windows NT 10.0; Win64; x64) AppleWebKit/537.36 (KHTML, like Gecko) Chrome/120.0.0.0 Safari/537.36".

Definition router : string := "/api/downloader/tiktokmp4downloader".
Definition result_base : string := "https://apis.visora.my.id/result/mp4tiktok/".
Definition no_video : string := "No video URL found from any provider".
Definition no_music : string := "No music URL found from any provider".

Section Route.
Variable w : World.

Definition tryTikwm (u ua : string) : M (option TikTokData) :=
  try_catch
    (response <- do_fetch w (JStr (tikwm_url u))
                   (JObj [("headers", JObj [("User-Agent", JStr ua);
                                            ("Accept", JStr "application/json")])]) ;;
     if negb (ok response) then ret None else
     data <- lift (json response) ;;
     code <- lift (get data "code") ;;
     d <- lift (get data "data") ;;
     if js_neq_zero code || negb (truthy d) then ret None else
     hdplay <- lift (get d "hdplay") ;;
     play <- lift (get d "play") ;;
     let videoUrl := js_or hdplay play in
     if negb (truthy videoUrl) then ret None else
     music <- lift (get d "music") ;;
     music_info <- lift (get d "music_info") ;;
     t <- lift (get d "title") ;;
     a <- lift (get d "author") ;;
     cover <- lift (get d "cover") ;;
     origin_cover <- lift (get d "origin_cover") ;;
     ret (Some {| videoUrl := videoUrl;
                  musicUrl := js_or (js_or music (get_opt music_info "play")) JNull;
                  title := js_or t (JStr "TikTok Video");
                  author := js_or (get_opt a "nickname") (JStr "Unknown");
                  thumbnailUrl := js_or (js_or cover origin_cover) JNull |}))
    (fun _ => ret None).

Definition cobalt_init (u : string) (isAudio : bool) : jsval :=
  JObj [("method", JStr "POST");
        ("headers", JObj [("Accept", JStr "application/json");
                          ("Content-Type", JStr "application/json")]);
        ("body", JObj [("url", JStr u);
                       ("downloadMode", JStr (if isAudio then "audio" else "auto"));
                       ("audioFormat", JStr "mp3");
                       ("videoQuality", JStr "1080")])].

(** One turn of the loop of [tryCobalt]; [Some downloadUrl] is the
    [return]. *)
Definition try_instance (instance u : string) (isAudio : bool) : M (option jsval) :=
  try_catch
    (response <- do_fetch w (JStr instance) (cobalt_init u isAudio) ;;
     if negb (ok response) then ret None else
     data <- lift (json response) ;;
     st <- lift (get data "status") ;;
     if js_eq_str st "error" then ret None else
     du <- lift (get data "url") ;;
     if truthy du then ret (Some du) else ret None)
    (fun _ => ret None).

Fixpoint cobalt_loop (instances : list string) (u : string) (isAudio : bool)
  : M (option jsval) :=
  match instances with
  | [] => ret None
  | instance :: rest =>
      r <- try_instance instance u isAudio ;;
      match r with
      | Some du => ret (Some du)
      | None => cobalt_loop rest u isAudio
      end
  end.

Definition tryCobalt (u : string) (isAudio : bool) : M (option jsval) :=
  cobalt_loop cobalt_instances u isAudio.

(** Provider resolution, the first statements of the [try] block: the
    five mutable locals after the two providers have been consulted. *)
Definition resolve (tiktokvid_url ty realUA : string) : M TikTokData :=
  tikwmResult <- tryTikwm tiktokvid_url realUA ;;
  match tikwmResult with
  | Some r => ret r
  | None =>
      cobaltResult <- tryCobalt tiktokvid_url (ty =? "mp3")%string ;;
      let init := {| videoUrl := JNull; musicUrl := JNull;
                     title := JStr "TikTok Video"; author := JStr "Unknown";
                     thumbnailUrl := JNull |} in
      match cobaltResult with
      | Some du =>
          if (ty =? "mp3")%string
          then ret {| videoUrl := JNull; musicUrl := du;
                      title := title init; author := author init;
                      thumbnailUrl := JNull |}
          else ret {| videoUrl := du; musicUrl := JNull;
                      title := title init; author := author init;
                      thumbnailUrl := JNull |}
      | None => ret init
      end
  end.

Definition ua_init (realUA : string) : jsval :=
  JObj [("headers", JObj [("User-Agent", JStr realUA)])].

(** [if (cond) { fetch the file }], for the video and the music leg. *)
Definition fetch_leg (cond : bool) (u : jsval) (realUA failure : string)
  : M (option bytes) :=
  if cond then
    r <- do_fetch w u (ua_init realUA) ;;
    if negb (ok r) then throw failure
    else buffer <- lift (arrayBuffer r) ;; ret (Some buffer)
  else ret None.

Definition upload_leg (buffer : option bytes) (fileName : string) (ct failure : string)
  : M unit :=
  match buffer with
  | Some b =>
      uploadError <- do_upload w "tiktok-downloads" fileName b ct ;;
      match uploadError with
      | Some e => throw (failure ++ message e)
      | None => ret tt
      end
  | None => ret tt
  end.

(** The thumbnail mirror; its failures are logged and swallowed. *)
Definition mirror_thumbnail (thumbnailUrl : jsval) (id : string) : M (option string) :=
  if truthy thumbnailUrl then
    try_catch
      (thumbResponse <- do_fetch w thumbnailUrl JUndefined ;;
       if ok thumbResponse then
         thumbBuffer <- lift (arrayBuffer thumbResponse) ;;
         let thumbFileName := id ++ "_thumb.jpg" in
         _ <- do_upload w "tiktok-downloads" thumbFileName thumbBuffer "image/jpeg" ;;
         ret (Some thumbFileName)
       else ret None)
      (fun _ => console_error "Failed to upload thumbnail:" ;;; ret None)
  else ret None.

(** The [try] block of [GET]. *)
Definition process (tiktokvid_url ty : string) (autoShow : bool) (realUA userIP : string)
  : M response :=
  d <- resolve tiktokvid_url ty realUA ;;
  if (ty =? "mp4")%string && negb (truthy (videoUrl d)) then throw no_video
  else if (ty =? "mp3")%string && negb (truthy (musicUrl d)) then throw no_music
  else
    videoBuffer <- fetch_leg ((ty =? "mp4")%string && truthy (videoUrl d))
                     (videoUrl d) realUA "Failed to fetch video file" ;;
    musicBuffer <- fetch_leg ((ty =? "mp3")%string && truthy (musicUrl d))
                     (musicUrl d) realUA "Failed to fetch music file" ;;
    let id := randomUUID w in
    let mp4FileName := match videoBuffer with Some _ => Some (id ++ ".mp4") | None => None end in
    let mp3FileName := match musicBuffer with Some _ => Some (id ++ ".mp3") | None => None end in
    upload_leg videoBuffer (id ++ ".mp4") "video/mp4" "Failed to upload video to storage: " ;;;
    upload_leg musicBuffer (id ++ ".mp3") "audio/mpeg" "Failed to upload music to storage: " ;;;
    thumbnailPath <- mirror_thumbnail (thumbnailUrl d) id ;;
    dbError <- do_insert w "tiktok_downloads"
                 (JObj [("id", JStr id);
                        ("tiktok_url", JStr tiktokvid_url);
                        ("mp4_path", of_nullable mp4FileName);
                        ("mp3_path", of_nullable mp3FileName);
                        ("thumbnail_path", of_nullable thumbnailPath);
                        ("title", title d);
                        ("author", author d);
                        ("thumbnail_url", thumbnailUrl d)]) ;;
    match dbError with
    | Some _ => console_error "DB Error:"
    | None => ret tt
    end ;;;
    incrementStat "total_success" ;;;
    logApiRequest userIP router 200 realUA ;;;
    match autoShow && (ty =? "mp4")%string, videoBuffer with
    | true, Some vb =>
        ret (NextResponse vb 200
               [("Content-Type", "video/mp4");
                ("Content-Disposition",
                 "inline; filename=" ++ dquote ++ "tiktok_" ++ id ++ ".mp4" ++ dquote)])
    | _, _ =>
        if (ty =? "mp3")%string then
          ret (prettyJson
                 (JObj [("status", JBool true);
                        ("result",
                         JObj [("id", JStr id);
                               ("tiktok_url", JStr tiktokvid_url);
                               ("title", title d);
                               ("author", author d);
                               ("thumbnail", thumbnailUrl d);
                               ("type", JStr ty);
                               ("result_url", JStr (result_base ++ id))])])
                 None)
        else
          let publicUrl := storage_getPublicUrl w "tiktok-downloads"
                             (of_nullable mp4FileName) in
          ret (prettyJson
                 (JObj [("status", JBool true);
                        ("result",
                         JObj [("id", JStr id);
                               ("tiktok_url", JStr tiktokvid_url);
                               ("title", title d);
                               ("author", author d);
                               ("thumbnail", thumbnailUrl d);
                               ("video_url", get_opt publicUrl "publicUrl")])])
                 None)
    end.

Definition GET (req : NextRequest) : M response :=
  let tiktokvid_url := searchParams_get req "tiktokvid_url" in
  let autoShow :=
    match searchParams_get req "auto_show" with
    | Some s => negb (s =? "false")%string
    | None => true
    end in
  let ty := searchParams_get req "type" in
  if falsy_str tiktokvid_url
  then ret (prettyJson (error_envelope "Parameter 'tiktokvid_url' is required") (Some 400))
  else if falsy_str ty
          || (negb (or_default ty EmptyString =? "mp3")%string
              && negb (or_default ty EmptyString =? "mp4")%string)
  then ret (prettyJson
              (error_envelope "Parameter 'type' is required and must be 'mp3' or 'mp4'")
              (Some 400))
  else
    let tiktokvid_url := or_default tiktokvid_url EmptyString in
    let ty := or_default ty EmptyString in
    let userIP := userIP_of req in
    let realUA := or_default (headers_get req "user-agent") default_ua in
    incrementStat "total_hits" ;;;
    try_catch (process tiktokvid_url ty autoShow realUA userIP)
      (fun error =>
         console_error "TikTok Downloader API Error:" ;;;
         incrementStat "total_errors" ;;;
         logApiRequest userIP router 500 realUA ;;;
         ret (prettyJson (error_envelope (message error)) (Some 500))).
End Route.

End TikTokMp4.

(* ===================================================================== *)
(** * [app/api/downloader/tiktokvid2mp3/route.ts] *)
(* ===================================================================== *)

Module TikTokMp3.

Definition tikwm_url (u : string) : string :=
  "https://www.tikwm.com/api/?url=" ++ encodeURIComponent u.

Definition router : string := "/api/downloader/tiktokvid2mp3".
Definition result_base : string := "https://apis.visora.my.id/result/tiktokvid2mp3/".
Definition all_failed : string := "All providers failed to get music URL".

Section Route.
Variable w : World.

(** Both providers answer [{ musicUrl }] or [null]. *)
Definition tryTikwm (u ua : string) : M (option jsval) :=
  try_catch
    (response <- do_fetch w (JStr (tikwm_url u))
                   (JObj [("headers", JObj [("User-Agent", JStr ua)])]) ;;
     if negb (ok response) then ret None else
     data <- lift (json response) ;;
     code <- lift (get data "code") ;;
     d <- lift (get data "data") ;;
     if js_neq_zero code || negb (truthy d) then ret None else
     music <- lift (get d "music") ;;
     music_info <- lift (get d "music_info") ;;
     let musicUrl := js_or music (get_opt music_info "play") in
     if negb (truthy musicUrl) then ret None else ret (Some musicUrl))
    (fun _ => ret None).

Definition cobalt_init (u : string) : jsval :=
  JObj [("method", JStr "POST");
        ("headers", JObj [("Accept", JStr "application/json");
                          ("Content-Type", JStr "application/json")]);
        ("body", JObj [("url", JStr u);
                       ("downloadMode", JStr "audio");
                       ("audioFormat", JStr "mp3")])].

Definition try_instance (instance u : string) : M (option jsval) :=
  try_catch
    (response <- do_fetch w (JStr instance) (cobalt_init u) ;;
     if negb (ok response) then ret None else
     data <- lift (json response) ;;
     st <- lift (get data "status") ;;
     if js_eq_str st "error" then ret None else
     du <- lift (get data "url") ;;
     if truthy du then ret (Some du) else ret None)
    (fun _ => ret None).

Fixpoint cobalt_loop (instances : list string) (u : string) : M (option jsval) :=
  match instances with
  | [] => ret None
  | instance :: rest =>
      r <- try_instance instance u ;;
      match r with
      | Some du => ret (Some du)
      | None => cobalt_loop rest u
      end
  end.

Definition tryCobalt (u : string) : M (option jsval) := cobalt_loop cobalt_instances u.

(** [let result = await tryTikwm(...); if (!result) result = await tryCobalt(...)]. *)
Definition resolve (tiktokvid_url realUA : string) : M (option jsval) :=
  result <- tryTikwm tiktokvid_url realUA ;;
  match result with
  | Some m => ret (Some m)
  | None => tryCobalt tiktokvid_url
  end.

(** The [try] block of [GET]. *)
Definition process (tiktokvid_url : string) (instantAppearance : bool)
           (realUA userIP : string) : M response :=
  result <- resolve tiktokvid_url realUA ;;
  match result with
  | None => throw all_failed
  | Some musicUrl =>
      musicResponse <- do_fetch w musicUrl
                         (JObj [("headers", JObj [("User-Agent", JStr realUA)])]) ;;
      if negb (ok musicResponse) then throw "Failed to fetch music file from provider"
      else
        buffer <- lift (arrayBuffer musicResponse) ;;
        let id := randomUUID w in
        let fileName := id ++ ".mp3" in
        uploadError <- do_upload w "tiktok-mp3s" fileName buffer "audio/mpeg" ;;
        match uploadError with
        | Some e => throw ("Failed to upload to storage: " ++ message e)
        | None =>
            dbError <- do_insert w "tiktok_mp3s"
                         (JObj [("id", JStr id);
                                ("tiktok_url", JStr tiktokvid_url);
                                ("mp3_path", JStr fileName)]) ;;
            match dbError with
            | Some _ => console_error "DB Error:"
            | None => ret tt
            end ;;;
            incrementStat "total_success" ;;;
            logApiRequest userIP router 200 realUA ;;;
            if instantAppearance then
              ret (NextResponse buffer 200
                     [("Content-Type", "audio/mpeg");
                      ("Content-Disposition",
                       "inline; filename=" ++ dquote ++ "tiktok_" ++ id ++ ".mp3" ++ dquote)])
            else
              ret (prettyJson
                     (JObj [("status", JBool true);
                            ("result",
                             JObj [("id", JStr id);
                                   ("tiktok_url", JStr tiktokvid_url);
                                   ("result_url", JStr (result_base ++ id))])])
                     None)
        end
  end.

Definition GET (req : NextRequest) : M response :=
  let tiktokvid_url := searchParams_get req "tiktokvid_url" in
  let instantAppearance :=
    match searchParams_get req "instant-appearance" with
    | Some s => (s =? "true")%string
    | None => false
    end in
  if falsy_str tiktokvid_url
  then ret (prettyJson (error_envelope "Parameter 'tiktokvid_url' is required") (Some 400))
  else
    let tiktokvid_url := or_default tiktokvid_url EmptyString in
    let userIP := userIP_of req in
    let realUA := or_default (headers_get req "user-agent") TikTokMp4.default_ua in
    incrementStat "total_hits" ;;;
    try_catch (process tiktokvid_url instantAppearance realUA userIP)
      (fun error =>
         console_error "TikTok MP3 API Error:" ;;;
         incrementStat "total_errors" ;;;
         logApiRequest userIP router 500 realUA ;;;
         ret (prettyJson (error_envelope (message error)) (Some 500))).
End Route.

End TikTokMp3.

(* ===================================================================== *)
(** * [app/api/result/ytdownloader/[id]/route.ts] *)
(* ===================================================================== *)

Module YtResult.

Section Route.
Variable w : World.

(** The descriptor returned for a row [meta] whose file resolves to
    the storage answer [publicUrl]. *)
Definition descriptor (meta publicUrl : jsval) : jsval :=
  JObj [("status", JBool true);
        ("result",
         JObj [("id", get_opt meta "id");
               ("youtube_url", get_opt meta "youtube_url");
               ("title", get_opt meta "title");
               ("author", get_opt meta "author");
               ("thumbnail_url", get_opt meta "thumbnail_url");
               ("type", get_opt meta "type");
               ("mp3_url", get_opt publicUrl "publicUrl")])].

(** [meta.mp3_path || meta.mp4_path]. *)
Definition filePath_of (meta : jsval) : jsval :=
  js_or (get_opt meta "mp3_path") (get_opt meta "mp4_path").

Definition GET (id : string) : M response :=
  try_catch
    (r <- do_select w "yt_downloads" id ;;
     let (meta, metaError) := r in
     if truthy metaError || negb (truthy meta)
     then ret (prettyJson (error_envelope "Download not found") (Some 404))
     else
       let filePath := filePath_of meta in
       if negb (truthy filePath)
       then ret (prettyJson (error_envelope "File not found") (Some 404))
       else
         let publicUrl := storage_getPublicUrl w "yt-downloads" filePath in
         ret (prettyJson (descriptor meta publicUrl) None))
    (fun _ =>
       console_error "YT Result API Error:" ;;;
       ret (prettyJson (error_envelope "Internal server error") (Some 500))).
End Route.

End YtResult.

(* ===================================================================== *)
(** * The image generator route *)
(* ===================================================================== *)

Module Imagen.

Definition BOT_USER_AGENTS : list string :=
  ["Googlebot/2.1 (+http://www.google.com/bot.html)";
   "Mozilla/5.0 (compatible; Googlebot/2.1; +http://www.google.com/bot.html)";
   "Mozilla/5.0 (compatible; Bingbot/2.0; +http://www.bing.com/bingbot.htm)";
   "Mozilla/5.0 (compatible; YandexBot/3.0; +http://yandex.com/bots)"].

Definition router : string := "/api/image-generator/imagen-3.5-pro".
Definition watermarkUrl : string :=
  "https://watermark-ai-imagenerator.assetsvsiddev.workers.dev/".

Section Route.
Variable w : World.

(** [getRandomBotUA()], at its [k]-th call in the request. *)
Definition getRandomBotUA (k : nat) : string :=
  nth (random_index w k mod List.length BOT_USER_AGENTS)%nat BOT_USER_AGENTS EmptyString.

Definition generateFromFlux (prompt : string) : M bytes :=
  let apiUrl := "https://api.siputzx.my.id/api/ai/flux?prompt=" ++ encodeURIComponent prompt in
  res <- do_fetch w (JStr apiUrl)
           (JObj [("method", JStr "GET");
                  ("headers", JObj [("User-Agent", JStr (getRandomBotUA 0));
                                    ("Accept", JStr "*/*")])]) ;;
  if negb (ok res) then throw "Failed to generate image from Flux API" else
  let contentType := or_default (content_type res) EmptyString in
  if includes contentType "application/json" then
    jsonData <- lift (json res) ;;
    d <- lift (get jsonData "data") ;;
    r <- lift (get jsonData "result") ;;
    u <- lift (get jsonData "url") ;;
    i <- lift (get jsonData "image") ;;
    let imageUrl := js_or (js_or (js_or d r) u) i in
    if truthy imageUrl then
      imgRes <- do_fetch w imageUrl
                  (JObj [("headers", JObj [("User-Agent", JStr (getRandomBotUA 1));
                                           ("Accept", JStr "image/*")])]) ;;
      if negb (ok imgRes) then throw "Failed to download generated image"
      else lift (arrayBuffer imgRes)
    else throw "Invalid response from Flux API"
  else if negb (includes contentType "image")
  then throw "Flux API did not return an image"
  else lift (arrayBuffer res).

(** The [try] block of [GET]. *)
Definition process (prompt userAgent userIP : string) : M response :=
  imageBuffer <- generateFromFlux prompt ;;
  watermarkRes <- do_fetch w (JStr watermarkUrl) JUndefined ;;
  if negb (ok watermarkRes) then throw "Failed to download watermark image" else
  watermarkBuffer <- lift (arrayBuffer watermarkRes) ;;
  watermarkWithOpacity <- lift (sharp_watermark w watermarkBuffer) ;;
  watermarkedImageBuffer <- lift (sharp_composite w imageBuffer watermarkWithOpacity) ;;
  let id := randomBytes4_hex w in
  let imagePath := "imagen-3.5-pro/" ++ id ++ ".png" in
  uploadError <- do_upload w "ai-images" imagePath watermarkedImageBuffer "image/png" ;;
  match uploadError with
  | Some e => rethrow e
  | None =>
      dbError <- do_insert w "ai_images"
                   (JObj [("id", JStr id); ("prompt", JStr prompt);
                          ("image_path", JStr imagePath)]) ;;
      match dbError with
      | Some e => rethrow e
      | None =>
          incrementStat "total_success" ;;;
          logApiRequest userIP router 200 userAgent ;;;
          ret (NextResponse watermarkedImageBuffer 200
                 [("Content-Type", "image/png");
                  ("X-Result-URL", "/image/imagen-3.5-pro/result/" ++ id)])
      end
  end.

Definition GET (req : NextRequest) : M response :=
  let prompt := searchParams_get req "prompt" in
  let userIP := userIP_of req in
  let userAgent := or_default (headers_get req "user-agent") "browser" in
  if falsy_str prompt
  then ret (errorRedirect 400 "Parameter 'prompt' is required")
  else
    let prompt := or_default prompt EmptyString in
    incrementStat "total_requests" ;;;
    try_catch (process prompt userAgent userIP)
      (fun error =>
         console_error "Imagen 3.5 Pro API Error:" ;;;
         incrementStat "total_errors" ;;;
         logApiRequest userIP router 500 userAgent ;;;
         ret (errorRedirect 500
                (or_default (Some (message error))
                   "Terjadi kesalahan saat generate gambar"))).
End Route.

End Imagen.

(* ===================================================================== *)
(** * Reading a trace *)
(* ===================================================================== *)

(** A write to the storage bucket or to the metadata table. *)
Definition is_storage_write (e : effect) : bool :=
  match e with
  | StorageUpload _ _ _ _ | DbInsert _ _ => true
  | _ => false
  end.

Definition no_storage_write (t : list effect) : Prop :=
  existsb is_storage_write t = false.

(** The addresses fetched, in program order. *)
Fixpoint fetched (t : list effect) : list jsval :=
  match t with
  | [] => []
  | Fetch u _ :: t' => u :: fetched t'
  | _ :: t' => fetched t'
  end.

(** The rows handed to [insert], in program order. *)
Fixpoint inserted (t : list effect) : list (string * jsval) :=
  match t with
  | [] => []
  | DbInsert table row :: t' => (table, row) :: inserted t'
  | _ :: t' => inserted t'
  end.

(** The objects handed to [upload], in program order. *)
Fixpoint uploaded (t : list effect) : list (string * string) :=
  match t with
  | [] => []
  | StorageUpload bucket path _ _ :: t' => (bucket, path) :: uploaded t'
  | _ :: t' => uploaded t'
  end.

(** A fallback chain over [providers], stated on its own: the providers
    consulted and the first answer obtained, when [answer p] is what
    provider [p] yields. *)
Fixpoint first_success {A} (answer : string -> option A) (providers : list string)
  : list string * option A :=
  match providers with
  | [] => ([], None)
  | p :: rest =>
      match answer p with
      | Some a => ([p], Some a)
      | None => let (tried, r) := first_success answer rest in (p :: tried, r)
      end
  end.

(** A request turned away at validation: nothing is done, the answer
    is the error envelope under status 400. *)
Definition bad_request (msg : string) : M response :=
  ([], inr (prettyJson (error_envelope msg) (Some 400))).

(** What a handler answered, when it did not throw. *)
Definition answered {A} (m : M A) (a : A) : Prop := outcome m = inr a.

Definition status_is (r : response) (st : Z) : Prop := r_status r = Some st.

(** The [error] string of an error envelope. *)
Definition error_of (r : response) : option string :=
  match r_payload r with
  | JsonBody v =>
      match get_opt v "status", get_opt v "error" with
      | JBool false, JStr msg => Some msg
      | _, _ => None
      end
  | ErrorPage msg => Some msg
  | RawBytes _ => None
  end.

(** The [result] object of a success envelope. *)
Definition result_of (r : response) : option jsval :=
  match r_payload r with
  | JsonBody v =>
      match get_opt v "status", get_opt v "result" with
      | JBool true, JObj fs => Some (JObj fs)
      | _, _ => None
      end
  | _ => None
  end.

(** Raw bytes delivered with an inline [Content-Disposition]. *)
Definition is_inline_bytes (r : response) : bool :=
  match r_payload r with
  | RawBytes _ =>
      match assoc_str "Content-Disposition" (r_headers r) with
      | Some v => match strip_prefix "inline; filename=" v with Some _ => true | None => false end
      | None => false
      end
  | _ => false
  end.

(** A success envelope whose result carries a [result_url] under the
    given base address of a lookup endpoint. *)
Definition has_result_url (base : string) (r : response) : bool :=
  match result_of r with
  | Some res =>
      match get_opt res "result_url" with
      | JStr u => match strip_prefix base u with Some _ => true | None => false end
      | _ => false
      end
  | None => false
  end.

(** A success response: bytes under status 200, or a success envelope. *)
Definition is_success (r : response) : bool :=
  match r_payload r with
  | RawBytes _ => match r_status r with Some 200 => true | _ => false end
  | JsonBody v => match get_opt v "status" with JBool true => true | _ => false end
  | ErrorPage _ => false
  end.

(* ===================================================================== *)
(** * What a provider yields *)
(* ===================================================================== *)

(** The answer of one provider, as the route itself reads it: [None] is
    a provider that failed to resolve the address. *)
Definition yielded {A} (m : M (option A)) : option A :=
  match outcome m with
  | inr r => r
  | inl _ => None
  end.

Module YtSpec.
Definition provider_answer (w : World) (u ty : string) (instance : string)
  : option Yt.DownloadResult :=
  yielded (Yt.try_instance w instance u ty).

(** The source address fails resolution at every provider. *)
Definition providers_fail (w : World) (u ty : string) : Prop :=
  forall i, In i cobalt_instances -> provider_answer w u ty i = None.

(** The embed-info request for [videoId] fails: the network call
    throws, the status is not a success, or the body is not a JSON
    object that can be read. *)
Definition embed_info_fails (w : World) (videoId : string) : Prop :=
  match fetch w (JStr (Yt.oembed_url videoId)) JUndefined with
  | inl _ => True
  | inr r =>
      ok r = false
      \/ match json r with
         | inl _ => True
         | inr data => data = JNull \/ data = JUndefined
         end
  end.

(** A descriptor that can be shown: a title and an author that are
    not empty. *)
Definition usable (info : Yt.VideoInfo) : Prop :=
  truthy (Yt.title info) = true /\ truthy (Yt.author info) = true.

(** The request carries the parameters the route requires. *)
Definition well_formed (req : NextRequest) (u ty : string) : Prop :=
  searchParams_get req "youtube_url" = Some u /\ u <> EmptyString
  /\ searchParams_get req "type" = Some ty /\ (ty = "mp3" \/ ty = "mp4")
  /\ VideoId.extractVideoId u <> None.

(** What the [catch] clause of the route does with an exception: the
    interactions it adds and the response it returns. *)
Definition on_error (req : NextRequest) (error : Error) : list effect * response :=
  ([ConsoleError "YouTube Downloader API Error:";
    IncrementStat "total_errors";
    LogApiRequest (JObj [("ip_address", JStr (userIP_of req)); ("method", JStr "GET");
                         ("router", JStr Yt.router); ("status", JNum 500);
                         ("user_agent", JStr (Yt.realUA_of req))])],
   prettyJson (error_envelope (message error)) (Some 500)).
End YtSpec.

Module TikTokMp4Spec.
Definition tikwm_answer (w : World) (u ua : string) : option TikTokMp4.TikTokData :=
  yielded (TikTokMp4.tryTikwm w u ua).

Definition relay_answer (w : World) (u : string) (isAudio : bool) (instance : string)
  : option jsval :=
  yielded (TikTokMp4.try_instance w instance u isAudio).

(** The source address fails resolution at every provider. *)
Definition providers_fail (w : World) (u ty ua : string) : Prop :=
  tikwm_answer w u ua = None
  /\ forall i, In i cobalt_instances -> relay_answer w u (ty =? "mp3")%string i = None.

Definition well_formed (req : NextRequest) (u ty : string) : Prop :=
  searchParams_get req "tiktokvid_url" = Some u /\ u <> EmptyString
  /\ searchParams_get req "type" = Some ty /\ (ty = "mp3" \/ ty = "mp4").

(** The five locals of the route when the extractor gave nothing and
    the relay chain answered [r]. *)
Definition from_relay (ty : string) (r : option jsval) : TikTokMp4.TikTokData :=
  match r with
  | Some du =>
      if (ty =? "mp3")%string
      then TikTokMp4.mkData JNull du (JStr "TikTok Video") (JStr "Unknown") JNull
      else TikTokMp4.mkData du JNull (JStr "TikTok Video") (JStr "Unknown") JNull
  | None => TikTokMp4.mkData JNull JNull (JStr "TikTok Video") (JStr "Unknown") JNull
  end.

Definition realUA_of (req : NextRequest) : string :=
  or_default (headers_get req "user-agent") TikTokMp4.default_ua.

(** [searchParams.get("auto_show") !== "false"]. *)
Definition autoShow_of (req : NextRequest) : bool :=
  match searchParams_get req "auto_show" with
  | Some s => negb (s =? "false")%string
  | None => true
  end.
End TikTokMp4Spec.

Module TikTokMp3Spec.
Definition tikwm_answer (w : World) (u ua : string) : option jsval :=
  yielded (TikTokMp3.tryTikwm w u ua).

Definition relay_answer (w : World) (u : string) (instance : string) : option jsval :=
  yielded (TikTokMp3.try_instance w instance u).

Definition providers_fail (w : World) (u ua : string) : Prop :=
  tikwm_answer w u ua = None
  /\ forall i, In i cobalt_instances -> relay_answer w u i = None.

Definition well_formed (req : NextRequest) (u : string) : Prop :=
  searchParams_get req "tiktokvid_url" = Some u /\ u <> EmptyString.

(** [searchParams.get("instant-appearance") === "true"]. *)
Definition instantAppearance_of (req : NextRequest) : bool :=
  match searchParams_get req "instant-appearance" with
  | Some s => (s =? "true")%string
  | None => false
  end.
End TikTokMp3Spec.

Module TikTokMp4On.
(** What the [catch] clause of the route does with an exception. *)
Definition on_error (req : NextRequest) (error : Error) : list effect * response :=
  ([ConsoleError "TikTok Downloader API Error:";
    IncrementStat "total_errors";
    LogApiRequest (JObj [("ip_address", JStr (userIP_of req)); ("method", JStr "GET");
                         ("router", JStr TikTokMp4.router); ("status", JNum 500);
                         ("user_agent", JStr (TikTokMp4Spec.realUA_of req))])],
   prettyJson (error_envelope (message error)) (Some 500)).
End TikTokMp4On.

Module TikTokMp3On.
Definition on_error (req : NextRequest) (error : Error) : list effect * response :=
  ([ConsoleError "TikTok MP3 API Error:";
    IncrementStat "total_errors";
    LogApiRequest (JObj [("ip_address", JStr (userIP_of req)); ("method", JStr "GET");
                         ("router", JStr TikTokMp3.router); ("status", JNum 500);
                         ("user_agent", JStr (TikTokMp4Spec.realUA_of req))])],
   prettyJson (error_envelope (message error)) (Some 500)).
End TikTokMp3On.

Module YtResultSpec.
(** The metadata query delivered no row: it reported an error or its
    data is empty. *)
Definition row_missing (w : World) (id : string) : Prop :=
  exists meta metaError,
    db_select_single w "yt_downloads" id = inr (meta, metaError)
    /\ (truthy metaError = true \/ truthy meta = false).

(** The query delivered the row [meta]. *)
Definition row_found (w : World) (id : string) (meta : jsval) : Prop :=
  exists metaError,
    db_select_single w "yt_downloads" id = inr (meta, metaError)
    /\ truthy metaError = false /\ truthy meta = true.

(** The lookup itself failed: the awaited query was rejected. *)
Definition lookup_throws (w : World) (id : string) : Prop :=
  exists e, db_select_single w "yt_downloads" id = inl e.

Definition generic_failure : response :=
  prettyJson (error_envelope "Internal server error") (Some 500).
End YtResultSpec.

(* ===================================================================== *)
(** * Properties of the specification, as predicates on a run *)
(* ===================================================================== *)

Module Stated.
(** A parameter is missing from the query string (absent or empty). *)
Definition missing (req : NextRequest) (p : string) : Prop :=
  falsy_str (searchParams_get req p) = true.

Definition present (req : NextRequest) (p : string) : Prop :=
  falsy_str (searchParams_get req p) = false.


(** Exactly one of the two path fields of [row] is populated, and it
    is the one of the requested type, holding [id.type]. *)
Definition one_path (id ty : string) (row : jsval) : Prop :=
  (ty = "mp4" /\ get_opt row "mp4_path" = JStr (id ++ ".mp4")
   /\ get_opt row "mp3_path" = JNull)
  \/ (ty = "mp3" /\ get_opt row "mp3_path" = JStr (id ++ ".mp3")
      /\ get_opt row "mp4_path" = JNull).

(** The response-shaping rule of the specification, read on one
    successful answer: raw inline bytes when the caller did not opt
    out and the kind is video, otherwise the envelope with a
    [result_url] under [base]. *)
Definition delivery_rule (not_opted_out is_video : bool) (base : string) (r : response)
  : Prop :=
  if not_opted_out && is_video
  then is_inline_bytes r = true
  else is_inline_bytes r = false /\ has_result_url base r = true.

Definition delivery_as_stated_tiktok_video (w : World) (req : NextRequest) : Prop :=
  forall r,
    answered (TikTokMp4.GET w req) r -> is_success r = true ->
    delivery_rule (TikTokMp4Spec.autoShow_of req)
      (or_default (searchParams_get req "type") EmptyString =? "mp4")%string
      TikTokMp4.result_base r.

(** The audio-only route: the kind is never video. *)
Definition delivery_as_stated_tiktok_audio (w : World) (req : NextRequest) : Prop :=
  forall r,
    answered (TikTokMp3.GET w req) r -> is_success r = true ->
    delivery_rule true false TikTokMp3.result_base r.

(** Metadata enrichment never raises, whatever the address. *)
Definition enrichment_never_raises (w : World) : Prop :=
  forall u, exists info, outcome (Yt.getVideoInfo w u) = inr info.

(** The fallback rule of the specification, read on one run of the
    TikTok video route: the hard failure is produced only after every
    provider of the chain has been asked. *)
Definition hard_failure_only_when_exhausted (w : World) (req : NextRequest) (u : string)
  : Prop :=
  forall r,
    answered (TikTokMp4.GET w req) r ->
    (error_of r = Some TikTokMp4.no_video \/ error_of r = Some TikTokMp4.no_music) ->
    fetched (trace (TikTokMp4.resolve w u
                      (or_default (searchParams_get req "type") EmptyString)
                      (TikTokMp4Spec.realUA_of req)))
    = JStr (TikTokMp4.tikwm_url u) :: map JStr cobalt_instances.

(** The exhaustion rule of the specification, read on one request of
    the YouTube route: whenever the address the request carries fails
    resolution at every provider, the answer is a 500. *)
Definition exhausted_gives_500 (w : World) (req : NextRequest) : Prop :=
  forall u ty,
    searchParams_get req "youtube_url" = Some u ->
    searchParams_get req "type" = Some ty ->
    YtSpec.providers_fail w u ty ->
    exists r, answered (Yt.GET w req) r /\ status_is r 500.

(** The metadata query reports a failure that is not an absent row:
    an error object under another code than [PGRST116], the code under
    which [.single()] reports that no row matched. *)
Definition reported_failure (w : World) (id : string) : Prop :=
  exists meta metaError,
    db_select_single w "yt_downloads" id = inr (meta, metaError)
    /\ truthy metaError = true
    /\ get_opt metaError "code" <> JStr "PGRST116".

(** The failure rule of the specification, read on one lookup: a
    failure other than an absent row or an absent path yields 500. *)
Definition other_failure_gives_500 (w : World) (id : string) : Prop :=
  reported_failure w id ->
  exists r, answered (YtResult.GET w id) r /\ status_is r 500.
End Stated.

(* ===================================================================== *)
(** * Proof automation *)
(* ===================================================================== *)

(** The innermost scrutinee that blocks the evaluation of a goal. *)
Ltac blocking t k :=
  lazymatch t with
  | context [match ?y with _ => _ end] => blocking y k
  | negb ?b => blocking b k
  | andb ?a _ => blocking a k
  | orb ?a _ => blocking a k
  | _ => k t
  end.

Ltac case_step :=
  match goal with
  | |- ?G => blocking G ltac:(fun s => destruct s eqn:?)
  end.

Ltac run := cbn; repeat (case_step; cbn).

Ltac unfold_monad :=
  unfold do_fetch, do_upload, do_insert, do_select, incrementStat, logApiRequest,
    console_error, bind, try_catch, lift, emit, ret, throw, rethrow, trace, outcome,
    answered in *.


(* ===================================================================== *)
(** * Concrete worlds and requests *)
(* ===================================================================== *)

Module Examples.

Definition some_bytes : bytes := [Byte.x49; Byte.x44; Byte.x33].

Definition json_response (v : jsval) : FetchResponse :=
  {| ok := true; status := 200; content_type := Some "application/json";
     json := inr v; arrayBuffer := inr [] |}.

Definition media_response : FetchResponse :=
  {| ok := true; status := 200; content_type := Some "video/mp4";
     json := inl (mkError "Unexpected token"); arrayBuffer := inr some_bytes |}.

Definition starts_with (p : string) (v : jsval) : bool :=
  match v with
  | JStr s => match strip_prefix p s with Some _ => true | None => false end
  | _ => false
  end.

Definition is_relay (v : jsval) : bool :=
  existsb (fun i => js_eq_str v i) cobalt_instances.

(** The network is down: every request is rejected. *)
Definition w_down : World :=
  {| fetch := fun _ _ => inl (mkError "fetch failed");
     storage_upload := fun _ _ _ _ => inr None;
     storage_getPublicUrl := fun bucket path =>
       JObj [("publicUrl", js_or path JNull)];
     db_insert := fun _ _ => inr None;
     db_select_single := fun _ _ => inl (mkError "fetch failed");
     randomUUID := "3f2a";
     randomBytes4_hex := "0a1b2c3d";
     random_index := fun _ => 0%nat;
     sharp_watermark := fun b => inr b;
     sharp_composite := fun a _ => inr a |}.

Definition public_url (bucket : string) (path : jsval) : jsval :=
  match path with
  | JStr p => JObj [("publicUrl", JStr ("https://storage.example/" ++ bucket ++ "/" ++ p))]
  | _ => JObj [("publicUrl", JStr "https://storage.example/")]
  end.

Definition tikwm_full : jsval :=
  JObj [("code", JNum 0);
        ("data", JObj [("play", JStr "https://cdn.example/v.mp4");
                       ("music", JStr "https://cdn.example/a.mp3");
                       ("title", JStr "clip")])].

(** The extractor knows the video but has no music address for it. *)
Definition tikwm_video_only : jsval :=
  JObj [("code", JNum 0);
        ("data", JObj [("play", JStr "https://cdn.example/v.mp4");
                       ("title", JStr "clip")])].

Definition relay_tunnel : jsval :=
  JObj [("status", JStr "tunnel"); ("url", JStr "https://relay.example/file");
        ("filename", JStr "file")].

Definition stored_mp4_row : jsval :=
  JObj [("id", JStr "3f2a");
        ("youtube_url", JStr "https://youtu.be/dQw4w9WgXcQ");
        ("title", JStr "clip"); ("author", JStr "Unknown");
        ("thumbnail_url", JStr "https://img.youtube.com/vi/dQw4w9WgXcQ/maxresdefault.jpg");
        ("mp4_path", JStr "3f2a.mp4"); ("mp3_path", JNull); ("type", JStr "mp4")].

Definition empty_row : jsval :=
  JObj [("id", JStr "dead"); ("mp4_path", JNull); ("mp3_path", JNull)].

(** Every third party answers; [tikwm] is the body the extractor
    returns and [insert_error] what the datastore says to an insert. *)
Definition world_with (tikwm : jsval) (insert_error : option Error) : World :=
  {| fetch := fun u _ =>
       if starts_with "https://www.tikwm.com/" u then inr (json_response tikwm)
       else if is_relay u then inr (json_response relay_tunnel)
       else if starts_with "https://www.youtube.com/oembed" u
            then inr (json_response (JObj [("title", JStr "clip")]))
       else inr media_response;
     storage_upload := fun _ _ _ _ => inr None;
     storage_getPublicUrl := public_url;
     db_insert := fun _ _ => inr insert_error;
     db_select_single := fun _ id =>
       if (id =? "3f2a")%string then inr (stored_mp4_row, JNull)
       else if (id =? "dead")%string then inr (empty_row, JNull)
       else inr (JNull, JObj [("code", JStr "PGRST116")]);
     randomUUID := "3f2a";
     randomBytes4_hex := "0a1b2c3d";
     random_index := fun _ => 0%nat;
     sharp_watermark := fun b => inr b;
     sharp_composite := fun a _ => inr a |}.

Definition w_ok : World := world_with tikwm_full None.
Definition w_video_only : World := world_with tikwm_video_only None.
Definition w_insert_fails : World :=
  world_with tikwm_full (Some (mkError "duplicate key")).

Definition request (params : list (string * string)) : NextRequest :=
  {| searchParams_get := fun k => assoc_str k params;
     headers_get := fun _ => None |}.

Definition tiktok_address : string := "https://www.tiktok.com/@user/video/1".
Definition youtube_address : string := "https://youtu.be/dQw4w9WgXcQ".

Definition req_tiktok (ty : string) : NextRequest :=
  request [("tiktokvid_url", tiktok_address); ("type", ty)].

Definition req_tiktok_no_show : NextRequest :=
  request [("tiktokvid_url", tiktok_address); ("type", "mp4"); ("auto_show", "false")].

Definition req_tiktok_audio : NextRequest :=
  request [("tiktokvid_url", tiktok_address)].

Definition req_tiktok_audio_instant : NextRequest :=
  request [("tiktokvid_url", tiktok_address); ("instant-appearance", "true")].

Definition req_youtube (ty : string) : NextRequest :=
  request [("youtube_url", youtube_address); ("type", ty)].


End Examples.

(* ===================================================================== *)
(** * Further readings of a trace *)
(* ===================================================================== *)

(** The counters incremented, in program order. *)
Fixpoint stats (t : list effect) : list string :=
  match t with
  | [] => []
  | IncrementStat name :: t' => name :: stats t'
  | _ :: t' => stats t'
  end.

(** The [status] of each request-log entry written, in program order. *)
Fixpoint logged (t : list effect) : list jsval :=
  match t with
  | [] => []
  | LogApiRequest entry :: t' => get_opt entry "status" :: logged t'
  | _ :: t' => logged t'
  end.

(** The datastore queries issued, in program order. *)
Fixpoint selected (t : list effect) : list (string * string) :=
  match t with
  | [] => []
  | DbSelect table id :: t' => (table, id) :: selected t'
  | _ :: t' => selected t'
  end.

(** An interaction of provider resolution: a request to a third party
    or a line on the console. *)
Definition is_lookup (e : effect) : bool :=
  match e with
  | Fetch _ _ | ConsoleError _ => true
  | _ => false
  end.

Definition only_lookups (t : list effect) : Prop := forallb is_lookup t = true.

(** The characters of a string. *)
Definition chars (s : string) : list ascii := list_ascii_of_string s.

(** The characters that delimit the parts of a query string or of an
    address. *)
Definition is_delimiter (c : ascii) : bool :=
  existsb (Ascii.eqb c) (list_ascii_of_string "&=?#/:+ ").

(** The request-log entry of a route. *)
Definition log_entry (ip router : string) (st : Z) (ua : string) : jsval :=
  JObj [("ip_address", JStr ip); ("method", JStr "GET");
        ("router", JStr router); ("status", JNum st);
        ("user_agent", JStr ua)].

(* ===================================================================== *)
(** * The runs of the YouTube [try] block, stage by stage *)
(* ===================================================================== *)

Module YtRun.

Definition fileName_of (w : World) (ty : string) : string :=
  randomUUID w ++ "." ++ (if (ty =? "mp3")%string then "mp3" else "mp4").

Definition contentType_of (ty : string) : string :=
  if (ty =? "mp3")%string then "audio/mpeg" else "video/mp4".

Definition media_init (ua : string) : jsval :=
  JObj [("headers", JObj [("User-Agent", JStr ua)])].

(** The row handed to [insert]. *)
Definition row_of (w : World) (u ty : string) (info : Yt.VideoInfo) : jsval :=
  JObj [("id", JStr (randomUUID w));
        ("youtube_url", JStr u);
        ("title", Yt.title info);
        ("author", Yt.author info);
        ("thumbnail_url", JStr (Yt.thumbnail info));
        ("mp4_path", if (ty =? "mp4")%string then JStr (fileName_of w ty) else JNull);
        ("mp3_path", if (ty =? "mp3")%string then JStr (fileName_of w ty) else JNull);
        ("type", JStr ty)].

(** The response of a request that went through. *)
Definition delivered (w : World) (u ty : string) (info : Yt.VideoInfo) (buffer : bytes)
  : response :=
  if (ty =? "mp4")%string
  then NextResponse buffer 200
         [("Content-Type", contentType_of ty);
          ("Content-Disposition",
           "inline; filename=" ++ dquote ++ "youtube_" ++ randomUUID w ++ "."
             ++ (if (ty =? "mp3")%string then "mp3" else "mp4") ++ dquote)]
  else prettyJson
         (JObj [("status", JBool true);
                ("result",
                 JObj [("id", JStr (randomUUID w));
                       ("youtube_url", JStr u);
                       ("title", Yt.title info);
                       ("author", Yt.author info);
                       ("thumbnail", JStr (Yt.thumbnail info));
                       ("type", JStr ty);
                       ("result_url", JStr (Yt.result_base ++ randomUUID w))])])
         None.

Section Run.
Variable w : World.
Variables u ty ua ip : string.

(** Upload, metadata write and response, for the media [buffer]. *)
Inductive store (info : Yt.VideoInfo) (buffer : bytes)
  : list effect -> Error + response -> Prop :=
| upload_throws e :
    storage_upload w "yt-downloads" (fileName_of w ty) buffer (contentType_of ty) = inl e ->
    store info buffer
      [StorageUpload "yt-downloads" (fileName_of w ty) buffer (contentType_of ty)]
      (inl e)
| upload_refused e :
    storage_upload w "yt-downloads" (fileName_of w ty) buffer (contentType_of ty)
    = inr (Some e) ->
    store info buffer
      [StorageUpload "yt-downloads" (fileName_of w ty) buffer (contentType_of ty)]
      (inl (mkError ("Failed to upload to storage: " ++ message e)))
| insert_throws e :
    storage_upload w "yt-downloads" (fileName_of w ty) buffer (contentType_of ty)
    = inr None ->
    db_insert w "yt_downloads" (row_of w u ty info) = inl e ->
    store info buffer
      [StorageUpload "yt-downloads" (fileName_of w ty) buffer (contentType_of ty);
       DbInsert "yt_downloads" (row_of w u ty info)]
      (inl e)
| insert_refused e :
    storage_upload w "yt-downloads" (fileName_of w ty) buffer (contentType_of ty)
    = inr None ->
    db_insert w "yt_downloads" (row_of w u ty info) = inr (Some e) ->
    store info buffer
      [StorageUpload "yt-downloads" (fileName_of w ty) buffer (contentType_of ty);
       DbInsert "yt_downloads" (row_of w u ty info)]
      (inl (mkError ("Failed to save metadata: " ++ message e)))
| done :
    storage_upload w "yt-downloads" (fileName_of w ty) buffer (contentType_of ty)
    = inr None ->
    db_insert w "yt_downloads" (row_of w u ty info) = inr None ->
    store info buffer
      [StorageUpload "yt-downloads" (fileName_of w ty) buffer (contentType_of ty);
       DbInsert "yt_downloads" (row_of w u ty info);
       IncrementStat "total_success";
       LogApiRequest (log_entry ip Yt.router 200 ua)]
      (inr (delivered w u ty info buffer)).

(** What the block did after the two lookups left the trace [tr], and
    how it ended. *)
Inductive run (tr : list effect) : list effect -> Error + response -> Prop :=
| unresolved e :
    Yt.Promise_all2 (Yt.downloadFromCobalt w u ty) (Yt.getVideoInfo w u) = (tr, inl e) ->
    run tr tr (inl e)
| media_throws d info e :
    Yt.Promise_all2 (Yt.downloadFromCobalt w u ty) (Yt.getVideoInfo w u)
    = (tr, inr (d, info)) ->
    fetch w (Yt.url d) (media_init ua) = inl e ->
    run tr (tr ++ [Fetch (Yt.url d) (media_init ua)]) (inl e)
| media_refused d info resp :
    Yt.Promise_all2 (Yt.downloadFromCobalt w u ty) (Yt.getVideoInfo w u)
    = (tr, inr (d, info)) ->
    fetch w (Yt.url d) (media_init ua) = inr resp ->
    ok resp = false ->
    run tr (tr ++ [Fetch (Yt.url d) (media_init ua)])
      (inl (mkError ("Failed to fetch media: " ++ string_of_Z (status resp))))
| body_throws d info resp e :
    Yt.Promise_all2 (Yt.downloadFromCobalt w u ty) (Yt.getVideoInfo w u)
    = (tr, inr (d, info)) ->
    fetch w (Yt.url d) (media_init ua) = inr resp ->
    ok resp = true ->
    arrayBuffer resp = inl e ->
    run tr (tr ++ [Fetch (Yt.url d) (media_init ua)]) (inl e)
| stored d info resp buffer tl out :
    Yt.Promise_all2 (Yt.downloadFromCobalt w u ty) (Yt.getVideoInfo w u)
    = (tr, inr (d, info)) ->
    fetch w (Yt.url d) (media_init ua) = inr resp ->
    ok resp = true ->
    arrayBuffer resp = inr buffer ->
    store info buffer tl out ->
    run tr (tr ++ Fetch (Yt.url d) (media_init ua) :: tl) out.
End Run.

End YtRun.

(* ===================================================================== *)
(** * The runs of the TikTok audio [try] block *)
(* ===================================================================== *)

Module TikTokMp3Run.

Definition fileName_of (w : World) : string := randomUUID w ++ ".mp3".

Definition media_init (ua : string) : jsval :=
  JObj [("headers", JObj [("User-Agent", JStr ua)])].

Definition row_of (w : World) (u : string) : jsval :=
  JObj [("id", JStr (randomUUID w));
        ("tiktok_url", JStr u);
        ("mp3_path", JStr (fileName_of w))].

Definition delivered (w : World) (u : string) (instant : bool) (buffer : bytes) : response :=
  if instant
  then NextResponse buffer 200
         [("Content-Type", "audio/mpeg");
          ("Content-Disposition",
           "inline; filename=" ++ dquote ++ "tiktok_" ++ randomUUID w ++ ".mp3" ++ dquote)]
  else prettyJson
         (JObj [("status", JBool true);
                ("result",
                 JObj [("id", JStr (randomUUID w));
                       ("tiktok_url", JStr u);
                       ("result_url", JStr (TikTokMp3.result_base ++ randomUUID w))])])
         None.

Section Run.
Variable w : World.
Variables u ua ip : string.
Variable instant : bool.

Definition closing : list effect :=
  [IncrementStat "total_success"; LogApiRequest (log_entry ip TikTokMp3.router 200 ua)].

(** Upload, metadata write and response, for the audio [buffer]. *)
Inductive store (buffer : bytes) : list effect -> Error + response -> Prop :=
| upload_throws e :
    storage_upload w "tiktok-mp3s" (fileName_of w) buffer "audio/mpeg" = inl e ->
    store buffer [StorageUpload "tiktok-mp3s" (fileName_of w) buffer "audio/mpeg"] (inl e)
| upload_refused e :
    storage_upload w "tiktok-mp3s" (fileName_of w) buffer "audio/mpeg" = inr (Some e) ->
    store buffer [StorageUpload "tiktok-mp3s" (fileName_of w) buffer "audio/mpeg"]
      (inl (mkError ("Failed to upload to storage: " ++ message e)))
| insert_throws e :
    storage_upload w "tiktok-mp3s" (fileName_of w) buffer "audio/mpeg" = inr None ->
    db_insert w "tiktok_mp3s" (row_of w u) = inl e ->
    store buffer
      [StorageUpload "tiktok-mp3s" (fileName_of w) buffer "audio/mpeg";
       DbInsert "tiktok_mp3s" (row_of w u)]
      (inl e)
| insert_refused e :
    storage_upload w "tiktok-mp3s" (fileName_of w) buffer "audio/mpeg" = inr None ->
    db_insert w "tiktok_mp3s" (row_of w u) = inr (Some e) ->
    store buffer
      (StorageUpload "tiktok-mp3s" (fileName_of w) buffer "audio/mpeg"
         :: DbInsert "tiktok_mp3s" (row_of w u)
         :: ConsoleError "DB Error:" :: closing)
      (inr (delivered w u instant buffer))
| done :
    storage_upload w "tiktok-mp3s" (fileName_of w) buffer "audio/mpeg" = inr None ->
    db_insert w "tiktok_mp3s" (row_of w u) = inr None ->
    store buffer
      (StorageUpload "tiktok-mp3s" (fileName_of w) buffer "audio/mpeg"
         :: DbInsert "tiktok_mp3s" (row_of w u) :: closing)
      (inr (delivered w u instant buffer)).

(** What the block did after provider resolution left the trace [tr]. *)
Inductive run (tr : list effect) : list effect -> Error + response -> Prop :=
| unresolved :
    TikTokMp3.resolve w u ua = (tr, inr None) ->
    run tr tr (inl (mkError TikTokMp3.all_failed))
| media_throws m e :
    TikTokMp3.resolve w u ua = (tr, inr (Some m)) ->
    fetch w m (media_init ua) = inl e ->
    run tr (tr ++ [Fetch m (media_init ua)]) (inl e)
| media_refused m resp :
    TikTokMp3.resolve w u ua = (tr, inr (Some m)) ->
    fetch w m (media_init ua) = inr resp ->
    ok resp = false ->
    run tr (tr ++ [Fetch m (media_init ua)])
      (inl (mkError "Failed to fetch music file from provider"))
| body_throws m resp e :
    TikTokMp3.resolve w u ua = (tr, inr (Some m)) ->
    fetch w m (media_init ua) = inr resp ->
    ok resp = true ->
    arrayBuffer resp = inl e ->
    run tr (tr ++ [Fetch m (media_init ua)]) (inl e)
| stored m resp buffer tl out :
    TikTokMp3.resolve w u ua = (tr, inr (Some m)) ->
    fetch w m (media_init ua) = inr resp ->
    ok resp = true ->
    arrayBuffer resp = inr buffer ->
    store buffer tl out ->
    run tr (tr ++ Fetch m (media_init ua) :: tl) out.
End Run.

End TikTokMp3Run.

(* ===================================================================== *)
(** * The runs of the TikTok video [try] block *)
(* ===================================================================== *)

Module TikTokMp4Run.

(** The options of the request to the extractor. *)
Definition tikwm_init (ua : string) : jsval :=
  JObj [("headers", JObj [("User-Agent", JStr ua); ("Accept", JStr "application/json")])].

(** What the extractor's record promises to the route. *)
Definition sound_record (d : TikTokMp4.TikTokData) : Prop :=
  truthy (TikTokMp4.videoUrl d) = true
  /\ truthy (TikTokMp4.title d) = true
  /\ truthy (TikTokMp4.author d) = true
  /\ (TikTokMp4.musicUrl d = JNull \/ truthy (TikTokMp4.musicUrl d) = true)
  /\ (TikTokMp4.thumbnailUrl d = JNull \/ truthy (TikTokMp4.thumbnailUrl d) = true).

(** The address of the requested leg, its storage key and its type. *)
Definition leg_url (ty : string) (d : TikTokMp4.TikTokData) : jsval :=
  if (ty =? "mp4")%string then TikTokMp4.videoUrl d else TikTokMp4.musicUrl d.

Definition key_of (w : World) (ty : string) : string :=
  randomUUID w ++ (if (ty =? "mp4")%string then ".mp4" else ".mp3").

Definition contentType_of (ty : string) : string :=
  if (ty =? "mp4")%string then "video/mp4" else "audio/mpeg".

Definition thumb_key (w : World) : string := randomUUID w ++ "_thumb.jpg".

Definition fetch_failure (ty : string) : string :=
  if (ty =? "mp4")%string then "Failed to fetch video file" else "Failed to fetch music file".

Definition upload_failure (ty : string) : string :=
  if (ty =? "mp4")%string
  then "Failed to upload video to storage: " else "Failed to upload music to storage: ".

Definition row_of (w : World) (u ty : string) (d : TikTokMp4.TikTokData)
           (thumbnailPath : option string) : jsval :=
  JObj [("id", JStr (randomUUID w));
        ("tiktok_url", JStr u);
        ("mp4_path", if (ty =? "mp4")%string then JStr (key_of w ty) else JNull);
        ("mp3_path", if (ty =? "mp4")%string then JNull else JStr (key_of w ty));
        ("thumbnail_path", of_nullable thumbnailPath);
        ("title", TikTokMp4.title d);
        ("author", TikTokMp4.author d);
        ("thumbnail_url", TikTokMp4.thumbnailUrl d)].

Definition delivered (w : World) (u ty : string) (autoShow : bool)
           (d : TikTokMp4.TikTokData) (buffer : bytes) : response :=
  if (ty =? "mp4")%string then
    if autoShow
    then NextResponse buffer 200
           [("Content-Type", "video/mp4");
            ("Content-Disposition",
             "inline; filename=" ++ dquote ++ "tiktok_" ++ randomUUID w ++ ".mp4" ++ dquote)]
    else prettyJson
           (JObj [("status", JBool true);
                  ("result",
                   JObj [("id", JStr (randomUUID w));
                         ("tiktok_url", JStr u);
                         ("title", TikTokMp4.title d);
                         ("author", TikTokMp4.author d);
                         ("thumbnail", TikTokMp4.thumbnailUrl d);
                         ("video_url",
                          get_opt (storage_getPublicUrl w "tiktok-downloads"
                                     (JStr (key_of w ty))) "publicUrl")])])
           None
  else prettyJson
         (JObj [("status", JBool true);
                ("result",
                 JObj [("id", JStr (randomUUID w));
                       ("tiktok_url", JStr u);
                       ("title", TikTokMp4.title d);
                       ("author", TikTokMp4.author d);
                       ("thumbnail", TikTokMp4.thumbnailUrl d);
                       ("type", JStr ty);
                       ("result_url", JStr (TikTokMp4.result_base ++ randomUUID w))])])
         None.

Section Run.
Variable w : World.
Variables u ty ua ip : string.
Variable autoShow : bool.
Variable d : TikTokMp4.TikTokData.

Definition closing : list effect :=
  [IncrementStat "total_success"; LogApiRequest (log_entry ip TikTokMp4.router 200 ua)].

(** The thumbnail mirror: what it did and the path it recorded. *)
Inductive thumb : list effect -> option string -> Prop :=
| no_thumbnail :
    truthy (TikTokMp4.thumbnailUrl d) = false ->
    thumb [] None
| thumb_fetch_throws e :
    truthy (TikTokMp4.thumbnailUrl d) = true ->
    fetch w (TikTokMp4.thumbnailUrl d) JUndefined = inl e ->
    thumb [Fetch (TikTokMp4.thumbnailUrl d) JUndefined;
           ConsoleError "Failed to upload thumbnail:"] None
| thumb_refused resp :
    truthy (TikTokMp4.thumbnailUrl d) = true ->
    fetch w (TikTokMp4.thumbnailUrl d) JUndefined = inr resp ->
    ok resp = false ->
    thumb [Fetch (TikTokMp4.thumbnailUrl d) JUndefined] None
| thumb_body_throws resp e :
    truthy (TikTokMp4.thumbnailUrl d) = true ->
    fetch w (TikTokMp4.thumbnailUrl d) JUndefined = inr resp ->
    ok resp = true ->
    arrayBuffer resp = inl e ->
    thumb [Fetch (TikTokMp4.thumbnailUrl d) JUndefined;
           ConsoleError "Failed to upload thumbnail:"] None
| thumb_upload_throws resp body e :
    truthy (TikTokMp4.thumbnailUrl d) = true ->
    fetch w (TikTokMp4.thumbnailUrl d) JUndefined = inr resp ->
    ok resp = true ->
    arrayBuffer resp = inr body ->
    storage_upload w "tiktok-downloads" (thumb_key w) body "image/jpeg" = inl e ->
    thumb [Fetch (TikTokMp4.thumbnailUrl d) JUndefined;
           StorageUpload "tiktok-downloads" (thumb_key w) body "image/jpeg";
           ConsoleError "Failed to upload thumbnail:"] None
| thumb_recorded resp body answer :
    truthy (TikTokMp4.thumbnailUrl d) = true ->
    fetch w (TikTokMp4.thumbnailUrl d) JUndefined = inr resp ->
    ok resp = true ->
    arrayBuffer resp = inr body ->
    storage_upload w "tiktok-downloads" (thumb_key w) body "image/jpeg" = inr answer ->
    thumb [Fetch (TikTokMp4.thumbnailUrl d) JUndefined;
           StorageUpload "tiktok-downloads" (thumb_key w) body "image/jpeg"]
      (Some (thumb_key w)).

(** The metadata write and the response. *)
Inductive finish (buffer : bytes) (thumbnailPath : option string)
  : list effect -> Error + response -> Prop :=
| insert_throws e :
    db_insert w "tiktok_downloads" (row_of w u ty d thumbnailPath) = inl e ->
    finish buffer thumbnailPath
      [DbInsert "tiktok_downloads" (row_of w u ty d thumbnailPath)] (inl e)
| insert_refused e :
    db_insert w "tiktok_downloads" (row_of w u ty d thumbnailPath) = inr (Some e) ->
    finish buffer thumbnailPath
      (DbInsert "tiktok_downloads" (row_of w u ty d thumbnailPath)
         :: ConsoleError "DB Error:" :: closing)
      (inr (delivered w u ty autoShow d buffer))
| done :
    db_insert w "tiktok_downloads" (row_of w u ty d thumbnailPath) = inr None ->
    finish buffer thumbnailPath
      (DbInsert "tiktok_downloads" (row_of w u ty d thumbnailPath) :: closing)
      (inr (delivered w u ty autoShow d buffer)).

(** Upload of the requested leg, then the thumbnail and the rest. *)
Inductive store (buffer : bytes) : list effect -> Error + response -> Prop :=
| upload_throws e :
    storage_upload w "tiktok-downloads" (key_of w ty) buffer (contentType_of ty) = inl e ->
    store buffer
      [StorageUpload "tiktok-downloads" (key_of w ty) buffer (contentType_of ty)] (inl e)
| upload_refused e :
    storage_upload w "tiktok-downloads" (key_of w ty) buffer (contentType_of ty)
    = inr (Some e) ->
    store buffer
      [StorageUpload "tiktok-downloads" (key_of w ty) buffer (contentType_of ty)]
      (inl (mkError (upload_failure ty ++ message e)))
| uploaded_then tt thumbnailPath tl out :
    storage_upload w "tiktok-downloads" (key_of w ty) buffer (contentType_of ty)
    = inr None ->
    thumb tt thumbnailPath ->
    finish buffer thumbnailPath tl out ->
    store buffer
      (StorageUpload "tiktok-downloads" (key_of w ty) buffer (contentType_of ty)
         :: tt ++ tl)
      out.

(** What the block did after provider resolution left the trace [tr]
    and the locals [d]. *)
Inductive run (tr : list effect) : list effect -> Error + response -> Prop :=
| guard_video :
    ty = "mp4" -> truthy (TikTokMp4.videoUrl d) = false ->
    run tr tr (inl (mkError TikTokMp4.no_video))
| guard_music :
    ty = "mp3" -> truthy (TikTokMp4.musicUrl d) = false ->
    run tr tr (inl (mkError TikTokMp4.no_music))
| media_throws e :
    truthy (leg_url ty d) = true ->
    fetch w (leg_url ty d) (TikTokMp4.ua_init ua) = inl e ->
    run tr (tr ++ [Fetch (leg_url ty d) (TikTokMp4.ua_init ua)]) (inl e)
| media_refused resp :
    truthy (leg_url ty d) = true ->
    fetch w (leg_url ty d) (TikTokMp4.ua_init ua) = inr resp ->
    ok resp = false ->
    run tr (tr ++ [Fetch (leg_url ty d) (TikTokMp4.ua_init ua)])
      (inl (mkError (fetch_failure ty)))
| body_throws resp e :
    truthy (leg_url ty d) = true ->
    fetch w (leg_url ty d) (TikTokMp4.ua_init ua) = inr resp ->
    ok resp = true ->
    arrayBuffer resp = inl e ->
    run tr (tr ++ [Fetch (leg_url ty d) (TikTokMp4.ua_init ua)]) (inl e)
| stored resp buffer tl out :
    truthy (leg_url ty d) = true ->
    fetch w (leg_url ty d) (TikTokMp4.ua_init ua) = inr resp ->
    ok resp = true ->
    arrayBuffer resp = inr buffer ->
    store buffer tl out ->
    run tr (tr ++ Fetch (leg_url ty d) (TikTokMp4.ua_init ua) :: tl) out.
End Run.

End TikTokMp4Run.

(* ===================================================================== *)
(** * Bookkeeping of a request *)
(* ===================================================================== *)

(** The counters and the request log after one request of a route whose
    hit counter is [hits]: a request turned away at validation leaves no
    mark at all; every other one is counted once as a hit and once as a
    success or as an error, and logged once under the status it was
    answered with. *)
Definition accounted (hits : string) (m : M response) : Prop :=
  (trace m = [] /\ exists r, answered m r /\ status_is r 400)
  \/ (stats (trace m) = [hits; "total_success"] /\ logged (trace m) = [JNum 200]
      /\ exists r, answered m r /\ is_success r = true)
  \/ (stats (trace m) = [hits; "total_errors"] /\ logged (trace m) = [JNum 500]
      /\ exists r, answered m r /\ status_is r 500).

(* ===================================================================== *)
(** * The image generator, piece by piece *)
(* ===================================================================== *)

Module ImagenRun.

Definition flux_url (prompt : string) : string :=
  "https://api.siputzx.my.id/api/ai/flux?prompt=" ++ encodeURIComponent prompt.

Definition flux_init (w : World) : jsval :=
  JObj [("method", JStr "GET");
        ("headers", JObj [("User-Agent", JStr (Imagen.getRandomBotUA w 0));
                          ("Accept", JStr "*/*")])].

Definition image_init (w : World) : jsval :=
  JObj [("headers", JObj [("User-Agent", JStr (Imagen.getRandomBotUA w 1));
                          ("Accept", JStr "image/*")])].

(** [jsonData.data || jsonData.result || jsonData.url || jsonData.image]. *)
Definition imageUrl_of (jsonData : jsval) : jsval :=
  js_or (js_or (js_or (get_opt jsonData "data") (get_opt jsonData "result"))
           (get_opt jsonData "url"))
    (get_opt jsonData "image").

Definition imagePath (w : World) : string :=
  "imagen-3.5-pro/" ++ randomBytes4_hex w ++ ".png".

Definition row_of (w : World) (prompt : string) : jsval :=
  JObj [("id", JStr (randomBytes4_hex w)); ("prompt", JStr prompt);
        ("image_path", JStr (imagePath w))].

Definition delivered (w : World) (body : bytes) : response :=
  NextResponse body 200
    [("Content-Type", "image/png");
     ("X-Result-URL", "/image/imagen-3.5-pro/result/" ++ randomBytes4_hex w)].

Definition default_message : string := "Terjadi kesalahan saat generate gambar".

(** The [User-Agent] header of the options of a request. *)
Definition user_agent_of (init : jsval) : jsval :=
  get_opt (get_opt init "headers") "User-Agent".

(** The generator answered [prompt] with the image [img]: directly, or
    through the address its JSON body names. *)
Definition generated (w : World) (prompt : string) (img : bytes) (t : list effect) : Prop :=
  exists res,
    fetch w (JStr (flux_url prompt)) (flux_init w) = inr res /\ ok res = true
    /\ ((includes (or_default (content_type res) EmptyString) "application/json" = false
         /\ includes (or_default (content_type res) EmptyString) "image" = true
         /\ arrayBuffer res = inr img
         /\ t = [Fetch (JStr (flux_url prompt)) (flux_init w)])
        \/ (includes (or_default (content_type res) EmptyString) "application/json" = true
            /\ exists jsonData imgRes,
                json res = inr jsonData
                /\ truthy (imageUrl_of jsonData) = true
                /\ fetch w (imageUrl_of jsonData) (image_init w) = inr imgRes
                /\ ok imgRes = true
                /\ arrayBuffer imgRes = inr img
                /\ t = [Fetch (JStr (flux_url prompt)) (flux_init w);
                        Fetch (imageUrl_of jsonData) (image_init w)])).

(** The three ways a request of the image route ends. *)
Definition turned_away (w : World) (req : NextRequest) : Prop :=
  Imagen.GET w req = ([], inr (errorRedirect 400 "Parameter 'prompt' is required")).

Definition went_through (w : World) (req : NextRequest) (prompt : string) : Prop :=
  exists img tg res watermark mark body,
    generated w prompt img tg
    /\ fetch w (JStr Imagen.watermarkUrl) JUndefined = inr res /\ ok res = true
    /\ arrayBuffer res = inr watermark
    /\ sharp_watermark w watermark = inr mark
    /\ sharp_composite w img mark = inr body
    /\ storage_upload w "ai-images" (imagePath w) body "image/png" = inr None
    /\ db_insert w "ai_images" (row_of w prompt) = inr None
    /\ answered (Imagen.GET w req) (delivered w body)
    /\ trace (Imagen.GET w req)
       = (IncrementStat "total_requests" :: tg
            ++ [Fetch (JStr Imagen.watermarkUrl) JUndefined;
                StorageUpload "ai-images" (imagePath w) body "image/png";
                DbInsert "ai_images" (row_of w prompt);
                IncrementStat "total_success";
                LogApiRequest
                  (log_entry (userIP_of req) Imagen.router 200
                     (or_default (headers_get req "user-agent") "browser"))])%list.

Definition failed (w : World) (req : NextRequest) (prompt : string) : Prop :=
  exists msg,
    answered (Imagen.GET w req) (errorRedirect 500 msg) /\ msg <> EmptyString
    /\ stats (trace (Imagen.GET w req)) = ["total_requests"; "total_errors"]
    /\ logged (trace (Imagen.GET w req)) = [JNum 500]
    /\ (inserted (trace (Imagen.GET w req)) = []
        \/ inserted (trace (Imagen.GET w req)) = [("ai_images", row_of w prompt)]
           /\ db_insert w "ai_images" (row_of w prompt) <> inr None).

End ImagenRun.

(* ===================================================================== *)
(** * Further worlds and requests *)
(* ===================================================================== *)

Module Scenes.

(** A relay that announces a tunnel and names no address. *)
Definition relay_bare : jsval := JObj [("status", JStr "tunnel")].

Definition bare_response : FetchResponse := Examples.json_response relay_bare.

(** The extractor lists a standard and a high-definition rendition. *)
Definition tikwm_hd : jsval :=
  JObj [("code", JNum 0);
        ("data", JObj [("play", JStr "https://cdn.example/v.mp4");
                       ("hdplay", JStr "https://cdn.example/v_hd.mp4");
                       ("music", JStr "https://cdn.example/a.mp3");
                       ("cover", JStr "https://cdn.example/c.jpg")])].

(** The extractor knows the music of a clip but lists no rendition. *)
Definition tikwm_music_only : jsval :=
  JObj [("code", JNum 0);
        ("data", JObj [("music", JStr "https://cdn.example/a.mp3")])].

Definition refused_response : FetchResponse :=
  {| ok := false; status := 403; content_type := None;
     json := inl (mkError "Unexpected token"); arrayBuffer := inr [] |}.

Definition image_response : FetchResponse :=
  {| ok := true; status := 200; content_type := Some "image/png";
     json := inl (mkError "Unexpected token"); arrayBuffer := inr Examples.some_bytes |}.

(** Every third party answers, media addresses under [blocked]
    excepted: the host refuses them.  The relays answer [relay], the
    extractor [tikwm], and the storage says [upload_error] to an upload
    of a thumbnail. *)
Definition world_of (tikwm relay : jsval) (blocked : string)
           (thumb_error : option Error) : World :=
  {| fetch := fun u _ =>
       if Examples.starts_with "https://www.tikwm.com/" u
       then inr (Examples.json_response tikwm)
       else if Examples.is_relay u then inr (Examples.json_response relay)
       else if Examples.starts_with "https://www.youtube.com/oembed" u
            then inr (Examples.json_response (JObj [("title", JStr "clip")]))
       else if Examples.starts_with blocked u then inr refused_response
       else if Examples.starts_with "https://api.siputzx.my.id/" u then inr image_response
       else inr Examples.media_response;
     storage_upload := fun _ _ _ ct =>
       if (ct =? "image/jpeg")%string then inr thumb_error else inr None;
     storage_getPublicUrl := Examples.public_url;
     db_insert := fun _ _ => inr None;
     db_select_single := fun _ id =>
       if (id =? "3f2a")%string then inr (Examples.stored_mp4_row, JNull)
       else inr (JNull, JObj [("code", JStr "PGRST116")]);
     randomUUID := "3f2a";
     randomBytes4_hex := "0a1b2c3d";
     random_index := fun k => (k + 5)%nat;
     sharp_watermark := fun b => inr b;
     sharp_composite := fun a b => inr (a ++ b)%list |}.

Definition w_bare : World := world_of Examples.tikwm_full relay_bare "https://none/" None.
Definition w_hd : World :=
  world_of tikwm_hd Examples.relay_tunnel "https://none/"
    (Some (mkError "quota exceeded")).
Definition w_music_only : World :=
  world_of tikwm_music_only Examples.relay_tunnel "https://none/" None.
Definition w_blocked : World :=
  world_of Examples.tikwm_full Examples.relay_tunnel "https://" None.

(** A media host that accepts the request and then drops the
    connection: the body cannot be read to its end. *)
Definition truncated_response : FetchResponse :=
  {| ok := true; status := 200; content_type := Some "video/mp4";
     json := inl (mkError "Unexpected token"); arrayBuffer := inl (mkError "terminated") |}.

(** The world [Examples.w_ok] with such media hosts. *)
Definition w_truncated : World :=
  {| fetch := fun u init =>
       if Examples.starts_with "https://cdn.example/" u
          || Examples.starts_with "https://relay.example/" u
       then inr truncated_response
       else fetch Examples.w_ok u init;
     storage_upload := storage_upload Examples.w_ok;
     storage_getPublicUrl := Examples.public_url;
     db_insert := db_insert Examples.w_ok;
     db_select_single := db_select_single Examples.w_ok;
     randomUUID := "3f2a";
     randomBytes4_hex := "0a1b2c3d";
     random_index := fun _ => 0%nat;
     sharp_watermark := fun b => inr b;
     sharp_composite := fun a _ => inr a |}.

(** The datastore is out of reach of the query layer, which reports
    it: no data, and an error that is not the one of an absent row. *)
Definition outage : jsval :=
  JObj [("code", JStr "08006"); ("message", JStr "connection to the database failed")].

Definition w_outage : World :=
  {| fetch := fetch Examples.w_ok;
     storage_upload := storage_upload Examples.w_ok;
     storage_getPublicUrl := Examples.public_url;
     db_insert := db_insert Examples.w_ok;
     db_select_single := fun _ _ => inr (JNull, outage);
     randomUUID := "3f2a";
     randomBytes4_hex := "0a1b2c3d";
     random_index := fun _ => 0%nat;
     sharp_watermark := fun b => inr b;
     sharp_composite := fun a _ => inr a |}.

(** A request of the YouTube route whose address holds no video
    identifier. *)
Definition req_youtube_no_id : NextRequest :=
  Examples.request [("youtube_url", "https://example.com/watch"); ("type", "mp3")].

Definition with_header (req : NextRequest) (name value : string) : NextRequest :=
  {| searchParams_get := searchParams_get req;
     headers_get := fun h => if (h =? name)%string then Some value else headers_get req h |}.

Definition req_image : NextRequest := Examples.request [("prompt", "a red fox")].

End Scenes.

(* ===================================================================== *)
(** * Rows and the objects they name *)
(* ===================================================================== *)

(** Every row handed to [insert] along the trace [t] names, under one
    of its two path fields, an object of [bucket] that was uploaded
    earlier in [t] and whose upload the storage acknowledged. *)
Definition backed_by_upload (w : World) (bucket : string) (t : list effect) : Prop :=
  forall table row,
    In (table, row) (inserted t) ->
    exists l1 l2 l3 key body ct,
      t = (l1 ++ StorageUpload bucket key body ct :: l2 ++ DbInsert table row :: l3)%list
      /\ storage_upload w bucket key body ct = inr None
      /\ (get_opt row "mp4_path" = JStr key \/ get_opt row "mp3_path" = JStr key).

(** The bytes of a response that delivers the media itself. *)
Definition body_of (r : response) : option bytes :=
  match r_payload r with
  | RawBytes b => Some b
  | _ => None
  end.

(** The bytes [b] were downloaded from a third party and stored in
    [bucket] along the trace [t]. *)
Definition relayed (w : World) (bucket : string) (t : list effect) (b : bytes) : Prop :=
  exists address init resp key ct,
    In (Fetch address init) t /\ fetch w address init = inr resp /\ ok resp = true
    /\ arrayBuffer resp = inr b
    /\ In (StorageUpload bucket key b ct) t
    /\ storage_upload w bucket key b ct = inr None.

(** Whatever bytes the handler [m] answers with were relayed through
    [bucket] along its trace. *)
Definition delivers_stored (w : World) (bucket : string) (m : M response) : Prop :=
  forall r b, answered m r -> body_of r = Some b -> relayed w bucket (trace m) b.

(** The handler answered the error envelope [msg] under status 500. *)
Definition fails_with (m : M response) (msg : string) : Prop :=
  answered m (prettyJson (error_envelope msg) (Some 500)).

(** Nothing was handed to the storage or to the datastore. *)
Definition nothing_stored (m : M response) : Prop :=
  uploaded (trace m) = [] /\ inserted (trace m) = [].

(** The [type] parameter of a request, as the routes pass it on. *)
Definition type_of (req : NextRequest) : string :=
  or_default (searchParams_get req "type") EmptyString.

(** What a request may leave behind: objects of [bucket] under the
    keys [keys] only, no more of them than there are keys, and at most
    one row, in [table]. *)
Definition footprint (bucket table : string) (keys : list string) (t : list effect)
  : Prop :=
  (forall b k, In (b, k) (uploaded t) -> b = bucket /\ In k keys)
  /\ (List.length (uploaded t) <= List.length keys)%nat
  /\ (forall tb row, In (tb, row) (inserted t) -> tb = table)
  /\ (List.length (inserted t) <= 1)%nat.

Module Lookup.

(** The lookup endpoint answered the descriptor [res]. *)
Definition describes (w : World) (id : string) (res : jsval) : Prop :=
  answered (YtResult.GET w id)
    (prettyJson (JObj [("status", JBool true); ("result", res)]) None).

(** The descriptor [res], read back from the row of a download of
    [u] as [ty] made in the world [w], in a world [w'] that holds that
    row. *)
Definition reads_back (w w' : World) (u ty : string) (res : jsval) : Prop :=
  get_opt res "id" = JStr (randomUUID w)
  /\ get_opt res "youtube_url" = JStr u
  /\ get_opt res "type" = JStr ty
  /\ get_opt res "mp3_url"
     = get_opt (storage_getPublicUrl w' "yt-downloads" (JStr (YtRun.fileName_of w ty)))
         "publicUrl".

(** The fields the download answered and the lookup answers alike. *)
Definition same_description (answer res : jsval) : Prop :=
  get_opt answer "id" = get_opt res "id"
  /\ get_opt answer "title" = get_opt res "title"
  /\ get_opt answer "author" = get_opt res "author"
  /\ get_opt answer "thumbnail" = get_opt res "thumbnail_url"
  /\ get_opt answer "type" = get_opt res "type".

End Lookup.

Module Holding.
(** The world [Examples.w_ok] once its datastore holds [row]. *)
Definition w_holding (row : jsval) : World :=
  {| fetch := fetch Examples.w_ok;
     storage_upload := storage_upload Examples.w_ok;
     storage_getPublicUrl := Examples.public_url;
     db_insert := db_insert Examples.w_ok;
     db_select_single := fun _ _ => inr (row, JNull);
     randomUUID := "77aa";
     randomBytes4_hex := "0a1b2c3d";
     random_index := fun _ => 0%nat;
     sharp_watermark := fun b => inr b;
     sharp_composite := fun a _ => inr a |}.
End Holding.

(* ===================================================================== *)
(** * The result page ([YTDownloaderResultPage]) *)
(* ===================================================================== *)

Module ResultPage.

(** The three pieces of state of the component. *)
Record state : Type := mkState { loading : bool; error : jsval; data : jsval }.

Definition initial : state := {| loading := true; error := JNull; data := JNull |}.

Definition setLoading (b : bool) (s : state) : state :=
  {| loading := b; error := error s; data := data s |}.
Definition setError (e : jsval) (s : state) : state :=
  {| loading := loading s; error := e; data := data s |}.
Definition setData (d : jsval) (s : state) : state :=
  {| loading := loading s; error := error s; data := d |}.

Definition address (id : string) : string := "/api/result/ytdownloader/" ++ id.

Section Page.
(** [fetch(address).then(res => res.json())]: the body read as JSON, or
    the rejection of either step. *)
Variable request : string -> Error + jsval.

(** The effect of the component, run to the end of its promise chain:
    the state it leaves and the addresses it requested. *)
Definition effect_of (id : string) (s : state) : state * list string :=
  if (id =? EmptyString)%string then (s, [])
  else
    let s' :=
      match request (address id) with
      | inl e => setError (JStr (message e)) s
      | inr res =>
          match get res "status" with
          | inl e => setError (JStr (message e)) s
          | inr st =>
              if truthy st then setData (get_opt res "result") s
              else setError (js_or (get_opt res "error") (JStr "Failed to load data")) s
          end
      end in
    (setLoading false s', [address id]).
End Page.

(** What the component renders. *)
Inductive view : Type :=
| Spinner
| Alert (msg : jsval)
| Card (thumbnail : option jsval) (title author src : jsval) (download : string)
| Blank.

Definition render (id : string) (s : state) : view :=
  if loading s then Spinner
  else if truthy (error s) then Alert (error s)
  else if truthy (data s) then
    Card (if truthy (get_opt (data s) "thumbnail_url")
          then Some (get_opt (data s) "thumbnail_url") else None)
      (get_opt (data s) "title") (get_opt (data s) "author")
      (js_or (get_opt (data s) "mp3_url") (JStr EmptyString))
      ("youtube_" ++ id ++ ".mp3")
  else Blank.

(** The page once its effect has run, from the initial state. *)
Definition shown (request : string -> Error + jsval) (id : string) : view :=
  render id (fst (effect_of request id initial)).

(** The transport, when the lookup endpoint of this application serves
    the request: the JSON body of its answer, whatever the status. *)
Definition served (w : World) (url : string) : Error + jsval :=
  match strip_prefix "/api/result/ytdownloader/" url with
  | Some id =>
      match outcome (YtResult.GET w id) with
      | inr r =>
          match r_payload r with
          | JsonBody v => inr v
          | _ => inl (mkError "Unexpected token")
          end
      | inl e => inl e
      end
  | None => inl (mkError "Not Found")
  end.

(** The card shown for the row [meta] whose file has the public
    address [publicUrl]. *)
Definition card_of (id : string) (meta publicUrl : jsval) : view :=
  Card (if truthy (get_opt meta "thumbnail_url")
        then Some (get_opt meta "thumbnail_url") else None)
    (get_opt meta "title") (get_opt meta "author")
    (js_or (get_opt publicUrl "publicUrl") (JStr EmptyString))
    ("youtube_" ++ id ++ ".mp3").

End ResultPage.

(** An upload whose key and content type agree: [id.mp3] as audio,
    [id.mp4] as video, the thumbnail as JPEG, [id] being the
    identifier of the request.  Other interactions are not concerned. *)
Definition well_typed (w : World) (e : effect) : Prop :=
  match e with
  | StorageUpload _ key _ contentType =>
      (key = randomUUID w ++ ".mp3" /\ contentType = "audio/mpeg")
      \/ (key = randomUUID w ++ ".mp4" /\ contentType = "video/mp4")
      \/ (key = randomUUID w ++ "_thumb.jpg" /\ contentType = "image/jpeg")
  | _ => True
  end.

Unset Implicit Arguments.

(* ===================================================================== *)
(** * Facts about the handler monad *)
(* ===================================================================== *)

Lemma bind_ret_l {A B} (a : A) (k : A -> M B) : bind (ret a) k = k a.
Proof. unfold bind, ret. destruct (k a). reflexivity. Qed.

Lemma trace_bind {A B} (m : M A) (k : A -> M B) :
  trace (bind m k) =
  match outcome m with
  | inl _ => trace m
  | inr a => (trace m ++ trace (k a))%list
  end.
Proof.
  destruct m as [t [e | a]]; simpl; [reflexivity |].
  destruct (k a); reflexivity.
Qed.

Lemma outcome_bind {A B} (m : M A) (k : A -> M B) :
  outcome (bind m k) =
  match outcome m with
  | inl e => inl e
  | inr a => outcome (k a)
  end.
Proof.
  destruct m as [t [e | a]]; simpl; [reflexivity |].
  destruct (k a); reflexivity.
Qed.

Lemma trace_try_catch {A} (m : M A) (h : Error -> M A) :
  trace (try_catch m h) =
  match outcome m with
  | inl e => (trace m ++ trace (h e))%list
  | inr _ => trace m
  end.
Proof.
  destruct m as [t [e | a]]; simpl; [| reflexivity].
  destruct (h e); reflexivity.
Qed.

Lemma outcome_try_catch {A} (m : M A) (h : Error -> M A) :
  outcome (try_catch m h) =
  match outcome m with
  | inl e => outcome (h e)
  | inr a => inr a
  end.
Proof.
  destruct m as [t [e | a]]; simpl; [| reflexivity].
  destruct (h e); reflexivity.
Qed.

(* ===================================================================== *)
(** * Video-identifier extraction *)
(* ===================================================================== *)

Module VideoIdFacts.
Import VideoId.

Lemma strip_prefix_app p s r : strip_prefix p s = Some r -> s = p ++ r.
Proof.
  revert s. induction p as [| a p IH]; intros s H; simpl in H.
  - now inversion H.
  - destruct s as [| b s]; [discriminate |].
    destruct (Ascii.eqb a b) eqn:E; [| discriminate].
    apply Ascii.eqb_eq in E. subst b. simpl. f_equal. now apply IH.
Qed.

Lemma strip_prefix_self p r : strip_prefix p (p ++ r) = Some r.
Proof.
  induction p as [| a p IH]; simpl; [reflexivity |].
  now rewrite Ascii.eqb_refl.
Qed.

Lemma all_id_chars_app a b :
  all_id_chars (a ++ b) = all_id_chars a && all_id_chars b.
Proof.
  induction a as [| c a IH]; simpl; [reflexivity |].
  now rewrite IH, andb_assoc.
Qed.

Lemma take_class_sound n s cap rest :
  take_class n s = Some (cap, rest) ->
  s = cap ++ rest /\ String.length cap = n /\ all_id_chars cap = true.
Proof.
  revert s cap rest. induction n as [| n IH]; intros s cap rest H; simpl in H.
  - inversion H; subst. auto.
  - destruct s as [| c s]; [discriminate |].
    destruct (isIdChar c) eqn:Ec; [| discriminate].
    destruct (take_class n s) as [[cap' rest'] |] eqn:Et; [| discriminate].
    inversion H; subst. destruct (IH _ _ _ Et) as (-> & Hl & Ha).
    simpl. rewrite Ec, Ha, Hl. auto.
Qed.

Lemma take_class_app id post :
  all_id_chars id = true ->
  take_class (String.length id) (id ++ post) = Some (id, post).
Proof.
  induction id as [| c id IH]; simpl; intros H; [reflexivity |].
  apply andb_true_iff in H as [Hc Hr]. now rewrite Hc, IH.
Qed.

Lemma take_class_valid id post :
  valid_id id -> take_class 11 (id ++ post) = Some (id, post).
Proof. intros [Hl Ha]. rewrite <- Hl. now apply take_class_app. Qed.

#[local] Arguments take_class : simpl never.

(** What a match of the alternation at one position means. *)
Lemma match_alternatives_sound alts s cap :
  match_alternatives alts s = Some cap ->
  exists p rest, In p alts /\ s = p ++ cap ++ rest /\ valid_id cap.
Proof.
  induction alts as [| q alts IH]; simpl; [discriminate |].
  destruct (strip_prefix q s) as [r |] eqn:Ep.
  - destruct (take_class 11 r) as [[c rest] |] eqn:Et.
    + intros H; inversion H; subst.
      apply strip_prefix_app in Ep. apply take_class_sound in Et as (-> & Hl & Ha).
      exists q, rest. repeat split; auto.
    + intros H. destruct (IH H) as (p & rest & Hin & Hs & Hv). eauto 6.
  - intros H. destruct (IH H) as (p & rest & Hin & Hs & Hv). eauto 6.
Qed.

Lemma match_alternatives_complete alts p id post :
  In p alts -> valid_id id ->
  exists cap, match_alternatives alts (p ++ id ++ post) = Some cap.
Proof.
  induction alts as [| q alts IH]; simpl; [tauto |].
  intros [-> | Hin] Hv.
  - rewrite strip_prefix_self, (take_class_valid _ post Hv). eauto.
  - destruct (strip_prefix q (p ++ id ++ post)) as [r |]; [| auto].
    destruct (take_class 11 r) as [[c rest] |]; eauto.
Qed.

Lemma search_sound alts s cap :
  search alts s = Some cap ->
  exists pre p rest, In p alts /\ s = pre ++ p ++ cap ++ rest /\ valid_id cap.
Proof.
  induction s as [| c s IH]; simpl.
  - destruct (match_alternatives alts EmptyString) eqn:E; [| discriminate].
    intros H; inversion H; subst.
    destruct (match_alternatives_sound _ _ _ E) as (p & rest & ? & ? & ?).
    exists EmptyString, p, rest. auto.
  - destruct (match_alternatives alts (String c s)) eqn:E.
    + intros H; inversion H; subst.
      destruct (match_alternatives_sound _ _ _ E) as (p & rest & ? & ? & ?).
      exists EmptyString, p, rest. auto.
    + intros H. destruct (IH H) as (pre & p & rest & ? & -> & ?).
      exists (String c pre), p, rest. auto.
Qed.

Lemma search_unfold alts s :
  search alts s =
  match match_alternatives alts s with
  | Some cap => Some cap
  | None => match s with EmptyString => None | String _ s' => search alts s' end
  end.
Proof. destruct s; reflexivity. Qed.

Lemma search_complete alts pre p id post :
  In p alts -> valid_id id ->
  exists cap, search alts (pre ++ p ++ id ++ post) = Some cap.
Proof.
  intros Hin Hv. induction pre as [| c pre IH].
  - rewrite search_unfold. simpl.
    destruct (match_alternatives_complete alts p _ post Hin Hv) as [cap ->]. eauto.
  - rewrite search_unfold.
    destruct (match_alternatives alts (String c pre ++ p ++ id ++ post)); [eauto |].
    exact IH.
Qed.

(** A string made of identifier characters holds none of the literal
    prefixes, each of which has a dot or a slash. *)
Lemma match_alternatives_id_chars alts s :
  Forall (fun p => all_id_chars p = false) alts ->
  all_id_chars s = true -> match_alternatives alts s = None.
Proof.
  intros Hf Hs. induction Hf as [| q alts Hq _ IH]; simpl; [reflexivity |].
  destruct (strip_prefix q s) as [r |] eqn:E; [| exact IH].
  apply strip_prefix_app in E. subst s.
  rewrite all_id_chars_app, Hq in Hs. discriminate.
Qed.

Lemma search_id_chars alts s :
  Forall (fun p => all_id_chars p = false) alts ->
  all_id_chars s = true -> search alts s = None.
Proof.
  intros Hf. induction s as [| c s IH]; intros Hs; rewrite search_unfold.
  - now rewrite (match_alternatives_id_chars _ _ Hf Hs).
  - rewrite (match_alternatives_id_chars _ _ Hf Hs).
    simpl in Hs. apply andb_true_iff in Hs as [_ Hs]. auto.
Qed.

Lemma shapes_not_id_chars : Forall (fun p => all_id_chars p = false) shapes.
Proof. repeat constructor. Qed.

Lemma search_shapes_exact pre p id post :
  no_y pre = true -> In p shapes -> valid_id id ->
  search shapes (pre ++ p ++ id ++ post) = Some id.
Proof.
  intros Hy Hin Hv. induction pre as [| c pre IH].
  - change (EmptyString ++ p ++ id ++ post) with (p ++ id ++ post).
    assert (E : match_alternatives shapes (p ++ id ++ post) = Some id).
    { unfold shapes in *. simpl in Hin.
      destruct Hin as [<- | [<- | [<- | [<- | [<- | []]]]]]; simpl;
        now rewrite (take_class_valid _ post Hv). }
    rewrite search_unfold, E. reflexivity.
  - change (String c pre ++ p ++ id ++ post) with (String c (pre ++ p ++ id ++ post)).
    simpl in Hy. apply andb_true_iff in Hy as [Hc Hy].
    apply negb_true_iff in Hc.
    assert (E : match_alternatives shapes (String c (pre ++ p ++ id ++ post)) = None).
    { unfold shapes. simpl. now rewrite Hc. }
    rewrite search_unfold, E. auto.
Qed.

Lemma first_match_spec url ps :
  match first_match url ps with
  | Some id =>
      exists n p, nth_error ps n = Some p /\ str_match url p = Some id
                  /\ forall m q, (m < n)%nat -> nth_error ps m = Some q ->
                                 str_match url q = None
  | None => forall p, In p ps -> str_match url p = None
  end.
Proof.
  induction ps as [| p ps IH]; simpl.
  - tauto.
  - destruct (str_match url p) as [id |] eqn:E.
    + exists 0%nat, p. repeat split; auto. intros m q Hm. lia.
    + destruct (first_match url ps) as [id |].
      * destruct IH as (n & q & Hn & Hq & Hprev).
        exists (S n), q. repeat split; auto.
        intros [| m] q' Hm Hq'; simpl in Hq'.
        -- now inversion Hq'; subst.
        -- apply (Hprev m); auto. lia.
      * intros q [<- | Hin]; auto.
Qed.

Lemma str_match_valid url p id : In p patterns -> str_match url p = Some id -> valid_id id.
Proof.
  unfold patterns. intros [<- | [<- | []]]; cbn [str_match].
  - intros H. apply search_sound in H as (_ & _ & _ & _ & _ & Hv). exact Hv.
  - destruct (take_class 11 url) as [[cap rest] |] eqn:E; [| discriminate].
    destruct rest; [| discriminate]. intros H; inversion H; subst.
    apply take_class_sound in E as (_ & Hl & Ha). now split.
Qed.

Lemma extractVideoId_valid url id : extractVideoId url = Some id -> valid_id id.
Proof.
  unfold extractVideoId. intros H.
  pose proof (first_match_spec url patterns) as S. rewrite H in S.
  destruct S as (n & p & Hn & Hp & _).
  eapply str_match_valid; eauto. eapply nth_error_In; eauto.
Qed.

Lemma extractVideoId_shape pre p id post :
  In p shapes -> valid_id id ->
  exists id', extractVideoId (pre ++ p ++ id ++ post) = Some id'.
Proof.
  intros Hin Hv. unfold extractVideoId, patterns. cbn [first_match str_match].
  destruct (search_complete shapes pre p _ post Hin Hv) as [cap E].
  rewrite E. eauto.
Qed.

Lemma extractVideoId_shape_exact pre p id post :
  no_y pre = true -> In p shapes -> valid_id id ->
  extractVideoId (pre ++ p ++ id ++ post) = Some id.
Proof.
  intros Hy Hin Hv. unfold extractVideoId, patterns. cbn [first_match str_match].
  now rewrite (search_shapes_exact pre p _ post Hy Hin Hv).
Qed.

Lemma app_empty_r s : s ++ EmptyString = s.
Proof. induction s as [| c s IH]; simpl; [reflexivity | now rewrite IH]. Qed.

Lemma extractVideoId_bare id : valid_id id -> extractVideoId id = Some id.
Proof.
  intros Hv. unfold extractVideoId, patterns. cbn [first_match str_match].
  rewrite (search_id_chars _ _ shapes_not_id_chars (proj2 Hv)).
  pose proof (take_class_valid _ EmptyString Hv) as T.
  rewrite app_empty_r in T. now rewrite T.
Qed.

End VideoIdFacts.

(* ===================================================================== *)
(** * Traces: general facts and the case-analysis tactic *)
(* ===================================================================== *)

Lemma no_storage_write_app t1 t2 :
  no_storage_write (t1 ++ t2) <-> no_storage_write t1 /\ no_storage_write t2.
Proof. unfold no_storage_write. rewrite existsb_app. apply orb_false_iff. Qed.

Lemma no_storage_write_cons e t :
  is_storage_write e = false -> no_storage_write t -> no_storage_write (e :: t).
Proof. unfold no_storage_write. cbn. now intros -> ->. Qed.

Lemma no_storage_write_inserted t : no_storage_write t -> inserted t = [].
Proof.
  unfold no_storage_write. induction t as [| e t IH]; simpl; [reflexivity |].
  intros H. apply orb_false_iff in H as [He Ht]. destruct e; try discriminate; auto.
Qed.

Lemma no_storage_write_uploaded t : no_storage_write t -> uploaded t = [].
Proof.
  unfold no_storage_write. induction t as [| e t IH]; simpl; [reflexivity |].
  intros H. apply orb_false_iff in H as [He Ht]. destruct e; try discriminate; auto.
Qed.

Lemma fetched_app t1 t2 : fetched (t1 ++ t2) = (fetched t1 ++ fetched t2)%list.
Proof.
  induction t1 as [| e t1 IH]; simpl; [reflexivity |].
  destruct e; simpl; now rewrite ?IH.
Qed.

Lemma uploaded_app t1 t2 : uploaded (t1 ++ t2) = (uploaded t1 ++ uploaded t2)%list.
Proof.
  induction t1 as [| e t1 IH]; simpl; [reflexivity |].
  destruct e; simpl; now rewrite ?IH.
Qed.

Lemma inserted_app t1 t2 : inserted (t1 ++ t2) = (inserted t1 ++ inserted t2)%list.
Proof.
  induction t1 as [| e t1 IH]; simpl; [reflexivity |].
  destruct e; simpl; now rewrite ?IH.
Qed.

(** Reads [inserted] and [uploaded] off a trace that starts with a
    quiet prefix. *)
Ltac read_trace Hn :=
  rewrite ?inserted_app, ?uploaded_app,
    ?(no_storage_write_inserted _ Hn), ?(no_storage_write_uploaded _ Hn); cbn.

Lemma falsy_str_some u : u <> EmptyString -> falsy_str (Some u) = false.
Proof. unfold falsy_str. intros H. now apply String.eqb_neq. Qed.

Lemma first_success_all_none {A} (answer : string -> option A) providers :
(forall p, In p providers -> answer p = None) ->
first_success answer providers = (providers, None).
Proof.
induction providers as [| p ps IH]; intros H; cbn; [reflexivity |].
rewrite (H p (or_introl eq_refl)), IH; auto. intros q Hq. apply H. now right.
Qed.

(** The fallback chain, stated on its own. *)
Section FirstSuccess.
Context {A : Type} (answer : string -> option A).

Lemma first_success_prefix providers :
  exists rest, providers = (fst (first_success answer providers) ++ rest)%list.
Proof.
  induction providers as [| p ps [rest IH]]; simpl.
  - now exists [].
  - destruct (answer p).
    + now exists ps.
    + destruct (first_success answer ps) as [tried r]. simpl in *.
      exists rest. now rewrite <- IH.
Qed.

Lemma first_success_none providers :
  snd (first_success answer providers) = None <->
  fst (first_success answer providers) = providers
  /\ forall p, In p providers -> answer p = None.
Proof.
  induction providers as [| p ps IH]; simpl.
  - intuition.
  - destruct (answer p) eqn:E; simpl.
    + split; [discriminate |]. intros [_ H]. specialize (H p (or_introl eq_refl)).
      congruence.
    + destruct (first_success answer ps) as [tried r]. simpl in *.
      split.
      * intros H. apply IH in H as [-> Hall]. split; [reflexivity |].
        intros q [<- | Hq]; auto.
      * intros [Heq Hall]. apply IH. split; [congruence | auto].
Qed.

Lemma first_success_some providers a :
  snd (first_success answer providers) = Some a ->
  exists before p,
    fst (first_success answer providers) = (before ++ [p])%list
    /\ answer p = Some a
    /\ forall q, In q before -> answer q = None.
Proof.
  induction providers as [| p ps IH]; simpl; [discriminate |].
  destruct (answer p) eqn:E; simpl.
  - intros H; inversion H; subst. exists [], p. simpl. intuition.
  - destruct (first_success answer ps) as [tried r]. simpl in *.
    intros H. destruct (IH H) as (before & q & -> & Hq & Hb).
    exists (p :: before), q. simpl. repeat split; auto.
    intros q' [<- | Hin]; auto.
Qed.
End FirstSuccess.

#[local] Arguments get : simpl never.
#[local] Arguments get_opt : simpl never.
#[local] Arguments truthy : simpl never.
#[local] Arguments js_or : simpl never.
#[local] Arguments js_eq_str : simpl never.
#[local] Arguments js_neq_zero : simpl never.
#[local] Arguments String.append : simpl never.
#[local] Arguments string_of_Z : simpl never.
#[local] Arguments encodeURIComponent : simpl never.
#[local] Arguments VideoId.extractVideoId : simpl never.
#[local] Arguments falsy_str : simpl never.
#[local] Arguments or_default : simpl never.
#[local] Arguments userIP_of : simpl never.

(* ===================================================================== *)
(** * The YouTube route: provider resolution *)
(* ===================================================================== *)

Module YtFacts.
Import Yt.

Section WithWorld.
Variable w : World.

(** One turn of the relay loop asks its instance once, never throws
    and writes nothing. *)
Lemma yt_try_instance_shape i u ty :
  exists r tl,
    try_instance w i u ty = (Fetch (JStr i) (cobalt_init u ty) :: tl, inr r)
    /\ fetched tl = [] /\ no_storage_write tl.
Proof.
  unfold try_instance, no_storage_write. unfold_monad.
  run; eexists _, _; repeat split; reflexivity.
Qed.

Lemma provider_answer_shape i u ty :
  exists tl,
    try_instance w i u ty
    = (Fetch (JStr i) (cobalt_init u ty) :: tl, inr (YtSpec.provider_answer w u ty i))
    /\ fetched tl = [] /\ no_storage_write tl.
Proof.
  destruct (yt_try_instance_shape i u ty) as (r & tl & E & Hf & Hn).
  exists tl. unfold YtSpec.provider_answer, yielded. rewrite E. auto.
Qed.

(** The relay loop is the fallback chain over its instances. *)
Lemma download_loop_spec instances u ty :
  fetched (trace (download_loop w instances u ty))
  = map JStr (fst (first_success (YtSpec.provider_answer w u ty) instances))
  /\ no_storage_write (trace (download_loop w instances u ty))
  /\ outcome (download_loop w instances u ty)
     = match snd (first_success (YtSpec.provider_answer w u ty) instances) with
       | Some d => inr d
       | None => inl (mkError unavailable)
       end.
Proof.
  induction instances as [| i rest (IHf & IHn & IHo)].
  - repeat split.
  - cbn [download_loop first_success].
    destruct (provider_answer_shape i u ty) as (tl & E & Hf & Hn).
    rewrite trace_bind, outcome_bind, E. unfold outcome, trace. cbn [fst snd].
    destruct (YtSpec.provider_answer w u ty i) as [d |].
    + cbn. rewrite app_nil_r. rewrite Hf. repeat split. exact Hn.
    + destruct (first_success (YtSpec.provider_answer w u ty) rest) as [tried r] eqn:Efs.
      cbn [fst snd] in *. repeat split.
      * change (Fetch (JStr i) (cobalt_init u ty) :: tl)
          with ([Fetch (JStr i) (cobalt_init u ty)] ++ tl)%list.
        rewrite !fetched_app, Hf. cbn. f_equal. exact IHf.
      * apply no_storage_write_app. split; [exact Hn | exact IHn].
      * exact IHo.
Qed.

(** Every provider failed: the loop has asked each instance, in order,
    and throws. *)
Lemma downloadFromCobalt_exhausted u ty :
  YtSpec.providers_fail w u ty ->
  outcome (downloadFromCobalt w u ty) = inl (mkError unavailable)
  /\ fetched (trace (downloadFromCobalt w u ty)) = map JStr cobalt_instances
  /\ no_storage_write (trace (downloadFromCobalt w u ty)).
Proof.
  intros Hfail. unfold downloadFromCobalt.
  destruct (download_loop_spec cobalt_instances u ty) as (Hf & Hn & Ho).
  assert (N : snd (first_success (YtSpec.provider_answer w u ty) cobalt_instances) = None).
  { apply first_success_none. split; [| exact Hfail].
    unfold cobalt_instances in *. cbn [first_success].
    rewrite !Hfail by (simpl; auto). reflexivity. }
  apply first_success_none in N as N'. destruct N' as [Hall _].
  rewrite N in Ho. rewrite Hall in Hf. auto.
Qed.

(** The loop throws only when every provider has failed. *)
Lemma downloadFromCobalt_throws u ty e :
  outcome (downloadFromCobalt w u ty) = inl e ->
  e = mkError unavailable
  /\ YtSpec.providers_fail w u ty
  /\ fetched (trace (downloadFromCobalt w u ty)) = map JStr cobalt_instances.
Proof.
  unfold downloadFromCobalt. intros H.
  destruct (download_loop_spec cobalt_instances u ty) as (Hf & Hn & Ho).
  rewrite Ho in H.
  destruct (snd (first_success (YtSpec.provider_answer w u ty) cobalt_instances)) eqn:N;
    [discriminate |].
  apply first_success_none in N as [Hall Hnone].
  rewrite Hall in Hf. inversion H. auto.
Qed.

(** A result comes from the first instance that yields one; the
    instances after it are not asked. *)
Lemma downloadFromCobalt_returns u ty d :
  outcome (downloadFromCobalt w u ty) = inr d ->
  exists before i after,
    cobalt_instances = (before ++ i :: after)%list
    /\ (forall j, In j before -> YtSpec.provider_answer w u ty j = None)
    /\ YtSpec.provider_answer w u ty i = Some d
    /\ fetched (trace (downloadFromCobalt w u ty)) = map JStr (before ++ [i]).
Proof.
  unfold downloadFromCobalt. intros H.
  destruct (download_loop_spec cobalt_instances u ty) as (Hf & Hn & Ho).
  rewrite Ho in H.
  destruct (snd (first_success (YtSpec.provider_answer w u ty) cobalt_instances)) eqn:N;
    [| discriminate].
  inversion H; subst.
  destruct (first_success_some _ _ _ N) as (before & i & Hfst & Hi & Hb).
  destruct (first_success_prefix (YtSpec.provider_answer w u ty) cobalt_instances)
    as [after Hpre].
  rewrite Hfst in Hpre, Hf. rewrite <- app_assoc in Hpre.
  exists before, i, after. auto.
Qed.

(** Metadata enrichment: the guard, and the result behind it. *)
Lemma getVideoInfo_invalid u :
  VideoId.extractVideoId u = None ->
  getVideoInfo w u = ([], inl (mkError "Invalid YouTube URL")).
Proof. intros H. unfold getVideoInfo. now rewrite H. Qed.

Lemma js_or_truthy a b : truthy b = true -> truthy (js_or a b) = true.
Proof. unfold js_or. destruct (truthy a) eqn:E; auto. Qed.

Lemma getVideoInfo_valid u videoId :
  VideoId.extractVideoId u = Some videoId ->
  exists info tl,
    getVideoInfo w u = (Fetch (JStr (oembed_url videoId)) JUndefined :: tl, inr info)
    /\ fetched tl = [] /\ no_storage_write tl
    /\ thumbnail info = thumbnail_of videoId
    /\ YtSpec.usable info
    /\ (YtSpec.embed_info_fails w videoId -> info = placeholder videoId).
Proof.
  intros H. unfold getVideoInfo, YtSpec.embed_info_fails, YtSpec.usable, no_storage_write.
  rewrite H. unfold_monad.
  run; eexists _, _; (split; [reflexivity |]); cbn;
    repeat split; auto using js_or_truthy; try tauto;
    try (intros [? | [? | ?]]; subst; unfold get in *; congruence);
    try (intros [? | ?]; subst; unfold get in *; congruence).
Qed.

(** The two concurrent lookups, joined. *)
Lemma resolution_shape u ty videoId :
  VideoId.extractVideoId u = Some videoId ->
  exists tr o,
    Promise_all2 (downloadFromCobalt w u ty) (getVideoInfo w u) = (tr, o)
    /\ no_storage_write tr
    /\ (YtSpec.providers_fail w u ty <-> o = inl (mkError unavailable))
    /\ (forall e, o = inl e -> e = mkError unavailable)
    /\ (forall d info, o = inr (d, info) ->
          thumbnail info = thumbnail_of videoId /\ YtSpec.usable info).
Proof.
  intros Hid.
  destruct (getVideoInfo_valid u videoId Hid) as (info & tl & E & Hf & Hn & Hth & Hus & _).
  pose proof (downloadFromCobalt_exhausted u ty) as Hex.
  pose proof (downloadFromCobalt_throws u ty) as Hthr.
  assert (Hq : no_storage_write (trace (downloadFromCobalt w u ty)))
    by apply (download_loop_spec cobalt_instances u ty).
  unfold Promise_all2. rewrite E.
  destruct (downloadFromCobalt w u ty) as [ta oa].
  unfold trace, outcome in *. cbn [fst snd] in *.
  eexists _, _. split; [reflexivity |]. split; [| split; [| split]].
  - apply no_storage_write_app. auto.
  - split.
    + intros Hfail. destruct (Hex Hfail) as (-> & _). reflexivity.
    + destruct oa as [e | d]; [| discriminate].
      intros _. apply (Hthr e eq_refl).
  - intros e. destruct oa as [e' | d]; [| discriminate].
    intros X; inversion X; subst. apply (Hthr e eq_refl).
  - intros d info'. destruct oa; [discriminate |].
    intros X; inversion X; subst. auto.
Qed.

(** A request that carries its parameters runs the [try] block; what
    the block throws becomes the 500 envelope. *)
Lemma yt_GET_run req u ty :
  YtSpec.well_formed req u ty ->
  let p := process w u ty (realUA_of req) (userIP_of req) in
  trace (GET w req)
  = (IncrementStat "total_hits" :: trace p
       ++ match outcome p with inl e => fst (YtSpec.on_error req e) | inr _ => [] end)%list
  /\ outcome (GET w req)
     = inr (match outcome p with inl e => snd (YtSpec.on_error req e) | inr r => r end).
Proof.
  intros (Hu & Hne & Hty & Hmp & Hid). unfold GET.
  rewrite Hu, Hty, (falsy_str_some u Hne).
  assert (Ety : falsy_str (Some ty) = false)
    by (apply falsy_str_some; destruct Hmp; subst; discriminate).
  rewrite Ety.
  assert (Eu : or_default (Some u) EmptyString = u).
  { unfold or_default. apply String.eqb_neq in Hne. now rewrite Hne. }
  assert (Et : or_default (Some ty) EmptyString = ty).
  { unfold or_default. destruct Hmp; subst; reflexivity. }
  rewrite Eu, Et.
  assert (Eb : (negb (ty =? "mp3")%string && negb (ty =? "mp4")%string) = false)
    by (destruct Hmp; subst; reflexivity).
  rewrite Eb. cbn [orb].
  destruct (VideoId.extractVideoId u); [| congruence].
  cbv zeta.
  generalize (process w u ty (realUA_of req) (userIP_of req)).
  intros [tp [e | r]]; unfold_monad; cbn; rewrite ?app_nil_r; auto.
Qed.

(** The [try] block, once the request is known to be well formed:
    either it stops before the metadata write, having thrown, or it
    has uploaded one object and handed one row to [insert], and the
    answer of the datastore decides how it ends. *)
Lemma yt_process_delivery u ty videoId ua ip :
  VideoId.extractVideoId u = Some videoId ->
  ty = "mp3" \/ ty = "mp4" ->
  let p := process w u ty ua ip in
  let fileName := randomUUID w ++ "." ++ ty in
  (inserted (trace p) = [] /\ exists e, outcome p = inl e)
  \/ (exists row,
        inserted (trace p) = [("yt_downloads", row)]
        /\ uploaded (trace p) = [("yt-downloads", fileName)]
        /\ get_opt row "mp4_path" = (if (ty =? "mp4")%string then JStr fileName else JNull)
        /\ get_opt row "mp3_path" = (if (ty =? "mp3")%string then JStr fileName else JNull)
        /\ match db_insert w "yt_downloads" row with
           | inl e => outcome p = inl e
           | inr (Some e) =>
               outcome p = inl (mkError ("Failed to save metadata: " ++ message e))
           | inr None =>
               exists r, outcome p = inr r /\ is_success r = true
                 /\ (ty = "mp4" -> is_inline_bytes r = true)
                 /\ (ty = "mp3" -> has_result_url result_base r = true)
           end).
Proof.
  intros Hid Hty p fileName. subst p fileName.
  destruct (resolution_shape u ty videoId Hid) as (tr & o & E & Hn & _ & _ & _).
  unfold process. rewrite E. clear E.
  destruct o as [e | [d info]].
  { left. cbn. split; [now apply no_storage_write_inserted | eauto]. }
  destruct Hty; subst ty; unfold_monad; cbn [String.eqb Ascii.eqb Bool.eqb];
    run;
    first
      [ left; split; [ now (read_trace Hn) | eauto ]
      | right; eexists; split; [ read_trace Hn; reflexivity |];
        split; [ read_trace Hn; reflexivity |];
        split; [ reflexivity |]; split; [ reflexivity |];
        match goal with
        | H : db_insert _ _ _ = _ |- _ => rewrite H
        end;
        first [ reflexivity
              | eexists; split; [reflexivity |]; split; [reflexivity |];
                split; intros; try discriminate;
                unfold is_inline_bytes, has_result_url; cbn;
                now rewrite ?VideoIdFacts.strip_prefix_self ] ].
Qed.

(** Every provider failed: the [try] block throws what the relay loop
    throws, having written nothing. *)
Lemma yt_process_exhausted u ty videoId ua ip :
  VideoId.extractVideoId u = Some videoId ->
  YtSpec.providers_fail w u ty ->
  outcome (process w u ty ua ip) = inl (mkError unavailable)
  /\ no_storage_write (trace (process w u ty ua ip)).
Proof.
  intros Hid Hfail.
  destruct (resolution_shape u ty videoId Hid) as (tr & o & E & Hn & Ho & _).
  apply Ho in Hfail. subst o. unfold process. rewrite E. cbn. auto.
Qed.

(** What the whole handler leaves in the trace and answers, read off
    the [try] block. *)
Lemma yt_GET_inserted req u ty :
  YtSpec.well_formed req u ty ->
  inserted (trace (GET w req)) = inserted (trace (process w u ty (realUA_of req) (userIP_of req))).
Proof.
  intros Hwf. destruct (yt_GET_run req u ty Hwf) as (Ht & _). cbv zeta in Ht.
  rewrite Ht. cbn [inserted]. rewrite inserted_app.
  destruct (outcome (process w u ty (realUA_of req) (userIP_of req))); cbn; now rewrite app_nil_r.
Qed.

Lemma yt_GET_success req u ty r :
  YtSpec.well_formed req u ty ->
  answered (GET w req) r -> is_success r = true ->
  outcome (process w u ty (realUA_of req) (userIP_of req)) = inr r.
Proof.
  intros Hwf Ha Hs. destruct (yt_GET_run req u ty Hwf) as (_ & Ho). cbv zeta in Ho.
  unfold answered in Ha. rewrite Ho in Ha.
  destruct (outcome (process w u ty (realUA_of req) (userIP_of req))) as [e | r'].
  - inversion Ha; subst. discriminate.
  - now inversion Ha.
Qed.

Lemma yt_GET_failure req u ty e :
  YtSpec.well_formed req u ty ->
  outcome (process w u ty (realUA_of req) (userIP_of req)) = inl e ->
  answered (GET w req) (prettyJson (error_envelope (message e)) (Some 500)).
Proof.
  intros Hwf He. destruct (yt_GET_run req u ty Hwf) as (_ & Ho). cbv zeta in Ho.
  unfold answered. now rewrite Ho, He.
Qed.

Lemma yt_GET_returns req u ty r :
  YtSpec.well_formed req u ty ->
  outcome (process w u ty (realUA_of req) (userIP_of req)) = inr r ->
  answered (GET w req) r.
Proof.
  intros Hwf He. destruct (yt_GET_run req u ty Hwf) as (_ & Ho). cbv zeta in Ho.
  unfold answered. now rewrite Ho, He.
Qed.

Lemma yt_GET_trace_incl req u ty x :
  YtSpec.well_formed req u ty ->
  In x (trace (process w u ty (realUA_of req) (userIP_of req))) -> In x (trace (GET w req)).
Proof.
  intros Hwf Hx. destruct (yt_GET_run req u ty Hwf) as (Ht & _). cbv zeta in Ht.
  rewrite Ht. right. apply in_or_app. now left.
Qed.
End WithWorld.
End YtFacts.
(* ===================================================================== *)
(** * The TikTok audio route *)
(* ===================================================================== *)

Module TikTokMp3Facts.
Import TikTokMp3.

Section WithWorld.
Variable w : World.

Lemma mp3_tryTikwm_shape u ua :
  exists init tl,
    tryTikwm w u ua
    = (Fetch (JStr (tikwm_url u)) init :: tl, inr (TikTokMp3Spec.tikwm_answer w u ua))
    /\ fetched tl = [] /\ no_storage_write tl.
Proof.
  unfold TikTokMp3Spec.tikwm_answer, yielded, tryTikwm, no_storage_write. unfold_monad.
  run; eexists _, _; repeat split; reflexivity.
Qed.

Lemma mp3_try_instance_shape i u :
  exists tl,
    try_instance w i u
    = (Fetch (JStr i) (cobalt_init u) :: tl, inr (TikTokMp3Spec.relay_answer w u i))
    /\ fetched tl = [] /\ no_storage_write tl.
Proof.
  unfold TikTokMp3Spec.relay_answer, yielded, try_instance, no_storage_write. unfold_monad.
  run; eexists; repeat split; reflexivity.
Qed.

Lemma mp3_cobalt_loop_spec instances u :
  fetched (trace (cobalt_loop w instances u))
  = map JStr (fst (first_success (TikTokMp3Spec.relay_answer w u) instances))
  /\ no_storage_write (trace (cobalt_loop w instances u))
  /\ outcome (cobalt_loop w instances u)
     = inr (snd (first_success (TikTokMp3Spec.relay_answer w u) instances)).
Proof.
  induction instances as [| i rest (IHf & IHn & IHo)].
  - repeat split.
  - cbn [cobalt_loop first_success].
    destruct (mp3_try_instance_shape i u) as (tl & E & Hf & Hn).
    rewrite trace_bind, outcome_bind, E. unfold outcome, trace. cbn [fst snd].
    destruct (TikTokMp3Spec.relay_answer w u i) as [d |].
    + cbn. rewrite app_nil_r, Hf. repeat split. exact Hn.
    + destruct (first_success (TikTokMp3Spec.relay_answer w u) rest) as [tried r].
      cbn [fst snd] in *. repeat split.
      * change (Fetch (JStr i) (cobalt_init u) :: tl)
          with ([Fetch (JStr i) (cobalt_init u)] ++ tl)%list.
        rewrite !fetched_app, Hf. cbn. f_equal. exact IHf.
      * apply no_storage_write_app. split; [exact Hn | exact IHn].
      * exact IHo.
Qed.

(** Provider resolution is the fallback chain: the extractor first,
    then each relay mirror, stopping at the first answer. *)
Lemma mp3_resolve_spec u ua :
  let chain := first_success (TikTokMp3Spec.relay_answer w u) cobalt_instances in
  no_storage_write (trace (resolve w u ua))
  /\ match TikTokMp3Spec.tikwm_answer w u ua with
     | Some m =>
         outcome (resolve w u ua) = inr (Some m)
         /\ fetched (trace (resolve w u ua)) = [JStr (tikwm_url u)]
     | None =>
         outcome (resolve w u ua) = inr (snd chain)
         /\ fetched (trace (resolve w u ua)) = JStr (tikwm_url u) :: map JStr (fst chain)
     end.
Proof.
  intros chain. subst chain. unfold resolve.
  destruct (mp3_tryTikwm_shape u ua) as (init & tl & E & Hf & Hn).
  destruct (mp3_cobalt_loop_spec cobalt_instances u) as (Lf & Ln & Lo).
  rewrite trace_bind, outcome_bind, E. unfold outcome, trace in *. cbn [fst snd].
  destruct (TikTokMp3Spec.tikwm_answer w u ua) as [m |].
  - cbn. rewrite app_nil_r, Hf. repeat split. exact Hn.
  - unfold tryCobalt. split; [| split].
    + change (Fetch (JStr (tikwm_url u)) init :: tl)
        with ([Fetch (JStr (tikwm_url u)) init] ++ tl)%list.
      rewrite <- app_assoc. apply no_storage_write_app. split; [reflexivity |].
      apply no_storage_write_app. auto.
    + exact Lo.
    + change (Fetch (JStr (tikwm_url u)) init :: tl)
        with ([Fetch (JStr (tikwm_url u)) init] ++ tl)%list.
      rewrite !fetched_app, Hf, Lf. reflexivity.
Qed.

Lemma mp3_resolve_exhausted u ua :
  TikTokMp3Spec.providers_fail w u ua ->
  outcome (resolve w u ua) = inr None
  /\ fetched (trace (resolve w u ua)) = JStr (tikwm_url u) :: map JStr cobalt_instances
  /\ no_storage_write (trace (resolve w u ua)).
Proof.
  intros [Ht Hr]. destruct (mp3_resolve_spec u ua) as (Hn & Hs).
  rewrite Ht in Hs. rewrite (first_success_all_none _ _ Hr) in Hs.
  destruct Hs. auto.
Qed.

Lemma mp3_resolve_none u ua :
  outcome (resolve w u ua) = inr None ->
  TikTokMp3Spec.providers_fail w u ua
  /\ fetched (trace (resolve w u ua)) = JStr (tikwm_url u) :: map JStr cobalt_instances.
Proof.
  intros H. destruct (mp3_resolve_spec u ua) as (Hn & Hs). unfold TikTokMp3Spec.providers_fail.
  destruct (TikTokMp3Spec.tikwm_answer w u ua) as [m |].
  - destruct Hs as [Ho _]. congruence.
  - destruct Hs as [Ho Hf]. rewrite Ho in H.
    assert (N : snd (first_success (TikTokMp3Spec.relay_answer w u) cobalt_instances) = None)
      by congruence.
    apply first_success_none in N as [Hall Hnone]. rewrite Hall in Hf. auto.
Qed.

Lemma mp3_resolve_total u ua : exists tr r, resolve w u ua = (tr, inr r) /\ no_storage_write tr.
Proof.
  destruct (mp3_resolve_spec u ua) as (Hn & Hs).
  destruct (resolve w u ua) as [tr o] eqn:E. unfold outcome, trace in *. cbn [fst snd] in *.
  destruct (TikTokMp3Spec.tikwm_answer w u ua); destruct Hs as [-> _]; eauto.
Qed.

(** The [try] block: it stops before the metadata write, having
    thrown, or it has uploaded the audio and handed one row to
    [insert]; an error answered by the datastore is logged and the
    block goes on to its success response. *)
Lemma mp3_process_delivery u instant ua ip :
  let p := process w u instant ua ip in
  let fileName := randomUUID w ++ ".mp3" in
  (inserted (trace p) = [] /\ exists e, outcome p = inl e)
  \/ (exists row,
        inserted (trace p) = [("tiktok_mp3s", row)]
        /\ uploaded (trace p) = [("tiktok-mp3s", fileName)]
        /\ get_opt row "mp3_path" = JStr fileName
        /\ get_opt row "mp4_path" = JUndefined
        /\ match db_insert w "tiktok_mp3s" row with
           | inl e => outcome p = inl e
           | inr dbError =>
               (dbError <> None -> In (ConsoleError "DB Error:") (trace p))
               /\ exists r, outcome p = inr r /\ is_success r = true
                 /\ is_inline_bytes r = instant
                 /\ has_result_url result_base r = negb instant
           end).
Proof.
  intros p fileName. subst p fileName.
  destruct (mp3_resolve_total u ua) as (tr & r & E & Hn).
  unfold process. rewrite E. clear E.
  destruct r as [musicUrl |].
  2:{ left. cbn. rewrite app_nil_r. split; [now apply no_storage_write_inserted | eauto]. }
  destruct instant; unfold_monad; run;
    first
      [ left; split; [ now (read_trace Hn) | eauto ]
      | right; eexists; split; [ read_trace Hn; reflexivity |];
        split; [ read_trace Hn; reflexivity |];
        split; [ reflexivity |]; split; [ reflexivity |];
        match goal with
        | H : db_insert _ _ _ = _ |- _ => rewrite H
        end;
        first [ reflexivity
              | split;
                [ intros _; apply in_or_app; right; cbn; tauto
                | eexists; split; [reflexivity |]; split; [reflexivity |];
                  unfold is_inline_bytes, has_result_url; cbn;
                  now rewrite ?VideoIdFacts.strip_prefix_self ]
              | split;
                [ intros X; congruence
                | eexists; split; [reflexivity |]; split; [reflexivity |];
                  unfold is_inline_bytes, has_result_url; cbn;
                  now rewrite ?VideoIdFacts.strip_prefix_self ] ] ].
Qed.

Lemma mp3_GET_run req u :
  TikTokMp3Spec.well_formed req u ->
  let p := process w u (TikTokMp3Spec.instantAppearance_of req)
             (TikTokMp4Spec.realUA_of req) (userIP_of req) in
  trace (GET w req)
  = (IncrementStat "total_hits" :: trace p
       ++ match outcome p with
          | inl e => fst (TikTokMp3On.on_error req e)
          | inr _ => []
          end)%list
  /\ outcome (GET w req)
     = inr (match outcome p with
            | inl e => snd (TikTokMp3On.on_error req e)
            | inr r => r
            end).
Proof.
  intros (Hu & Hne). unfold GET.
  rewrite Hu, (falsy_str_some u Hne).
  assert (Eu : or_default (Some u) EmptyString = u).
  { unfold or_default. apply String.eqb_neq in Hne. now rewrite Hne. }
  rewrite Eu. cbv zeta.
  change (match searchParams_get req "instant-appearance" with
          | Some s => (s =? "true")%string
          | None => false
          end) with (TikTokMp3Spec.instantAppearance_of req).
  change (or_default (headers_get req "user-agent") TikTokMp4.default_ua)
    with (TikTokMp4Spec.realUA_of req).
  generalize (process w u (TikTokMp3Spec.instantAppearance_of req)
                (TikTokMp4Spec.realUA_of req) (userIP_of req)).
  intros [tp [e | r]]; unfold_monad; cbn; rewrite ?app_nil_r; auto.
Qed.

(** Every provider failed: the [try] block throws, having written
    nothing. *)
Lemma mp3_process_exhausted u instant ua ip :
  TikTokMp3Spec.providers_fail w u ua ->
  outcome (process w u instant ua ip) = inl (mkError all_failed)
  /\ no_storage_write (trace (process w u instant ua ip)).
Proof.
  intros Hfail. destruct (mp3_resolve_exhausted u ua Hfail) as (Ho & _ & Hn).
  unfold process. destruct (resolve w u ua) as [tr o]. cbn [outcome trace fst snd] in *.
  subst o. cbn. rewrite app_nil_r. auto.
Qed.

(** What the whole handler leaves in the trace and answers, read off
    the [try] block. *)
Lemma mp3_GET_inserted req u :
  TikTokMp3Spec.well_formed req u ->
  inserted (trace (GET w req)) = inserted (trace (process w u (TikTokMp3Spec.instantAppearance_of req) (TikTokMp4Spec.realUA_of req) (userIP_of req))).
Proof.
  intros Hwf. destruct (mp3_GET_run req u Hwf) as (Ht & _). cbv zeta in Ht.
  rewrite Ht. cbn [inserted]. rewrite inserted_app.
  destruct (outcome (process w u (TikTokMp3Spec.instantAppearance_of req) (TikTokMp4Spec.realUA_of req) (userIP_of req))); cbn; now rewrite app_nil_r.
Qed.

Lemma mp3_GET_success req u r :
  TikTokMp3Spec.well_formed req u ->
  answered (GET w req) r -> is_success r = true ->
  outcome (process w u (TikTokMp3Spec.instantAppearance_of req) (TikTokMp4Spec.realUA_of req) (userIP_of req)) = inr r.
Proof.
  intros Hwf Ha Hs. destruct (mp3_GET_run req u Hwf) as (_ & Ho). cbv zeta in Ho.
  unfold answered in Ha. rewrite Ho in Ha.
  destruct (outcome (process w u (TikTokMp3Spec.instantAppearance_of req) (TikTokMp4Spec.realUA_of req) (userIP_of req))) as [e | r'].
  - inversion Ha; subst. discriminate.
  - now inversion Ha.
Qed.

Lemma mp3_GET_failure req u e :
  TikTokMp3Spec.well_formed req u ->
  outcome (process w u (TikTokMp3Spec.instantAppearance_of req) (TikTokMp4Spec.realUA_of req) (userIP_of req)) = inl e ->
  answered (GET w req) (prettyJson (error_envelope (message e)) (Some 500)).
Proof.
  intros Hwf He. destruct (mp3_GET_run req u Hwf) as (_ & Ho). cbv zeta in Ho.
  unfold answered. now rewrite Ho, He.
Qed.

Lemma mp3_GET_returns req u r :
  TikTokMp3Spec.well_formed req u ->
  outcome (process w u (TikTokMp3Spec.instantAppearance_of req) (TikTokMp4Spec.realUA_of req) (userIP_of req)) = inr r ->
  answered (GET w req) r.
Proof.
  intros Hwf He. destruct (mp3_GET_run req u Hwf) as (_ & Ho). cbv zeta in Ho.
  unfold answered. now rewrite Ho, He.
Qed.

Lemma mp3_GET_trace_incl req u x :
  TikTokMp3Spec.well_formed req u ->
  In x (trace (process w u (TikTokMp3Spec.instantAppearance_of req) (TikTokMp4Spec.realUA_of req) (userIP_of req))) -> In x (trace (GET w req)).
Proof.
  intros Hwf Hx. destruct (mp3_GET_run req u Hwf) as (Ht & _). cbv zeta in Ht.
  rewrite Ht. right. apply in_or_app. now left.
Qed.
End WithWorld.
End TikTokMp3Facts.

(* ===================================================================== *)
(** * The TikTok video route *)
(* ===================================================================== *)

Module TikTokMp4Facts.
Import TikTokMp4.

Section WithWorld.
Variable w : World.

Lemma mp4_tryTikwm_shape u ua :
  exists init tl,
    tryTikwm w u ua
    = (Fetch (JStr (tikwm_url u)) init :: tl, inr (TikTokMp4Spec.tikwm_answer w u ua))
    /\ fetched tl = [] /\ no_storage_write tl.
Proof.
  unfold TikTokMp4Spec.tikwm_answer, yielded, tryTikwm, no_storage_write. unfold_monad.
  run; eexists _, _; repeat split; reflexivity.
Qed.

(** The extractor answers only with a video address. *)
Lemma tikwm_answer_video u ua d :
  TikTokMp4Spec.tikwm_answer w u ua = Some d -> truthy (videoUrl d) = true.
Proof.
  unfold TikTokMp4Spec.tikwm_answer, yielded, tryTikwm. unfold_monad.
  run; intros X; inversion X; subst; cbn; assumption.
Qed.

Lemma mp4_try_instance_shape i u isAudio :
  exists tl,
    try_instance w i u isAudio
    = (Fetch (JStr i) (cobalt_init u isAudio) :: tl,
       inr (TikTokMp4Spec.relay_answer w u isAudio i))
    /\ fetched tl = [] /\ no_storage_write tl.
Proof.
  unfold TikTokMp4Spec.relay_answer, yielded, try_instance, no_storage_write. unfold_monad.
  run; eexists; repeat split; reflexivity.
Qed.

Lemma relay_answer_truthy i u isAudio du :
  TikTokMp4Spec.relay_answer w u isAudio i = Some du -> truthy du = true.
Proof.
  unfold TikTokMp4Spec.relay_answer, yielded, try_instance. unfold_monad.
  run; intros X; inversion X; subst; assumption.
Qed.

Lemma mp4_cobalt_loop_spec instances u isAudio :
  fetched (trace (cobalt_loop w instances u isAudio))
  = map JStr (fst (first_success (TikTokMp4Spec.relay_answer w u isAudio) instances))
  /\ no_storage_write (trace (cobalt_loop w instances u isAudio))
  /\ outcome (cobalt_loop w instances u isAudio)
     = inr (snd (first_success (TikTokMp4Spec.relay_answer w u isAudio) instances)).
Proof.
  induction instances as [| i rest (IHf & IHn & IHo)].
  - repeat split.
  - cbn [cobalt_loop first_success].
    destruct (mp4_try_instance_shape i u isAudio) as (tl & E & Hf & Hn).
    rewrite trace_bind, outcome_bind, E. unfold outcome, trace. cbn [fst snd].
    destruct (TikTokMp4Spec.relay_answer w u isAudio i) as [d |].
    + cbn. rewrite app_nil_r, Hf. repeat split. exact Hn.
    + destruct (first_success (TikTokMp4Spec.relay_answer w u isAudio) rest) as [tried r].
      cbn [fst snd] in *. repeat split.
      * change (Fetch (JStr i) (cobalt_init u isAudio) :: tl)
          with ([Fetch (JStr i) (cobalt_init u isAudio)] ++ tl)%list.
        rewrite !fetched_app, Hf. cbn. f_equal. exact IHf.
      * apply no_storage_write_app. split; [exact Hn | exact IHn].
      * exact IHo.
Qed.

(** Provider resolution: the extractor first; the relay chain is
    consulted only when the extractor gave no result at all. *)
Lemma mp4_resolve_spec u ty ua :
  let chain := first_success (TikTokMp4Spec.relay_answer w u (ty =? "mp3")%string)
                 cobalt_instances in
  no_storage_write (trace (resolve w u ty ua))
  /\ match TikTokMp4Spec.tikwm_answer w u ua with
     | Some d =>
         outcome (resolve w u ty ua) = inr d
         /\ fetched (trace (resolve w u ty ua)) = [JStr (tikwm_url u)]
     | None =>
         outcome (resolve w u ty ua) = inr (TikTokMp4Spec.from_relay ty (snd chain))
         /\ fetched (trace (resolve w u ty ua))
            = JStr (tikwm_url u) :: map JStr (fst chain)
     end.
Proof.
  intros chain. subst chain. unfold resolve.
  destruct (mp4_tryTikwm_shape u ua) as (init & tl & E & Hf & Hn).
  destruct (mp4_cobalt_loop_spec cobalt_instances u (ty =? "mp3")%string) as (Lf & Ln & Lo).
  rewrite trace_bind, outcome_bind, E. unfold outcome, trace in *. cbn [fst snd].
  destruct (TikTokMp4Spec.tikwm_answer w u ua) as [m |].
  - cbn. rewrite app_nil_r, Hf. repeat split. exact Hn.
  - unfold tryCobalt.
    destruct (cobalt_loop w cobalt_instances u (ty =? "mp3")%string) as [tc oc].
    cbn [fst snd] in *. subst oc.
    assert (X : forall (k : option jsval -> M TikTokData),
               (forall r, exists d, k r = ([], inr d)) ->
               forall r, fst (bind (tc, inr r) k) = tc
                         /\ snd (bind (tc, inr r) k) = snd (k r)).
    { intros k Hk r. destruct (Hk r) as [d Ed]. unfold bind. rewrite Ed. cbn.
      now rewrite app_nil_r. }
    match goal with
    | |- context [bind _ ?k] =>
        destruct (X k) with
          (r := snd (first_success (TikTokMp4Spec.relay_answer w u (ty =? "mp3")%string)
                       cobalt_instances)) as [X1 X2]
    end.
    { intros [du |]; [destruct (ty =? "mp3")%string |]; eexists; reflexivity. }
    rewrite X1, X2. split; [| split].
    + change (Fetch (JStr (tikwm_url u)) init :: tl)
        with ([Fetch (JStr (tikwm_url u)) init] ++ tl)%list.
      rewrite <- app_assoc. apply no_storage_write_app. split; [reflexivity |].
      apply no_storage_write_app. auto.
    + unfold TikTokMp4Spec.from_relay.
      destruct (snd (first_success _ cobalt_instances)); cbn;
        [destruct (ty =? "mp3")%string |]; reflexivity.
    + change (Fetch (JStr (tikwm_url u)) init :: tl)
        with ([Fetch (JStr (tikwm_url u)) init] ++ tl)%list.
      rewrite !fetched_app, Hf, Lf. reflexivity.
Qed.

Lemma mp4_resolve_total u ty ua :
  exists tr d, resolve w u ty ua = (tr, inr d) /\ no_storage_write tr.
Proof.
  destruct (mp4_resolve_spec u ty ua) as (Hn & Hs).
  destruct (resolve w u ty ua) as [tr o] eqn:E. unfold outcome, trace in *.
  cbn [fst snd] in *.
  destruct (TikTokMp4Spec.tikwm_answer w u ua); destruct Hs as [-> _]; eauto.
Qed.

Lemma mp4_resolve_exhausted u ty ua :
  TikTokMp4Spec.providers_fail w u ty ua ->
  outcome (resolve w u ty ua) = inr (TikTokMp4Spec.from_relay ty None)
  /\ fetched (trace (resolve w u ty ua)) = JStr (tikwm_url u) :: map JStr cobalt_instances
  /\ no_storage_write (trace (resolve w u ty ua)).
Proof.
  intros [Ht Hr]. destruct (mp4_resolve_spec u ty ua) as (Hn & Hs).
  rewrite Ht in Hs. rewrite (first_success_all_none _ _ Hr) in Hs.
  destruct Hs. auto.
Qed.

Ltac shape_goal :=
  unfold is_inline_bytes, has_result_url; cbn;
  rewrite ?VideoIdFacts.strip_prefix_self; try reflexivity.

Ltac response_goal :=
  eexists; split; [reflexivity |]; split; [reflexivity |];
  split; [shape_goal |]; split; [shape_goal |];
  intros;
  first [ congruence | eexists; split; [reflexivity |]; split; reflexivity ].

(** The [try] block: it stops before the metadata write, having
    thrown, or it has uploaded the requested file and handed one row
    to [insert]; an error answered by the datastore is logged and the
    block goes on to its success response. *)
Lemma mp4_process_delivery u ty autoShow ua ip :
  ty = "mp3" \/ ty = "mp4" ->
  let p := process w u ty autoShow ua ip in
  let id := randomUUID w in
  (inserted (trace p) = [] /\ exists e, outcome p = inl e)
  \/ (exists row,
        inserted (trace p) = [("tiktok_downloads", row)]
        /\ In ("tiktok-downloads", id ++ "." ++ ty) (uploaded (trace p))
        /\ get_opt row "mp4_path"
           = (if (ty =? "mp4")%string then JStr (id ++ ".mp4") else JNull)
        /\ get_opt row "mp3_path"
           = (if (ty =? "mp3")%string then JStr (id ++ ".mp3") else JNull)
        /\ match db_insert w "tiktok_downloads" row with
           | inl e => outcome p = inl e
           | inr dbError =>
               (dbError <> None -> In (ConsoleError "DB Error:") (trace p))
               /\ exists r, outcome p = inr r /\ is_success r = true
                 /\ is_inline_bytes r = autoShow && (ty =? "mp4")%string
                 /\ has_result_url result_base r = (ty =? "mp3")%string
                 /\ (ty = "mp4" -> autoShow = false ->
                     exists res,
                       result_of r = Some res
                       /\ get_opt res "video_url"
                          = get_opt (storage_getPublicUrl w "tiktok-downloads"
                                       (JStr (id ++ ".mp4"))) "publicUrl"
                       /\ get_opt res "result_url" = JUndefined)
           end).
Proof.
  intros Hty p id. subst p id.
  destruct (mp4_resolve_total u ty ua) as (tr & d & E & Hn).
  unfold process. rewrite E. clear E.
  destruct Hty; subst ty; destruct autoShow;
    unfold fetch_leg, upload_leg, mirror_thumbnail; unfold_monad;
    cbn [String.eqb Ascii.eqb Bool.eqb andb negb];
    run;
    first
      [ left; split; [ now (read_trace Hn) | eauto ]
      | right; eexists; split; [ read_trace Hn; reflexivity |];
        split; [ read_trace Hn; left; reflexivity |];
        split; [ reflexivity |]; split; [ reflexivity |];
        match goal with
        | H : db_insert _ _ _ = _ |- _ => rewrite H
        end;
        first [ reflexivity
              | split;
                [ intros _; apply in_or_app; right; cbn; tauto | response_goal ]
              | split; [ intros X; congruence | response_goal ] ] ].
Qed.

Lemma mp4_GET_run req u ty :
  TikTokMp4Spec.well_formed req u ty ->
  let p := process w u ty (TikTokMp4Spec.autoShow_of req)
             (TikTokMp4Spec.realUA_of req) (userIP_of req) in
  trace (GET w req)
  = (IncrementStat "total_hits" :: trace p
       ++ match outcome p with
          | inl e => fst (TikTokMp4On.on_error req e)
          | inr _ => []
          end)%list
  /\ outcome (GET w req)
     = inr (match outcome p with
            | inl e => snd (TikTokMp4On.on_error req e)
            | inr r => r
            end).
Proof.
  intros (Hu & Hne & Hty & Hmp). unfold GET.
  rewrite Hu, Hty, (falsy_str_some u Hne).
  assert (Ety : falsy_str (Some ty) = false)
    by (apply falsy_str_some; destruct Hmp; subst; discriminate).
  rewrite Ety.
  assert (Eu : or_default (Some u) EmptyString = u).
  { unfold or_default. apply String.eqb_neq in Hne. now rewrite Hne. }
  assert (Et : or_default (Some ty) EmptyString = ty).
  { unfold or_default. destruct Hmp; subst; reflexivity. }
  rewrite Eu, Et.
  assert (Eb : (negb (ty =? "mp3")%string && negb (ty =? "mp4")%string) = false)
    by (destruct Hmp; subst; reflexivity).
  rewrite Eb. cbn [orb]. cbv zeta.
  change (match searchParams_get req "auto_show" with
          | Some s => negb (s =? "false")%string
          | None => true
          end) with (TikTokMp4Spec.autoShow_of req).
  change (or_default (headers_get req "user-agent") default_ua)
    with (TikTokMp4Spec.realUA_of req).
  generalize (process w u ty (TikTokMp4Spec.autoShow_of req)
                (TikTokMp4Spec.realUA_of req) (userIP_of req)).
  intros [tp [e | r]]; unfold_monad; cbn; rewrite ?app_nil_r; auto.
Qed.

(** Every provider failed: the block throws at its guard, having
    written nothing. *)
Lemma mp4_process_exhausted u ty autoShow ua ip :
  ty = "mp3" \/ ty = "mp4" ->
  TikTokMp4Spec.providers_fail w u ty ua ->
  outcome (process w u ty autoShow ua ip)
  = inl (mkError (if (ty =? "mp4")%string then no_video else no_music))
  /\ trace (process w u ty autoShow ua ip) = trace (resolve w u ty ua).
Proof.
  intros Hty Hfail.
  destruct (mp4_resolve_exhausted u ty ua Hfail) as (Ho & _ & _).
  unfold process. destruct (resolve w u ty ua) as [tr o]. cbn [outcome snd] in Ho.
  subst o. unfold TikTokMp4Spec.from_relay.
  destruct Hty; subst ty; cbn [bind videoUrl musicUrl String.eqb Ascii.eqb Bool.eqb andb];
    change (truthy JNull) with false; cbn; now rewrite app_nil_r.
Qed.

(** What the whole handler leaves in the trace and answers, read off
    the [try] block. *)
Lemma mp4_GET_inserted req u ty :
  TikTokMp4Spec.well_formed req u ty ->
  inserted (trace (GET w req)) = inserted (trace (process w u ty (TikTokMp4Spec.autoShow_of req) (TikTokMp4Spec.realUA_of req) (userIP_of req))).
Proof.
  intros Hwf. destruct (mp4_GET_run req u ty Hwf) as (Ht & _). cbv zeta in Ht.
  rewrite Ht. cbn [inserted]. rewrite inserted_app.
  destruct (outcome (process w u ty (TikTokMp4Spec.autoShow_of req) (TikTokMp4Spec.realUA_of req) (userIP_of req))); cbn; now rewrite app_nil_r.
Qed.

Lemma mp4_GET_success req u ty r :
  TikTokMp4Spec.well_formed req u ty ->
  answered (GET w req) r -> is_success r = true ->
  outcome (process w u ty (TikTokMp4Spec.autoShow_of req) (TikTokMp4Spec.realUA_of req) (userIP_of req)) = inr r.
Proof.
  intros Hwf Ha Hs. destruct (mp4_GET_run req u ty Hwf) as (_ & Ho). cbv zeta in Ho.
  unfold answered in Ha. rewrite Ho in Ha.
  destruct (outcome (process w u ty (TikTokMp4Spec.autoShow_of req) (TikTokMp4Spec.realUA_of req) (userIP_of req))) as [e | r'].
  - inversion Ha; subst. discriminate.
  - now inversion Ha.
Qed.

Lemma mp4_GET_failure req u ty e :
  TikTokMp4Spec.well_formed req u ty ->
  outcome (process w u ty (TikTokMp4Spec.autoShow_of req) (TikTokMp4Spec.realUA_of req) (userIP_of req)) = inl e ->
  answered (GET w req) (prettyJson (error_envelope (message e)) (Some 500)).
Proof.
  intros Hwf He. destruct (mp4_GET_run req u ty Hwf) as (_ & Ho). cbv zeta in Ho.
  unfold answered. now rewrite Ho, He.
Qed.

Lemma mp4_GET_returns req u ty r :
  TikTokMp4Spec.well_formed req u ty ->
  outcome (process w u ty (TikTokMp4Spec.autoShow_of req) (TikTokMp4Spec.realUA_of req) (userIP_of req)) = inr r ->
  answered (GET w req) r.
Proof.
  intros Hwf He. destruct (mp4_GET_run req u ty Hwf) as (_ & Ho). cbv zeta in Ho.
  unfold answered. now rewrite Ho, He.
Qed.

Lemma mp4_GET_trace_incl req u ty x :
  TikTokMp4Spec.well_formed req u ty ->
  In x (trace (process w u ty (TikTokMp4Spec.autoShow_of req) (TikTokMp4Spec.realUA_of req) (userIP_of req))) -> In x (trace (GET w req)).
Proof.
  intros Hwf Hx. destruct (mp4_GET_run req u ty Hwf) as (Ht & _). cbv zeta in Ht.
  rewrite Ht. right. apply in_or_app. now left.
Qed.

(** A request for video reaches the guard without a video address only
    after the extractor and every relay mirror have been asked. *)
Lemma mp4_video_guard_exhausted u ua d :
  outcome (resolve w u "mp4" ua) = inr d ->
  truthy (videoUrl d) = false ->
  fetched (trace (resolve w u "mp4" ua)) = JStr (tikwm_url u) :: map JStr cobalt_instances
  /\ TikTokMp4Spec.providers_fail w u "mp4" ua.
Proof.
  intros Ho Hv. destruct (mp4_resolve_spec u "mp4" ua) as (_ & Hs). cbv zeta in Hs.
  unfold TikTokMp4Spec.providers_fail.
  destruct (TikTokMp4Spec.tikwm_answer w u ua) as [d' |] eqn:Et.
  - destruct Hs as [Ho' _]. rewrite Ho' in Ho. inversion Ho; subst d'.
    rewrite (tikwm_answer_video u ua d Et) in Hv. discriminate.
  - destruct Hs as [Ho' Hf].
    assert (Hd : d = TikTokMp4Spec.from_relay "mp4"
                       (snd (first_success
                               (TikTokMp4Spec.relay_answer w u ("mp4" =? "mp3")%string)
                               cobalt_instances))) by congruence.
    clear Ho Ho'.
    destruct (snd (first_success (TikTokMp4Spec.relay_answer w u ("mp4" =? "mp3")%string)
                     cobalt_instances)) as [du |] eqn:N.
    + apply first_success_some in N as (before & p & _ & Hp & _).
      apply relay_answer_truthy in Hp. subst d.
      unfold TikTokMp4Spec.from_relay in Hv. cbn in Hv. congruence.
    + apply first_success_none in N as [Hall Hnone]. rewrite Hall in Hf. auto.
Qed.

(** The same guard for audio can be reached with the relay mirrors
    never asked: the extractor's answer stands even when it has no music
    address. *)
Lemma mp4_audio_guard_after_extractor u ua d :
  TikTokMp4Spec.tikwm_answer w u ua = Some d ->
  outcome (resolve w u "mp3" ua) = inr d
  /\ fetched (trace (resolve w u "mp3" ua)) = [JStr (tikwm_url u)].
Proof.
  intros Et. destruct (mp4_resolve_spec u "mp3" ua) as (_ & Hs). cbv zeta in Hs.
  now rewrite Et in Hs.
Qed.
End WithWorld.
End TikTokMp4Facts.
(* ===================================================================== *)
(** * Input validation *)
(* ===================================================================== *)

Module Validation.

Lemma falsy_cases (o : option string) :
  falsy_str o = true \/ exists s, o = Some s /\ s <> EmptyString /\ falsy_str o = false.
Proof.
  destruct o as [s |]; [| now left]. unfold falsy_str.
  destruct (s =? EmptyString)%string eqn:E; [now left |].
  right. exists s. apply String.eqb_neq in E. auto.
Qed.

Lemma type_cases (ty : string) :
  (ty = "mp3" \/ ty = "mp4")
  \/ (negb (ty =? "mp3")%string && negb (ty =? "mp4")%string = true).
Proof.
  destruct (ty =? "mp3")%string eqn:E3; [apply String.eqb_eq in E3; auto |].
  destruct (ty =? "mp4")%string eqn:E4; [apply String.eqb_eq in E4; auto |].
  now right.
Qed.

Lemma or_default_some s d : s <> EmptyString -> or_default (Some s) d = s.
Proof. intros H. unfold or_default. apply String.eqb_neq in H. now rewrite H. Qed.

Section WithWorld.
Variable w : World.

Lemma yt_missing_url req :
  Stated.missing req "youtube_url" ->
  Yt.GET w req = bad_request "Parameter 'youtube_url' is required".
Proof. unfold Stated.missing, Yt.GET. intros ->. reflexivity. Qed.

Lemma yt_missing_type req :
  Stated.present req "youtube_url" -> Stated.missing req "type" ->
  Yt.GET w req = bad_request "Parameter 'type' is required and must be 'mp3' or 'mp4'".
Proof. unfold Stated.present, Stated.missing, Yt.GET. intros -> ->. reflexivity. Qed.

(** Either the request is turned away with a 400 before anything is
    done, or it carries what the route requires. *)
Lemma yt_validated req :
  (exists msg, Yt.GET w req = bad_request msg)
  \/ (exists u ty, YtSpec.well_formed req u ty).
Proof.
  destruct (falsy_cases (searchParams_get req "youtube_url")) as [Hu | (u & Eu & Hu & Fu)].
  { left. eexists. now apply yt_missing_url. }
  destruct (falsy_cases (searchParams_get req "type")) as [Ht | (ty & Et & Ht & Ft)].
  { left. eexists. now apply yt_missing_type. }
  destruct (type_cases ty) as [Hty | Hty].
  - destruct (VideoId.extractVideoId u) eqn:Eid.
    + right. exists u, ty. unfold YtSpec.well_formed. rewrite Eid.
      repeat split; auto. discriminate.
    + left. exists "Invalid YouTube URL". unfold Yt.GET.
      rewrite Fu, Ft, Eu, Et, !(or_default_some _ _ Hu), !(or_default_some _ _ Ht).
      destruct Hty; subst ty; cbn [String.eqb Ascii.eqb Bool.eqb negb andb orb];
        now rewrite Eid.
  - left. eexists. unfold Yt.GET.
    rewrite Fu, Ft, Et, !(or_default_some _ _ Ht), Hty. reflexivity.
Qed.

Lemma tiktok_video_missing_url req :
  Stated.missing req "tiktokvid_url" ->
  TikTokMp4.GET w req = bad_request "Parameter 'tiktokvid_url' is required".
Proof. unfold Stated.missing, TikTokMp4.GET. intros ->. reflexivity. Qed.

Lemma tiktok_video_missing_type req :
  Stated.present req "tiktokvid_url" -> Stated.missing req "type" ->
  TikTokMp4.GET w req
  = bad_request "Parameter 'type' is required and must be 'mp3' or 'mp4'".
Proof. unfold Stated.present, Stated.missing, TikTokMp4.GET. intros -> ->. reflexivity. Qed.

Lemma tiktok_video_validated req :
  (exists msg, TikTokMp4.GET w req = bad_request msg)
  \/ (exists u ty, TikTokMp4Spec.well_formed req u ty).
Proof.
  destruct (falsy_cases (searchParams_get req "tiktokvid_url")) as [Hu | (u & Eu & Hu & Fu)].
  { left. eexists. now apply tiktok_video_missing_url. }
  destruct (falsy_cases (searchParams_get req "type")) as [Ht | (ty & Et & Ht & Ft)].
  { left. eexists. now apply tiktok_video_missing_type. }
  destruct (type_cases ty) as [Hty | Hty].
  - right. exists u, ty. repeat split; auto.
  - left. eexists. unfold TikTokMp4.GET.
    rewrite Fu, Ft, Et, !(or_default_some _ _ Ht), Hty. reflexivity.
Qed.

Lemma tiktok_audio_missing_url req :
  Stated.missing req "tiktokvid_url" ->
  TikTokMp3.GET w req = bad_request "Parameter 'tiktokvid_url' is required".
Proof. unfold Stated.missing, TikTokMp3.GET. intros ->. reflexivity. Qed.

Lemma tiktok_audio_validated req :
  (exists msg, TikTokMp3.GET w req = bad_request msg)
  \/ (exists u, TikTokMp3Spec.well_formed req u).
Proof.
  destruct (falsy_cases (searchParams_get req "tiktokvid_url")) as [Hu | (u & Eu & Hu & Fu)].
  { left. eexists. now apply tiktok_audio_missing_url. }
  right. exists u. split; auto.
Qed.

Lemma imagen_missing_prompt req :
  Stated.missing req "prompt" ->
  Imagen.GET w req = ([], inr (errorRedirect 400 "Parameter 'prompt' is required")).
Proof. unfold Stated.missing, Imagen.GET. intros ->. reflexivity. Qed.
End WithWorld.

End Validation.

(* ===================================================================== *)
(** * The result-lookup route *)
(* ===================================================================== *)

Module YtResultFacts.
Import YtResult.

Section WithWorld.
Variable w : World.

Lemma GET_row_missing id :
  YtResultSpec.row_missing w id ->
  GET w id = ([DbSelect "yt_downloads" id],
              inr (prettyJson (error_envelope "Download not found") (Some 404))).
Proof.
  intros (meta & err & E & H). unfold GET. unfold_monad. cbn. rewrite E. cbn.
  destruct H as [-> | ->]; cbn; [reflexivity |].
  now rewrite orb_true_r.
Qed.

Lemma GET_row_found id meta :
  YtResultSpec.row_found w id meta ->
  GET w id
  = ([DbSelect "yt_downloads" id],
     inr (if truthy (filePath_of meta)
          then prettyJson
                 (descriptor meta (storage_getPublicUrl w "yt-downloads" (filePath_of meta)))
                 None
          else prettyJson (error_envelope "File not found") (Some 404))).
Proof.
  intros (err & E & He & Hm). unfold GET. unfold_monad. cbn. rewrite E. cbn.
  rewrite He, Hm. cbn. destruct (truthy (filePath_of meta)); reflexivity.
Qed.

Lemma GET_lookup_throws id :
  YtResultSpec.lookup_throws w id ->
  GET w id = ([DbSelect "yt_downloads" id; ConsoleError "YT Result API Error:"],
              inr YtResultSpec.generic_failure).
Proof. intros (e & E). unfold GET. unfold_monad. cbn. now rewrite E. Qed.

(** The three cases cover every answer of the datastore. *)
Lemma lookup_cases id :
  YtResultSpec.row_missing w id
  \/ (exists meta, YtResultSpec.row_found w id meta)
  \/ YtResultSpec.lookup_throws w id.
Proof.
  unfold YtResultSpec.row_missing, YtResultSpec.row_found, YtResultSpec.lookup_throws.
  destruct (db_select_single w "yt_downloads" id) as [e | [meta err]] eqn:E.
  - right. right. eauto.
  - destruct (truthy err) eqn:He; [left; eauto 6 |].
    destruct (truthy meta) eqn:Hm; [right; left; eauto 6 | left; eauto 6].
Qed.

Lemma filePath_null meta :
  get_opt meta "mp3_path" = JNull -> get_opt meta "mp4_path" = JNull ->
  truthy (filePath_of meta) = false.
Proof. unfold filePath_of, js_or. intros -> ->. reflexivity. Qed.
End WithWorld.
End YtResultFacts.

(* ===================================================================== *)
(** * Runs of the [try] blocks *)
(* ===================================================================== *)

Module YtRunFacts.

Section WithWorld.
Variable w : World.

(** Every execution of the block is one of the runs. *)
Lemma yt_process_run u ty ua ip :
  ty = "mp3" \/ ty = "mp4" ->
  exists tr,
    fst (Yt.Promise_all2 (Yt.downloadFromCobalt w u ty) (Yt.getVideoInfo w u)) = tr
    /\ YtRun.run w u ty ua ip tr
         (trace (Yt.process w u ty ua ip)) (outcome (Yt.process w u ty ua ip)).
Proof.
  intros Hty.
  destruct (Yt.Promise_all2 (Yt.downloadFromCobalt w u ty) (Yt.getVideoInfo w u))
    as [tr o] eqn:E.
  exists tr. split; [reflexivity |].
  unfold Yt.process. rewrite E.
  destruct o as [e | [d info]].
  { cbn. now apply YtRun.unresolved. }
  destruct Hty; subst ty; unfold_monad; run;
    solve [ eapply YtRun.media_throws; eassumption
          | eapply YtRun.media_refused; eassumption
          | eapply YtRun.body_throws; eassumption
          | eapply YtRun.stored; [eassumption | eassumption | eassumption | eassumption |];
            solve [ eapply YtRun.upload_throws; eassumption
                  | eapply YtRun.upload_refused; eassumption
                  | eapply YtRun.insert_throws; eassumption
                  | eapply YtRun.insert_refused; eassumption
                  | eapply YtRun.done; eassumption ] ].
Qed.
End WithWorld.
End YtRunFacts.

Module TikTokMp3RunFacts.

Section WithWorld.
Variable w : World.

Lemma mp3_process_run u instant ua ip :
  exists tr,
    fst (TikTokMp3.resolve w u ua) = tr
    /\ TikTokMp3Run.run w u ua ip instant tr
         (trace (TikTokMp3.process w u instant ua ip))
         (outcome (TikTokMp3.process w u instant ua ip)).
Proof.
  destruct (TikTokMp3Facts.mp3_resolve_total w u ua) as (tr & r & E & _).
  exists tr. split; [now rewrite E |].
  unfold TikTokMp3.process. rewrite E.
  destruct r as [m |].
  2:{ cbn. rewrite app_nil_r. now apply TikTokMp3Run.unresolved. }
  destruct instant; unfold_monad; run;
    solve [ eapply TikTokMp3Run.media_throws; eassumption
          | eapply TikTokMp3Run.media_refused; eassumption
          | eapply TikTokMp3Run.body_throws; eassumption
          | eapply TikTokMp3Run.stored;
            [eassumption | eassumption | eassumption | eassumption |];
            solve [ eapply TikTokMp3Run.upload_throws; eassumption
                  | eapply TikTokMp3Run.upload_refused; eassumption
                  | eapply TikTokMp3Run.insert_throws; eassumption
                  | eapply TikTokMp3Run.insert_refused; eassumption
                  | eapply TikTokMp3Run.done; eassumption ] ].
Qed.
End WithWorld.
End TikTokMp3RunFacts.

Module TikTokMp4RunFacts.

Section WithWorld.
Variable w : World.

(** Finds the part of the trace the thumbnail mirror left. *)
Ltac split_thumb :=
  lazymatch goal with
  | |- TikTokMp4Run.store ?W ?U ?T ?A ?I ?S ?D ?B
         (?up :: Fetch ?x JUndefined :: StorageUpload ?b ?k ?body ?ct
              :: ConsoleError ?c :: ?tl) _ =>
      eapply (@TikTokMp4Run.uploaded_then W U T A I S D B
                [Fetch x JUndefined; StorageUpload b k body ct; ConsoleError c] None tl)
  | |- TikTokMp4Run.store ?W ?U ?T ?A ?I ?S ?D ?B
         (?up :: Fetch ?x JUndefined :: StorageUpload ?b ?k ?body ?ct :: ?tl) _ =>
      eapply (@TikTokMp4Run.uploaded_then W U T A I S D B
                [Fetch x JUndefined; StorageUpload b k body ct] (Some k) tl)
  | |- TikTokMp4Run.store ?W ?U ?T ?A ?I ?S ?D ?B
         (?up :: Fetch ?x JUndefined :: ConsoleError ?c :: ?tl) _ =>
      eapply (@TikTokMp4Run.uploaded_then W U T A I S D B
                [Fetch x JUndefined; ConsoleError c] None tl)
  | |- TikTokMp4Run.store ?W ?U ?T ?A ?I ?S ?D ?B
         (?up :: Fetch ?x JUndefined :: ?tl) _ =>
      eapply (@TikTokMp4Run.uploaded_then W U T A I S D B
                [Fetch x JUndefined] None tl)
  | |- TikTokMp4Run.store ?W ?U ?T ?A ?I ?S ?D ?B (?up :: ?tl) _ =>
      eapply (@TikTokMp4Run.uploaded_then W U T A I S D B [] None tl)
  end.

Ltac thumb_case :=
  solve [ eapply TikTokMp4Run.no_thumbnail; eassumption
        | eapply TikTokMp4Run.thumb_fetch_throws; eassumption
        | eapply TikTokMp4Run.thumb_refused; eassumption
        | eapply TikTokMp4Run.thumb_body_throws; eassumption
        | eapply TikTokMp4Run.thumb_upload_throws; eassumption
        | eapply TikTokMp4Run.thumb_recorded; eassumption ].

Ltac finish_case :=
  solve [ eapply TikTokMp4Run.insert_throws; eassumption
        | eapply TikTokMp4Run.insert_refused; eassumption
        | eapply TikTokMp4Run.done; eassumption ].

Ltac store_case :=
  solve [ eapply TikTokMp4Run.upload_throws; eassumption
        | eapply TikTokMp4Run.upload_refused; eassumption
        | split_thumb; [eassumption | thumb_case | finish_case] ].

Lemma mp4_process_run u ty autoShow ua ip :
  ty = "mp3" \/ ty = "mp4" ->
  exists tr d,
    TikTokMp4.resolve w u ty ua = (tr, inr d)
    /\ TikTokMp4Run.run w u ty ua ip autoShow d tr
         (trace (TikTokMp4.process w u ty autoShow ua ip))
         (outcome (TikTokMp4.process w u ty autoShow ua ip)).
Proof.
  intros Hty.
  destruct (TikTokMp4Facts.mp4_resolve_total w u ty ua) as (tr & d & E & _).
  exists tr, d. split; [exact E |].
  unfold TikTokMp4.process. rewrite E.
  destruct Hty; subst ty; destruct autoShow;
    unfold TikTokMp4.fetch_leg, TikTokMp4.upload_leg, TikTokMp4.mirror_thumbnail;
    unfold_monad;
    cbn [String.eqb Ascii.eqb Bool.eqb andb negb];
    run; rewrite ?app_nil_r;
    solve [ now (eapply TikTokMp4Run.guard_video)
          | now (eapply TikTokMp4Run.guard_music)
          | eapply TikTokMp4Run.media_throws; eassumption
          | eapply TikTokMp4Run.media_refused; eassumption
          | eapply TikTokMp4Run.body_throws; eassumption
          | eapply TikTokMp4Run.stored;
            [eassumption | eassumption | eassumption | eassumption | store_case] ].
Qed.
End WithWorld.
End TikTokMp4RunFacts.

(* ===================================================================== *)
(** * Provider resolution only talks to the network *)
(* ===================================================================== *)

Lemma only_lookups_app t1 t2 :
  only_lookups (t1 ++ t2) <-> only_lookups t1 /\ only_lookups t2.
Proof. unfold only_lookups. rewrite forallb_app. apply andb_true_iff. Qed.

Lemma only_lookups_quiet t :
  only_lookups t ->
  stats t = [] /\ logged t = [] /\ inserted t = [] /\ uploaded t = [] /\ selected t = [].
Proof.
  unfold only_lookups. induction t as [| e t IH]; cbn; [auto |].
  intros H. apply andb_true_iff in H as [He Ht].
  destruct e; cbn in He; try discriminate; auto.
Qed.

Lemma stats_app t1 t2 : stats (t1 ++ t2) = (stats t1 ++ stats t2)%list.
Proof.
  induction t1 as [| e t1 IH]; cbn; [reflexivity |].
  destruct e; cbn; now rewrite ?IH.
Qed.

Lemma logged_app t1 t2 : logged (t1 ++ t2) = (logged t1 ++ logged t2)%list.
Proof.
  induction t1 as [| e t1 IH]; cbn; [reflexivity |].
  destruct e; cbn; now rewrite ?IH.
Qed.

Lemma selected_app t1 t2 : selected (t1 ++ t2) = (selected t1 ++ selected t2)%list.
Proof.
  induction t1 as [| e t1 IH]; cbn; [reflexivity |].
  destruct e; cbn; now rewrite ?IH.
Qed.

(** A loop over provider instances keeps to lookups when each turn
    does. *)
Lemma loop_only_lookups {A B} (turn : string -> M (option A)) (last : M B)
      (loop : list string -> M B) (wrap : A -> M B) :
  (forall i, only_lookups (trace (turn i))) ->
  only_lookups (trace last) ->
  (forall a, trace (wrap a) = []) ->
  loop [] = last ->
  (forall i rest,
      loop (i :: rest)
      = bind (turn i) (fun r => match r with Some a => wrap a | None => loop rest end)) ->
  forall instances, only_lookups (trace (loop instances)).
Proof.
  intros Hturn Hlast Hwrap Hnil Hcons instances.
  induction instances as [| i rest IH].
  - now rewrite Hnil.
  - rewrite Hcons, trace_bind.
    destruct (outcome (turn i)) as [e | [a |]]; [apply Hturn | |].
    + rewrite Hwrap, app_nil_r. apply Hturn.
    + apply only_lookups_app. split; [apply Hturn | exact IH].
Qed.

Module LookupFacts.

Section WithWorld.
Variable w : World.

Lemma yt_try_instance_lookups i u ty : only_lookups (trace (Yt.try_instance w i u ty)).
Proof. unfold Yt.try_instance, only_lookups. unfold_monad. run; reflexivity. Qed.

Lemma yt_download_lookups u ty : only_lookups (trace (Yt.downloadFromCobalt w u ty)).
Proof.
  unfold Yt.downloadFromCobalt.
  apply (loop_only_lookups (fun i => Yt.try_instance w i u ty) (throw Yt.unavailable)
           (fun l => Yt.download_loop w l u ty) (fun d => ret d));
    auto using yt_try_instance_lookups; reflexivity.
Qed.

Lemma yt_getVideoInfo_lookups u : only_lookups (trace (Yt.getVideoInfo w u)).
Proof.
  unfold Yt.getVideoInfo, only_lookups.
  destruct (VideoId.extractVideoId u); [| reflexivity].
  unfold_monad. run; reflexivity.
Qed.

Lemma yt_resolution_lookups u ty :
  only_lookups (fst (Yt.Promise_all2 (Yt.downloadFromCobalt w u ty) (Yt.getVideoInfo w u))).
Proof.
  unfold Yt.Promise_all2. cbn [fst]. apply only_lookups_app.
  split; [apply yt_download_lookups | apply yt_getVideoInfo_lookups].
Qed.

Lemma mp3_tryTikwm_lookups u ua : only_lookups (trace (TikTokMp3.tryTikwm w u ua)).
Proof. unfold TikTokMp3.tryTikwm, only_lookups. unfold_monad. run; reflexivity. Qed.

Lemma mp3_try_instance_lookups i u : only_lookups (trace (TikTokMp3.try_instance w i u)).
Proof. unfold TikTokMp3.try_instance, only_lookups. unfold_monad. run; reflexivity. Qed.

Lemma mp3_resolve_lookups u ua : only_lookups (trace (TikTokMp3.resolve w u ua)).
Proof.
  unfold TikTokMp3.resolve. rewrite trace_bind.
  pose proof (mp3_tryTikwm_lookups u ua) as Ht.
  destruct (outcome (TikTokMp3.tryTikwm w u ua)) as [e | [m |]]; [exact Ht | |].
  - cbn [trace ret fst]. rewrite app_nil_r. exact Ht.
  - apply only_lookups_app. split; [exact Ht |].
    unfold TikTokMp3.tryCobalt.
    apply (loop_only_lookups (fun i => TikTokMp3.try_instance w i u) (ret None)
             (fun l => TikTokMp3.cobalt_loop w l u) (fun du => ret (Some du)));
      auto using mp3_try_instance_lookups; reflexivity.
Qed.

Lemma mp4_tryTikwm_lookups u ua : only_lookups (trace (TikTokMp4.tryTikwm w u ua)).
Proof. unfold TikTokMp4.tryTikwm, only_lookups. unfold_monad. run; reflexivity. Qed.

Lemma mp4_try_instance_lookups i u isAudio :
  only_lookups (trace (TikTokMp4.try_instance w i u isAudio)).
Proof. unfold TikTokMp4.try_instance, only_lookups. unfold_monad. run; reflexivity. Qed.

Lemma mp4_tryCobalt_lookups u isAudio : only_lookups (trace (TikTokMp4.tryCobalt w u isAudio)).
Proof.
  unfold TikTokMp4.tryCobalt.
  apply (loop_only_lookups (fun i => TikTokMp4.try_instance w i u isAudio) (ret None)
           (fun l => TikTokMp4.cobalt_loop w l u isAudio) (fun du => ret (Some du)));
    auto using mp4_try_instance_lookups; reflexivity.
Qed.

Lemma mp4_resolve_lookups u ty ua : only_lookups (trace (TikTokMp4.resolve w u ty ua)).
Proof.
  unfold TikTokMp4.resolve. rewrite trace_bind.
  pose proof (mp4_tryTikwm_lookups u ua) as Ht.
  destruct (outcome (TikTokMp4.tryTikwm w u ua)) as [e | [m |]]; [exact Ht | |].
  - cbn [trace ret fst]. rewrite app_nil_r. exact Ht.
  - apply only_lookups_app. split; [exact Ht |].
    rewrite trace_bind. pose proof (mp4_tryCobalt_lookups u (ty =? "mp3")%string) as Hc.
    destruct (outcome (TikTokMp4.tryCobalt w u (ty =? "mp3")%string)) as [e | [du |]];
      [exact Hc | |].
    + destruct (ty =? "mp3")%string; cbn [trace ret fst]; rewrite app_nil_r; exact Hc.
    + cbn [trace ret fst]. rewrite app_nil_r. exact Hc.
Qed.
End WithWorld.
End LookupFacts.

(* ===================================================================== *)
(** * Every request, case by case *)
(* ===================================================================== *)

Module Cases.

Section WithWorld.
Variable w : World.

(** A well-formed request of the YouTube route: the handler counts the
    hit, goes through one run of the block and closes on its outcome. *)
Lemma yt_GET_cases req u ty :
  YtSpec.well_formed req u ty ->
  exists tr tl out,
    only_lookups tr
    /\ YtRun.run w u ty (Yt.realUA_of req) (userIP_of req) tr tl out
    /\ trace (Yt.GET w req)
       = (IncrementStat "total_hits" :: tl
            ++ match out with inl e => fst (YtSpec.on_error req e) | inr _ => [] end)%list
    /\ outcome (Yt.GET w req)
       = inr (match out with inl e => snd (YtSpec.on_error req e) | inr r => r end).
Proof.
  intros Hwf. destruct (YtFacts.yt_GET_run w req u ty Hwf) as (Ht & Ho). cbv zeta in *.
  pose proof Hwf as (_ & _ & _ & Hmp & _).
  destruct (YtRunFacts.yt_process_run w u ty (Yt.realUA_of req) (userIP_of req) Hmp)
    as (tr & Etr & Hrun).
  exists tr, (trace (Yt.process w u ty (Yt.realUA_of req) (userIP_of req))),
    (outcome (Yt.process w u ty (Yt.realUA_of req) (userIP_of req))).
  split; [| auto]. rewrite <- Etr. apply LookupFacts.yt_resolution_lookups.
Qed.

Lemma mp3_GET_cases req u :
  TikTokMp3Spec.well_formed req u ->
  exists tr tl out,
    only_lookups tr
    /\ TikTokMp3Run.run w u (TikTokMp4Spec.realUA_of req) (userIP_of req)
         (TikTokMp3Spec.instantAppearance_of req) tr tl out
    /\ trace (TikTokMp3.GET w req)
       = (IncrementStat "total_hits" :: tl
            ++ match out with
               | inl e => fst (TikTokMp3On.on_error req e)
               | inr _ => []
               end)%list
    /\ outcome (TikTokMp3.GET w req)
       = inr (match out with
              | inl e => snd (TikTokMp3On.on_error req e)
              | inr r => r
              end).
Proof.
  intros Hwf. destruct (TikTokMp3Facts.mp3_GET_run w req u Hwf) as (Ht & Ho).
  cbv zeta in *.
  destruct (TikTokMp3RunFacts.mp3_process_run w u (TikTokMp3Spec.instantAppearance_of req)
              (TikTokMp4Spec.realUA_of req) (userIP_of req)) as (tr & Etr & Hrun).
  eexists tr, _, _. split; [| split; [exact Hrun | auto]].
  rewrite <- Etr. apply LookupFacts.mp3_resolve_lookups.
Qed.

Lemma mp4_GET_cases req u ty :
  TikTokMp4Spec.well_formed req u ty ->
  exists tr d tl out,
    only_lookups tr
    /\ TikTokMp4.resolve w u ty (TikTokMp4Spec.realUA_of req) = (tr, inr d)
    /\ TikTokMp4Run.run w u ty (TikTokMp4Spec.realUA_of req) (userIP_of req)
         (TikTokMp4Spec.autoShow_of req) d tr tl out
    /\ trace (TikTokMp4.GET w req)
       = (IncrementStat "total_hits" :: tl
            ++ match out with
               | inl e => fst (TikTokMp4On.on_error req e)
               | inr _ => []
               end)%list
    /\ outcome (TikTokMp4.GET w req)
       = inr (match out with
              | inl e => snd (TikTokMp4On.on_error req e)
              | inr r => r
              end).
Proof.
  intros Hwf. destruct (TikTokMp4Facts.mp4_GET_run w req u ty Hwf) as (Ht & Ho).
  cbv zeta in *. pose proof Hwf as (_ & _ & _ & Hmp).
  destruct (TikTokMp4RunFacts.mp4_process_run w u ty (TikTokMp4Spec.autoShow_of req)
              (TikTokMp4Spec.realUA_of req) (userIP_of req) Hmp) as (tr & d & E & Hrun).
  eexists tr, d, _, _. split; [| split; [exact E | split; [exact Hrun | auto]]].
  pose proof (LookupFacts.mp4_resolve_lookups w u ty (TikTokMp4Spec.realUA_of req)) as L.
  now rewrite E in L.
Qed.
End WithWorld.
End Cases.

(* ===================================================================== *)
(** * The image generator *)
(* ===================================================================== *)

Module ImagenFacts.

Lemma get_get_opt v k x : get v k = inr x -> x = get_opt v k.
Proof. unfold get, get_opt. destruct v; congruence. Qed.

Section WithWorld.
Variable w : World.

Lemma generateFromFlux_returns prompt img :
  outcome (Imagen.generateFromFlux w prompt) = inr img ->
  ImagenRun.generated w prompt img (trace (Imagen.generateFromFlux w prompt)).
Proof.
  unfold Imagen.generateFromFlux, ImagenRun.generated. cbv zeta.
  fold (ImagenRun.flux_url prompt). fold (ImagenRun.flux_init w).
  fold (ImagenRun.image_init w).
  unfold_monad. cbn.
  destruct (fetch w (JStr (ImagenRun.flux_url prompt)) (ImagenRun.flux_init w))
    as [e | res] eqn:F; cbn; [discriminate |].
  destruct (ok res) eqn:O; cbn; [| discriminate].
  destruct (includes (or_default (content_type res) EmptyString) "application/json") eqn:J.
  - cbn. destruct (json res) as [e | jsonData] eqn:Ej; cbn; [discriminate |].
    destruct (get jsonData "data") as [e | d] eqn:Gd; cbn; [discriminate |].
    destruct (get jsonData "result") as [e | r] eqn:Gr; cbn; [discriminate |].
    destruct (get jsonData "url") as [e | u] eqn:Gu; cbn; [discriminate |].
    destruct (get jsonData "image") as [e | i] eqn:Gi; cbn; [discriminate |].
    apply get_get_opt in Gd, Gr, Gu, Gi. subst d r u i.
    fold (ImagenRun.imageUrl_of jsonData).
    destruct (truthy (ImagenRun.imageUrl_of jsonData)) eqn:T; cbn; [| discriminate].
    destruct (fetch w (ImagenRun.imageUrl_of jsonData) (ImagenRun.image_init w))
      as [e | imgRes] eqn:F2; cbn; [discriminate |].
    destruct (ok imgRes) eqn:O2; cbn; [| discriminate].
    destruct (arrayBuffer imgRes) as [e | b] eqn:B; cbn; [discriminate |].
    intros [= <-]. exists res. repeat split; auto. right. split; [assumption |].
    exists jsonData, imgRes. repeat split; auto.
  - destruct (includes (or_default (content_type res) EmptyString) "image") eqn:I; cbn;
      [| discriminate].
    destruct (arrayBuffer res) as [e | b] eqn:B; cbn; [discriminate |].
    intros [= <-]. exists res. repeat split; auto.
Qed.

Lemma generateFromFlux_lookups prompt :
  only_lookups (trace (Imagen.generateFromFlux w prompt)).
Proof. unfold Imagen.generateFromFlux, only_lookups. unfold_monad. run; reflexivity. Qed.

Lemma or_default_nonempty o d : d <> EmptyString -> or_default o d <> EmptyString.
Proof.
  intros Hd. unfold or_default. destruct o as [s |]; [| exact Hd].
  destruct (s =? EmptyString)%string eqn:E; [exact Hd | now apply String.eqb_neq].
Qed.

(** A request that names a prompt is counted, runs the block, and ends
    in one of two ways. *)
Lemma imagen_GET_cases req prompt :
  searchParams_get req "prompt" = Some prompt -> prompt <> EmptyString ->
  ImagenRun.went_through w req prompt \/ ImagenRun.failed w req prompt.
Proof.
  intros Hp Hne.
  unfold ImagenRun.went_through, ImagenRun.failed, answered, Imagen.GET.
  rewrite Hp, (falsy_str_some prompt Hne), (Validation.or_default_some _ _ Hne).
  cbv zeta. unfold Imagen.process.
  pose proof (generateFromFlux_returns prompt) as Hgen.
  pose proof (generateFromFlux_lookups prompt) as Hlk.
  destruct (Imagen.generateFromFlux w prompt) as [tg [e | img]].
  - right. exists (or_default (Some (message e)) ImagenRun.default_message).
    unfold_monad. cbn in *. rewrite ?app_nil_r.
    split; [reflexivity |]. split; [now apply or_default_nonempty |].
    rewrite stats_app, logged_app, inserted_app.
    destruct (only_lookups_quiet _ Hlk) as (-> & -> & -> & _). cbn. auto.
  - specialize (Hgen img eq_refl). cbn [trace fst] in Hgen, Hlk.
    fold (ImagenRun.imagePath w). fold (ImagenRun.row_of w prompt).
    destruct (only_lookups_quiet _ Hlk) as (Hs & Hg & Hi & _).
    unfold_monad. cbn.
    destruct (fetch w (JStr Imagen.watermarkUrl) JUndefined) as [e | res] eqn:F; cbn.
    { right. eexists. split; [reflexivity |].
      split; [now apply or_default_nonempty |].
      rewrite !stats_app, !logged_app, !inserted_app, Hs, Hg, Hi. cbn. auto. }
    destruct (ok res) eqn:O; cbn.
    2:{ right. eexists. split; [reflexivity |].
      split; [now apply or_default_nonempty |].
      rewrite !stats_app, !logged_app, !inserted_app, Hs, Hg, Hi. cbn. auto. }
    destruct (arrayBuffer res) as [e | watermark] eqn:B; cbn.
    { right. eexists. split; [reflexivity |].
      split; [now apply or_default_nonempty |].
      rewrite !stats_app, !logged_app, !inserted_app, Hs, Hg, Hi. cbn. auto. }
    destruct (sharp_watermark w watermark) as [e | mark] eqn:W; cbn.
    { right. eexists. split; [reflexivity |].
      split; [now apply or_default_nonempty |].
      rewrite !stats_app, !logged_app, !inserted_app, Hs, Hg, Hi. cbn. auto. }
    destruct (sharp_composite w img mark) as [e | body] eqn:C; cbn.
    { right. eexists. split; [reflexivity |].
      split; [now apply or_default_nonempty |].
      rewrite !stats_app, !logged_app, !inserted_app, Hs, Hg, Hi. cbn. auto. }
    destruct (storage_upload w "ai-images" (ImagenRun.imagePath w) body "image/png")
      as [e | [e |]] eqn:U; cbn.
    1,2: right; eexists; (split; [reflexivity |]);
      (split; [now apply or_default_nonempty |]);
      rewrite !stats_app, !logged_app, !inserted_app, Hs, Hg, Hi; cbn; auto.
    destruct (db_insert w "ai_images" (ImagenRun.row_of w prompt)) as [e | [e |]] eqn:D; cbn.
    1,2: right; eexists; (split; [reflexivity |]);
      (split; [now apply or_default_nonempty |]);
      rewrite !stats_app, !logged_app, !inserted_app, Hs, Hg, Hi; cbn;
      (split; [reflexivity | split; [reflexivity | right; split; [reflexivity | congruence]]]).
    left. exists img, tg, res, watermark, mark, body. rewrite ?app_nil_r.
    repeat split; auto.
Qed.
End WithWorld.
End ImagenFacts.

(* ===================================================================== *)
(** * The properties of the specification *)
(* ===================================================================== *)

(** C4. Video-identifier extraction is total over its enumerated URL
    shapes.  For every address, [extractVideoId] returns the capture of
    the first pattern of the ordered list that matches (an identifier of
    eleven characters of the class), or fails when no pattern matches,
    and the failure is well defined: metadata enrichment throws
    "Invalid YouTube URL" and the route answers 400 with that message.
    Every address that holds one of the literal shapes followed by an
    identifier yields an identifier, and yields that very identifier when
    no match can start earlier; a bare identifier yields itself.  In
    particular [https://youtu.be/dQw4w9WgXcQ] and
    [https://www.youtube.com/watch?v=dQw4w9WgXcQ] both yield
    [dQw4w9WgXcQ]. *)
Theorem C4_extractVideoId_total :
  (forall url,
      match VideoId.extractVideoId url with
      | Some id =>
          VideoId.valid_id id
          /\ exists n p,
               nth_error VideoId.patterns n = Some p
               /\ VideoId.str_match url p = Some id
               /\ forall m q, (m < n)%nat -> nth_error VideoId.patterns m = Some q ->
                              VideoId.str_match url q = None
      | None =>
          (forall p, In p VideoId.patterns -> VideoId.str_match url p = None)
          /\ (forall w, Yt.getVideoInfo w url = ([], inl (mkError "Invalid YouTube URL")))
          /\ (forall w req ty,
                 searchParams_get req "youtube_url" = Some url -> url <> EmptyString ->
                 searchParams_get req "type" = Some ty -> ty = "mp3" \/ ty = "mp4" ->
                 Yt.GET w req = bad_request "Invalid YouTube URL")
      end)
  /\ (forall pre p id post,
         In p VideoId.shapes -> VideoId.valid_id id ->
         exists id', VideoId.extractVideoId (pre ++ p ++ id ++ post) = Some id')
  /\ (forall pre p id post,
         VideoId.no_y pre = true -> In p VideoId.shapes -> VideoId.valid_id id ->
         VideoId.extractVideoId (pre ++ p ++ id ++ post) = Some id)
  /\ (forall id, VideoId.valid_id id -> VideoId.extractVideoId id = Some id)
  /\ VideoId.extractVideoId "https://youtu.be/dQw4w9WgXcQ" = Some "dQw4w9WgXcQ"
  /\ VideoId.extractVideoId "https://www.youtube.com/watch?v=dQw4w9WgXcQ"
     = Some "dQw4w9WgXcQ".
Proof.
  split; [| split; [| split; [| split; [| split]]]].
  - intros url. pose proof (VideoIdFacts.first_match_spec url VideoId.patterns) as S.
    unfold VideoId.extractVideoId in *.
    destruct (VideoId.first_match url VideoId.patterns) as [id |] eqn:E.
    + split; [| exact S]. now apply (VideoIdFacts.extractVideoId_valid url).
    + split; [exact S |]. split.
      * intros w. now apply YtFacts.getVideoInfo_invalid.
      * intros w req ty Hu Hne Hty Hmp. unfold Yt.GET.
        rewrite Hu, Hty, (falsy_str_some url Hne),
          !(Validation.or_default_some _ _ Hne).
        destruct Hmp; subst ty; cbn; unfold VideoId.extractVideoId; now rewrite E.
  - exact VideoIdFacts.extractVideoId_shape.
  - exact VideoIdFacts.extractVideoId_shape_exact.
  - exact VideoIdFacts.extractVideoId_bare.
  - reflexivity.
  - reflexivity.
Qed.

Lemma C4_witness :
  VideoId.valid_id "dQw4w9WgXcQ"
  /\ VideoId.extractVideoId ("https://m." ++ "youtube.com/shorts/" ++ "dQw4w9WgXcQ" ++ "?feature=share")
     = Some "dQw4w9WgXcQ"
  /\ VideoId.extractVideoId "dQw4w9WgXcQ" = Some "dQw4w9WgXcQ".
Proof.
  assert (V : VideoId.valid_id "dQw4w9WgXcQ") by (split; reflexivity).
  split; [exact V |]. split.
  - apply (proj1 (proj2 (proj2 C4_extractVideoId_total))).
    + reflexivity.
    + simpl. tauto.
    + exact V.
  - apply (proj1 (proj2 (proj2 (proj2 C4_extractVideoId_total)))). exact V.
Defined.

(** C2, as stated, fails in the YouTube route: the route validates the
    address before it asks any provider.  A request whose address
    holds no video identifier carries a source URL and a type, its
    address fails resolution at every provider, and it is answered 400
    ("Invalid YouTube URL"), not 500, nothing having been done. *)
Lemma C2_counterexample :
  searchParams_get Scenes.req_youtube_no_id "youtube_url" = Some "https://example.com/watch"
  /\ searchParams_get Scenes.req_youtube_no_id "type" = Some "mp3"
  /\ YtSpec.providers_fail Examples.w_down "https://example.com/watch" "mp3"
  /\ Yt.GET Examples.w_down Scenes.req_youtube_no_id = bad_request "Invalid YouTube URL"
  /\ ~ Stated.exhausted_gives_500 Examples.w_down Scenes.req_youtube_no_id.
Proof.
  assert (Hfail : YtSpec.providers_fail Examples.w_down "https://example.com/watch" "mp3").
  { intros i [<- | [<- | []]]; reflexivity. }
  split; [reflexivity |]. split; [reflexivity |]. split; [exact Hfail |].
  split; [reflexivity |].
  intros H. destruct (H _ _ eq_refl eq_refl Hfail) as (r & Ha & Hs).
  vm_compute in Ha. injection Ha as <-. discriminate Hs.
Qed.

(** C2, amended.  For every request that passes the validation of its
    route and whose source URL fails resolution at every provider, the
    route responds with status 500 and no storage write occurs: nothing
    is uploaded to the bucket and no metadata row is inserted.  This
    holds in the YouTube route (validation: the address and a type
    [mp3] or [mp4] are present, and a video identifier can be extracted
    from the address), in the TikTok audio route (the address is
    present) and in the TikTok video route (the address and a type
    [mp3] or [mp4] are present).  A request of the YouTube route whose
    address holds no video identifier is answered 400 before any
    provider is asked, whatever the providers would do, and nothing is
    written for it either. *)
Theorem C2_exhausted_providers_500_no_write (w : World) (req : NextRequest) :
  (forall u ty,
      YtSpec.well_formed req u ty -> YtSpec.providers_fail w u ty ->
      exists r,
        answered (Yt.GET w req) r /\ status_is r 500
        /\ error_of r = Some Yt.unavailable
        /\ no_storage_write (trace (Yt.GET w req))
        /\ uploaded (trace (Yt.GET w req)) = []
        /\ inserted (trace (Yt.GET w req)) = [])
  /\ (forall u,
         TikTokMp3Spec.well_formed req u ->
         TikTokMp3Spec.providers_fail w u (TikTokMp4Spec.realUA_of req) ->
         exists r,
           answered (TikTokMp3.GET w req) r /\ status_is r 500
           /\ error_of r = Some TikTokMp3.all_failed
           /\ no_storage_write (trace (TikTokMp3.GET w req))
           /\ uploaded (trace (TikTokMp3.GET w req)) = []
           /\ inserted (trace (TikTokMp3.GET w req)) = [])
  /\ (forall u ty,
         TikTokMp4Spec.well_formed req u ty ->
         TikTokMp4Spec.providers_fail w u ty (TikTokMp4Spec.realUA_of req) ->
         exists r,
           answered (TikTokMp4.GET w req) r /\ status_is r 500
           /\ error_of r
              = Some (if (ty =? "mp4")%string then TikTokMp4.no_video else TikTokMp4.no_music)
           /\ no_storage_write (trace (TikTokMp4.GET w req))
           /\ uploaded (trace (TikTokMp4.GET w req)) = []
           /\ inserted (trace (TikTokMp4.GET w req)) = [])
  /\ (forall u ty,
         searchParams_get req "youtube_url" = Some u -> u <> EmptyString ->
         searchParams_get req "type" = Some ty -> ty = "mp3" \/ ty = "mp4" ->
         VideoId.extractVideoId u = None ->
         Yt.GET w req = bad_request "Invalid YouTube URL"
         /\ no_storage_write (trace (Yt.GET w req))).
Proof.
  assert (Quiet : forall (t tp te : list effect),
             t = (IncrementStat "total_hits" :: tp ++ te)%list ->
             no_storage_write tp -> no_storage_write te ->
             no_storage_write t /\ uploaded t = [] /\ inserted t = []).
  { intros t tp te -> Hp He.
    assert (N : no_storage_write (IncrementStat "total_hits" :: tp ++ te))
      by (apply no_storage_write_cons; [reflexivity | now apply no_storage_write_app]).
    auto using no_storage_write_uploaded, no_storage_write_inserted. }
  split; [| split; [| split]].
  - intros u ty Hwf Hfail.
    destruct (YtFacts.yt_GET_run w req u ty Hwf) as (Ht & Ho). cbv zeta in *.
    destruct Hwf as (_ & _ & _ & _ & Hid).
    destruct (VideoId.extractVideoId u) as [videoId |] eqn:Eid; [| congruence].
    destruct (YtFacts.yt_process_exhausted w u ty videoId (Yt.realUA_of req) (userIP_of req)
                Eid Hfail) as (Hthrow & Hquiet).
    rewrite Hthrow in Ht, Ho. eexists. split; [exact Ho |].
    split; [reflexivity |]. split; [reflexivity |].
    eapply Quiet; [exact Ht | exact Hquiet | reflexivity].
  - intros u Hwf Hfail.
    destruct (TikTokMp3Facts.mp3_GET_run w req u Hwf) as (Ht & Ho). cbv zeta in *.
    destruct (TikTokMp3Facts.mp3_process_exhausted w u
                (TikTokMp3Spec.instantAppearance_of req)
                (TikTokMp4Spec.realUA_of req) (userIP_of req) Hfail) as (Hthrow & Hquiet).
    rewrite Hthrow in Ht, Ho. eexists. split; [exact Ho |].
    split; [reflexivity |]. split; [reflexivity |].
    eapply Quiet; [exact Ht | exact Hquiet | reflexivity].
  - intros u ty Hwf Hfail.
    destruct (TikTokMp4Facts.mp4_GET_run w req u ty Hwf) as (Ht & Ho). cbv zeta in *.
    destruct Hwf as (_ & _ & _ & Hty).
    destruct (TikTokMp4Facts.mp4_process_exhausted w u ty (TikTokMp4Spec.autoShow_of req)
                (TikTokMp4Spec.realUA_of req) (userIP_of req) Hty Hfail)
      as (Hthrow & Htrace).
    destruct (TikTokMp4Facts.mp4_resolve_exhausted w u ty (TikTokMp4Spec.realUA_of req) Hfail)
      as (_ & _ & Hquiet).
    rewrite <- Htrace in Hquiet.
    rewrite Hthrow in Ht, Ho. eexists. split; [exact Ho |].
    split; [reflexivity |]. split; [reflexivity |].
    eapply Quiet; [exact Ht | exact Hquiet | reflexivity].
  - intros u ty Hu Hne Hty Hmp Hid.
    assert (E : Yt.GET w req = bad_request "Invalid YouTube URL").
    { unfold Yt.GET.
      rewrite Hu, Hty, (falsy_str_some u Hne), !(Validation.or_default_some _ _ Hne).
      destruct Hmp; subst ty; cbn; now rewrite Hid. }
    split; [exact E |]. now rewrite E.
Qed.

Lemma C2_witness :
  YtSpec.well_formed (Examples.req_youtube "mp3") Examples.youtube_address "mp3"
  /\ YtSpec.providers_fail Examples.w_down Examples.youtube_address "mp3"
  /\ exists r,
       answered (Yt.GET Examples.w_down (Examples.req_youtube "mp3")) r
       /\ status_is r 500
       /\ error_of r = Some Yt.unavailable
       /\ no_storage_write (trace (Yt.GET Examples.w_down (Examples.req_youtube "mp3")))
       /\ uploaded (trace (Yt.GET Examples.w_down (Examples.req_youtube "mp3"))) = []
       /\ inserted (trace (Yt.GET Examples.w_down (Examples.req_youtube "mp3"))) = [].
Proof.
  assert (Hwf : YtSpec.well_formed (Examples.req_youtube "mp3") Examples.youtube_address "mp3").
  { repeat split; try reflexivity; try discriminate. now left. }
  assert (Hfail : YtSpec.providers_fail Examples.w_down Examples.youtube_address "mp3").
  { intros i [<- | [<- | []]]; reflexivity. }
  split; [exact Hwf |]. split; [exact Hfail |].
  exact (proj1 (C2_exhausted_providers_500_no_write Examples.w_down (Examples.req_youtube "mp3"))
           Examples.youtube_address "mp3" Hwf Hfail).
Defined.

(** C3. For every successful download request, exactly one of the two
    media path fields of the persisted record is non-null, and it is the
    one of the requested type: [mp4] populates the video path with
    [id.mp4] and leaves the audio path null, [mp3] populates the audio
    path with [id.mp3] and leaves the video path null.  A successful
    request of the YouTube route or of the TikTok video route hands
    exactly one row to [insert], and the row has that shape; the audio
    route, whose table has no video path, writes one row with its audio
    path populated. *)
Theorem C3_one_path_matching_type (w : World) (req : NextRequest) :
  (forall r,
      answered (Yt.GET w req) r -> is_success r = true ->
      exists ty row,
        searchParams_get req "type" = Some ty
        /\ inserted (trace (Yt.GET w req)) = [("yt_downloads", row)]
        /\ Stated.one_path (randomUUID w) ty row)
  /\ (forall r,
         answered (TikTokMp4.GET w req) r -> is_success r = true ->
         exists ty row,
           searchParams_get req "type" = Some ty
           /\ inserted (trace (TikTokMp4.GET w req)) = [("tiktok_downloads", row)]
           /\ Stated.one_path (randomUUID w) ty row)
  /\ (forall r,
         answered (TikTokMp3.GET w req) r -> is_success r = true ->
         exists row,
           inserted (trace (TikTokMp3.GET w req)) = [("tiktok_mp3s", row)]
           /\ get_opt row "mp3_path" = JStr (randomUUID w ++ ".mp3")
           /\ get_opt row "mp4_path" = JUndefined).
Proof.
  split; [| split].
  - intros r Ha Hs.
    destruct (Validation.yt_validated w req) as [[msg E] | (u & ty & Hwf)].
    { unfold answered in Ha. rewrite E in Ha. inversion Ha; subst. discriminate. }
    pose proof (YtFacts.yt_GET_success w req u ty r Hwf Ha Hs) as Ho.
    rewrite (YtFacts.yt_GET_inserted w req u ty Hwf).
    destruct Hwf as (_ & _ & Hty & Hmp & Hid).
    destruct (VideoId.extractVideoId u) as [videoId |] eqn:Eid; [| congruence].
    destruct (YtFacts.yt_process_delivery w u ty videoId (Yt.realUA_of req) (userIP_of req)
                Eid Hmp) as [(_ & e & He) | (row & Hins & _ & H4 & H3 & _)];
      cbv zeta in *; [congruence |].
    exists ty, row. split; [exact Hty |]. split; [exact Hins |].
    unfold Stated.one_path. destruct Hmp; subst ty; [right | left]; auto.
  - intros r Ha Hs.
    destruct (Validation.tiktok_video_validated w req) as [[msg E] | (u & ty & Hwf)].
    { unfold answered in Ha. rewrite E in Ha. inversion Ha; subst. discriminate. }
    pose proof (TikTokMp4Facts.mp4_GET_success w req u ty r Hwf Ha Hs) as Ho.
    rewrite (TikTokMp4Facts.mp4_GET_inserted w req u ty Hwf).
    destruct Hwf as (_ & _ & Hty & Hmp).
    destruct (TikTokMp4Facts.mp4_process_delivery w u ty (TikTokMp4Spec.autoShow_of req)
                (TikTokMp4Spec.realUA_of req) (userIP_of req) Hmp)
      as [(_ & e & He) | (row & Hins & _ & H4 & H3 & _)];
      cbv zeta in *; [congruence |].
    exists ty, row. split; [exact Hty |]. split; [exact Hins |].
    unfold Stated.one_path. destruct Hmp; subst ty; [right | left]; auto.
  - intros r Ha Hs.
    destruct (Validation.tiktok_audio_validated w req) as [[msg E] | (u & Hwf)].
    { unfold answered in Ha. rewrite E in Ha. inversion Ha; subst. discriminate. }
    pose proof (TikTokMp3Facts.mp3_GET_success w req u r Hwf Ha Hs) as Ho.
    rewrite (TikTokMp3Facts.mp3_GET_inserted w req u Hwf).
    destruct (TikTokMp3Facts.mp3_process_delivery w u (TikTokMp3Spec.instantAppearance_of req)
                (TikTokMp4Spec.realUA_of req) (userIP_of req))
      as [(_ & e & He) | (row & Hins & _ & H3 & H4 & _)];
      cbv zeta in *; [congruence |].
    exists row. auto.
Qed.

Lemma C3_witness :
  answered (Yt.GET Examples.w_ok (Examples.req_youtube "mp4"))
    (NextResponse Examples.some_bytes 200
       [("Content-Type", "video/mp4");
        ("Content-Disposition", "inline; filename=" ++ dquote ++ "youtube_3f2a.mp4" ++ dquote)])
  /\ exists ty row,
       searchParams_get (Examples.req_youtube "mp4") "type" = Some ty
       /\ inserted (trace (Yt.GET Examples.w_ok (Examples.req_youtube "mp4")))
          = [("yt_downloads", row)]
       /\ Stated.one_path (randomUUID Examples.w_ok) ty row.
Proof.
  split; [reflexivity |].
  apply (proj1 (C3_one_path_matching_type Examples.w_ok (Examples.req_youtube "mp4"))
           (NextResponse Examples.some_bytes 200
              [("Content-Type", "video/mp4");
               ("Content-Disposition",
                "inline; filename=" ++ dquote ++ "youtube_3f2a.mp4" ++ dquote)])).
  - reflexivity.
  - reflexivity.
Defined.



(** C6, as stated, fails on two routes.  In the TikTok video route a
    successful [mp4] request with [auto_show=false] is answered with an
    envelope that carries no [result_url] (it carries the storage public
    URL as [video_url]); in the TikTok audio route a successful request
    with [instant-appearance=true] is answered with raw inline bytes
    although the kind is audio. *)
Lemma C6_counterexample :
  ~ Stated.delivery_as_stated_tiktok_video Examples.w_ok Examples.req_tiktok_no_show
  /\ ~ Stated.delivery_as_stated_tiktok_audio Examples.w_ok Examples.req_tiktok_audio_instant.
Proof.
  split; intros H.
  - pose proof (H _ eq_refl eq_refl) as [_ R]. vm_compute in R. discriminate.
  - pose proof (H _ eq_refl eq_refl) as [R _]. vm_compute in R. discriminate.
Qed.

(** C6, amended.  For every successful request the shape of the response
    is decided per route.  TikTok video route: raw video bytes with an
    inline Content-Disposition exactly when [auto_show] is not ["false"]
    and the type is [mp4]; the envelope with a [result_url] under the
    lookup endpoint exactly when the type is [mp3]; and for [mp4] with
    [auto_show=false] an envelope whose result carries the storage
    public URL of [id.mp4] as [video_url] and no [result_url].  TikTok
    audio route: immediate delivery is opt-in ([instant-appearance=true],
    absent means no): raw audio bytes inline when opted in, otherwise the
    envelope with a [result_url].  YouTube route: there is no flag, [mp4]
    is answered with raw inline bytes and [mp3] with the envelope with a
    [result_url]. *)
Theorem C6_delivery_by_route (w : World) (req : NextRequest) :
  (forall r,
      answered (TikTokMp4.GET w req) r -> is_success r = true ->
      exists ty,
        searchParams_get req "type" = Some ty
        /\ is_inline_bytes r = TikTokMp4Spec.autoShow_of req && (ty =? "mp4")%string
        /\ has_result_url TikTokMp4.result_base r = (ty =? "mp3")%string
        /\ (ty = "mp4" -> TikTokMp4Spec.autoShow_of req = false ->
            exists res,
              result_of r = Some res
              /\ get_opt res "video_url"
                 = get_opt (storage_getPublicUrl w "tiktok-downloads"
                              (JStr (randomUUID w ++ ".mp4"))) "publicUrl"
              /\ get_opt res "result_url" = JUndefined))
  /\ (forall r,
         answered (TikTokMp3.GET w req) r -> is_success r = true ->
         is_inline_bytes r = TikTokMp3Spec.instantAppearance_of req
         /\ has_result_url TikTokMp3.result_base r
            = negb (TikTokMp3Spec.instantAppearance_of req))
  /\ (forall r,
         answered (Yt.GET w req) r -> is_success r = true ->
         exists ty,
           searchParams_get req "type" = Some ty
           /\ (ty = "mp4" -> is_inline_bytes r = true)
           /\ (ty = "mp3" -> has_result_url Yt.result_base r = true)).
Proof.
  split; [| split].
  - intros r Ha Hs.
    destruct (Validation.tiktok_video_validated w req) as [[msg E] | (u & ty & Hwf)].
    { unfold answered in Ha. rewrite E in Ha. inversion Ha; subst. discriminate. }
    pose proof (TikTokMp4Facts.mp4_GET_success w req u ty r Hwf Ha Hs) as Ho.
    destruct Hwf as (_ & _ & Hty & Hmp).
    destruct (TikTokMp4Facts.mp4_process_delivery w u ty (TikTokMp4Spec.autoShow_of req)
                (TikTokMp4Spec.realUA_of req) (userIP_of req) Hmp)
      as [(_ & e & He) | (row & _ & _ & _ & _ & Hend)];
      cbv zeta in *; [congruence |].
    destruct (db_insert w "tiktok_downloads" row) as [e | dbError]; [congruence |].
    destruct Hend as (_ & r' & Hr' & _ & Hinline & Hurl & Hvideo).
    assert (r' = r) by congruence. subst r'. exists ty. auto.
  - intros r Ha Hs.
    destruct (Validation.tiktok_audio_validated w req) as [[msg E] | (u & Hwf)].
    { unfold answered in Ha. rewrite E in Ha. inversion Ha; subst. discriminate. }
    pose proof (TikTokMp3Facts.mp3_GET_success w req u r Hwf Ha Hs) as Ho.
    destruct (TikTokMp3Facts.mp3_process_delivery w u (TikTokMp3Spec.instantAppearance_of req)
                (TikTokMp4Spec.realUA_of req) (userIP_of req))
      as [(_ & e & He) | (row & _ & _ & _ & _ & Hend)];
      cbv zeta in *; [congruence |].
    destruct (db_insert w "tiktok_mp3s" row) as [e | dbError]; [congruence |].
    destruct Hend as (_ & r' & Hr' & _ & Hinline & Hurl).
    assert (r' = r) by congruence. subst r'. auto.
  - intros r Ha Hs.
    destruct (Validation.yt_validated w req) as [[msg E] | (u & ty & Hwf)].
    { unfold answered in Ha. rewrite E in Ha. inversion Ha; subst. discriminate. }
    pose proof (YtFacts.yt_GET_success w req u ty r Hwf Ha Hs) as Ho.
    destruct Hwf as (_ & _ & Hty & Hmp & Hid).
    destruct (VideoId.extractVideoId u) as [videoId |] eqn:Eid; [| congruence].
    destruct (YtFacts.yt_process_delivery w u ty videoId (Yt.realUA_of req) (userIP_of req)
                Eid Hmp) as [(_ & e & He) | (row & _ & _ & _ & _ & Hend)];
      cbv zeta in *; [congruence |].
    destruct (db_insert w "yt_downloads" row) as [e | [e |]]; [congruence | congruence |].
    destruct Hend as (r' & Hr' & _ & Hinline & Hurl).
    assert (r' = r) by congruence. subst r'. exists ty. auto.
Qed.

Lemma C6_witness :
  exists r ty,
    answered (TikTokMp4.GET Examples.w_ok Examples.req_tiktok_no_show) r
    /\ is_success r = true
    /\ searchParams_get Examples.req_tiktok_no_show "type" = Some ty
    /\ is_inline_bytes r
       = TikTokMp4Spec.autoShow_of Examples.req_tiktok_no_show && (ty =? "mp4")%string
    /\ has_result_url TikTokMp4.result_base r = (ty =? "mp3")%string.
Proof.
  eexists.
  destruct (proj1 (C6_delivery_by_route Examples.w_ok Examples.req_tiktok_no_show)
              _ eq_refl eq_refl) as (ty & Hty & Hin & Hurl & _).
  exists ty. repeat split; assumption.
Defined.

(** C7, as stated, fails: metadata enrichment raises on an address from
    which no video identifier can be extracted. *)
Lemma C7_counterexample :
  outcome (Yt.getVideoInfo Examples.w_ok "https://example.com/watch")
  = inl (mkError "Invalid YouTube URL")
  /\ ~ Stated.enrichment_never_raises Examples.w_ok.
Proof.
  split; [reflexivity |].
  intros H. destruct (H "https://example.com/watch") as [info Hinfo].
  vm_compute in Hinfo. discriminate.
Qed.

(** C7, amended.  Metadata enrichment raises only at its guard, when no
    video identifier can be extracted from the address (it throws
    "Invalid YouTube URL").  For every address with an extractable
    identifier it never raises and always produces a usable result (a
    title and an author that are not empty, and the thumbnail URL built
    from the identifier); on any failure of the embed-info fetch (the
    call throws, the status is not a success, the body cannot be read as
    JSON, or it is null) the result is the fixed placeholder triple
    ("YouTube Video", "Unknown", the thumbnail URL built from the
    identifier).  It writes nothing to storage. *)
Theorem C7_enrichment_behind_guard (w : World) (u : string) :
  match VideoId.extractVideoId u with
  | Some videoId =>
      exists info,
        outcome (Yt.getVideoInfo w u) = inr info
        /\ YtSpec.usable info
        /\ Yt.thumbnail info = Yt.thumbnail_of videoId
        /\ (YtSpec.embed_info_fails w videoId -> info = Yt.placeholder videoId)
        /\ no_storage_write (trace (Yt.getVideoInfo w u))
  | None => Yt.getVideoInfo w u = ([], inl (mkError "Invalid YouTube URL"))
  end.
Proof.
  destruct (VideoId.extractVideoId u) as [videoId |] eqn:Eid.
  - destruct (YtFacts.getVideoInfo_valid w u videoId Eid)
      as (info & tl & E & _ & Hn & Hth & Hus & Hph).
    exists info. rewrite E. repeat split; try assumption; apply Hus.
  - now apply YtFacts.getVideoInfo_invalid.
Qed.

Lemma C7_witness :
  YtSpec.embed_info_fails Examples.w_down "dQw4w9WgXcQ"
  /\ exists info,
       outcome (Yt.getVideoInfo Examples.w_down Examples.youtube_address) = inr info
       /\ YtSpec.usable info
       /\ Yt.thumbnail info = Yt.thumbnail_of "dQw4w9WgXcQ"
       /\ (YtSpec.embed_info_fails Examples.w_down "dQw4w9WgXcQ" ->
           info = Yt.placeholder "dQw4w9WgXcQ")
       /\ no_storage_write (trace (Yt.getVideoInfo Examples.w_down Examples.youtube_address)).
Proof.
  split; [exact I |].
  exact (C7_enrichment_behind_guard Examples.w_down Examples.youtube_address).
Defined.

(** C8, as stated, fails: the endpoint answers 404 to every error the
    query reports, not only to an absent row.  When the datastore is
    out of reach and the query layer reports it (no data, and an error
    that is not the one of an absent row), the answer is 404
    "Download not found", not 500. *)
Lemma C8_counterexample :
  Stated.reported_failure Scenes.w_outage "3f2a"
  /\ answered (YtResult.GET Scenes.w_outage "3f2a")
       (prettyJson (error_envelope "Download not found") (Some 404))
  /\ ~ Stated.other_failure_gives_500 Scenes.w_outage "3f2a".
Proof.
  assert (F : Stated.reported_failure Scenes.w_outage "3f2a").
  { exists JNull, Scenes.outage. split; [reflexivity |]. split; [reflexivity | discriminate]. }
  split; [exact F |]. split; [reflexivity |].
  intros H. destruct (H F) as (r & Ha & Hs).
  vm_compute in Ha. injection Ha as <-. discriminate Hs.
Qed.

(** C8, amended.  For every identifier given to the result-lookup
    endpoint: when the query resolves with an error, whatever the error
    is (an absent row, a refused request, an outage), or with no data,
    the answer is 404 with [{status:false, error:"Download not found"}];
    a row whose path fields are both null yields 404 with
    [{status:false, error:"File not found"}]; and the answer is 500
    exactly when the query itself throws (the awaited promise is
    rejected), in which case it is the generic envelope
    "Internal server error", whatever the exception was.  The handler
    itself never throws. *)
Theorem C8_lookup_failures (w : World) (id : string) :
  (forall meta metaError,
      db_select_single w "yt_downloads" id = inr (meta, metaError) ->
      truthy metaError = true \/ truthy meta = false ->
      answered (YtResult.GET w id)
        (prettyJson (error_envelope "Download not found") (Some 404)))
  /\ (forall meta,
         YtResultSpec.row_found w id meta ->
         get_opt meta "mp3_path" = JNull -> get_opt meta "mp4_path" = JNull ->
         answered (YtResult.GET w id)
           (prettyJson (error_envelope "File not found") (Some 404)))
  /\ (YtResultSpec.lookup_throws w id ->
      answered (YtResult.GET w id) YtResultSpec.generic_failure)
  /\ (forall r,
         answered (YtResult.GET w id) r -> status_is r 500 ->
         r = YtResultSpec.generic_failure /\ YtResultSpec.lookup_throws w id)
  /\ (exists r, answered (YtResult.GET w id) r).
Proof.
  split; [| split; [| split; [| split]]].
  - intros meta metaError E H. unfold answered.
    assert (M : YtResultSpec.row_missing w id) by (exists meta, metaError; auto).
    now rewrite (YtResultFacts.GET_row_missing w id M).
  - intros meta H H3 H4. unfold answered.
    rewrite (YtResultFacts.GET_row_found w id meta H).
    now rewrite (YtResultFacts.filePath_null meta H3 H4).
  - intros H. unfold answered. now rewrite (YtResultFacts.GET_lookup_throws w id H).
  - intros r Ha Hs. unfold answered in Ha.
    destruct (YtResultFacts.lookup_cases w id) as [H | [[meta H] | H]].
    + rewrite (YtResultFacts.GET_row_missing w id H) in Ha.
      inversion Ha; subst. discriminate.
    + rewrite (YtResultFacts.GET_row_found w id meta H) in Ha.
      destruct (truthy (YtResult.filePath_of meta)); inversion Ha; subst;
        unfold status_is in Hs; cbn in Hs; try discriminate.
    + rewrite (YtResultFacts.GET_lookup_throws w id H) in Ha.
      split; [now inversion Ha | exact H].
  - unfold answered.
    destruct (YtResultFacts.lookup_cases w id) as [H | [[meta H] | H]].
    + rewrite (YtResultFacts.GET_row_missing w id H). eexists. reflexivity.
    + rewrite (YtResultFacts.GET_row_found w id meta H). eexists. reflexivity.
    + rewrite (YtResultFacts.GET_lookup_throws w id H). eexists. reflexivity.
Qed.

Lemma C8_witness :
  db_select_single Scenes.w_outage "yt_downloads" "3f2a" = inr (JNull, Scenes.outage)
  /\ YtResultSpec.row_found Examples.w_ok "dead" Examples.empty_row
  /\ YtResultSpec.lookup_throws Examples.w_down "3f2a"
  /\ answered (YtResult.GET Scenes.w_outage "3f2a")
       (prettyJson (error_envelope "Download not found") (Some 404))
  /\ answered (YtResult.GET Examples.w_ok "dead")
       (prettyJson (error_envelope "File not found") (Some 404))
  /\ answered (YtResult.GET Examples.w_down "3f2a") YtResultSpec.generic_failure.
Proof.
  assert (F : YtResultSpec.row_found Examples.w_ok "dead" Examples.empty_row).
  { eexists. split; [reflexivity |]. split; reflexivity. }
  assert (T : YtResultSpec.lookup_throws Examples.w_down "3f2a").
  { eexists. reflexivity. }
  split; [reflexivity |]. split; [exact F |]. split; [exact T |].
  split; [| split].
  - apply (proj1 (C8_lookup_failures Scenes.w_outage "3f2a") JNull Scenes.outage).
    + reflexivity.
    + left. reflexivity.
  - exact (proj1 (proj2 (C8_lookup_failures Examples.w_ok "dead"))
             Examples.empty_row F eq_refl eq_refl).
  - exact (proj1 (proj2 (proj2 (C8_lookup_failures Examples.w_down "3f2a"))) T).
Defined.

(** C9. Metadata-write failure handling diverges across routes.  When
    the datastore answers the insert with an error: the YouTube route
    aborts the request with a 500 ("Failed to save metadata: ..."),
    while the TikTok video route and the TikTok audio route only log the
    error ("DB Error:") and still return their success response. *)
Theorem C9_insert_error_divergence (w : World) (req : NextRequest) (row : jsval) (e : Error) :
  (In ("yt_downloads", row) (inserted (trace (Yt.GET w req))) ->
   db_insert w "yt_downloads" row = inr (Some e) ->
   answered (Yt.GET w req)
     (prettyJson (error_envelope ("Failed to save metadata: " ++ message e)) (Some 500)))
  /\ (In ("tiktok_downloads", row) (inserted (trace (TikTokMp4.GET w req))) ->
      db_insert w "tiktok_downloads" row = inr (Some e) ->
      exists r,
        answered (TikTokMp4.GET w req) r /\ is_success r = true
        /\ In (ConsoleError "DB Error:") (trace (TikTokMp4.GET w req)))
  /\ (In ("tiktok_mp3s", row) (inserted (trace (TikTokMp3.GET w req))) ->
      db_insert w "tiktok_mp3s" row = inr (Some e) ->
      exists r,
        answered (TikTokMp3.GET w req) r /\ is_success r = true
        /\ In (ConsoleError "DB Error:") (trace (TikTokMp3.GET w req))).
Proof.
  split; [| split].
  - intros Hin Herr.
    destruct (Validation.yt_validated w req) as [[msg E] | (u & ty & Hwf)].
    { rewrite E in Hin. destruct Hin. }
    rewrite (YtFacts.yt_GET_inserted w req u ty Hwf) in Hin.
    pose proof Hwf as (_ & _ & _ & Hmp & Hid).
    destruct (VideoId.extractVideoId u) as [videoId |] eqn:Eid; [| congruence].
    destruct (YtFacts.yt_process_delivery w u ty videoId (Yt.realUA_of req) (userIP_of req)
                Eid Hmp) as [(Hnil & _) | (row' & Hins & _ & _ & _ & Hend)];
      cbv zeta in *.
    { rewrite Hnil in Hin. destruct Hin. }
    rewrite Hins in Hin. destruct Hin as [Heq | []]. inversion Heq; subst row'.
    rewrite Herr in Hend.
    exact (YtFacts.yt_GET_failure w req u ty _ Hwf Hend).
  - intros Hin Herr.
    destruct (Validation.tiktok_video_validated w req) as [[msg E] | (u & ty & Hwf)].
    { rewrite E in Hin. destruct Hin. }
    rewrite (TikTokMp4Facts.mp4_GET_inserted w req u ty Hwf) in Hin.
    pose proof Hwf as (_ & _ & _ & Hmp).
    destruct (TikTokMp4Facts.mp4_process_delivery w u ty (TikTokMp4Spec.autoShow_of req)
                (TikTokMp4Spec.realUA_of req) (userIP_of req) Hmp)
      as [(Hnil & _) | (row' & Hins & _ & _ & _ & Hend)];
      cbv zeta in *.
    { rewrite Hnil in Hin. destruct Hin. }
    rewrite Hins in Hin. destruct Hin as [Heq | []]. inversion Heq; subst row'.
    rewrite Herr in Hend. destruct Hend as (Hlog & r & Hr & Hs & _).
    exists r. split; [exact (TikTokMp4Facts.mp4_GET_returns w req u ty r Hwf Hr) |].
    split; [exact Hs |].
    apply (TikTokMp4Facts.mp4_GET_trace_incl w req u ty _ Hwf). apply Hlog. discriminate.
  - intros Hin Herr.
    destruct (Validation.tiktok_audio_validated w req) as [[msg E] | (u & Hwf)].
    { rewrite E in Hin. destruct Hin. }
    rewrite (TikTokMp3Facts.mp3_GET_inserted w req u Hwf) in Hin.
    destruct (TikTokMp3Facts.mp3_process_delivery w u (TikTokMp3Spec.instantAppearance_of req)
                (TikTokMp4Spec.realUA_of req) (userIP_of req))
      as [(Hnil & _) | (row' & Hins & _ & _ & _ & Hend)];
      cbv zeta in *.
    { rewrite Hnil in Hin. destruct Hin. }
    rewrite Hins in Hin. destruct Hin as [Heq | []]. inversion Heq; subst row'.
    rewrite Herr in Hend. destruct Hend as (Hlog & r & Hr & Hs & _).
    exists r. split; [exact (TikTokMp3Facts.mp3_GET_returns w req u r Hwf Hr) |].
    split; [exact Hs |].
    apply (TikTokMp3Facts.mp3_GET_trace_incl w req u _ Hwf). apply Hlog. discriminate.
Qed.

Lemma C9_witness :
  exists row e,
    In ("yt_downloads", row)
      (inserted (trace (Yt.GET Examples.w_insert_fails (Examples.req_youtube "mp3"))))
    /\ db_insert Examples.w_insert_fails "yt_downloads" row = inr (Some e)
    /\ answered (Yt.GET Examples.w_insert_fails (Examples.req_youtube "mp3"))
         (prettyJson (error_envelope ("Failed to save metadata: " ++ message e)) (Some 500))
    /\ exists r,
         answered (TikTokMp4.GET Examples.w_insert_fails (Examples.req_tiktok "mp4")) r
         /\ is_success r = true
         /\ In (ConsoleError "DB Error:")
              (trace (TikTokMp4.GET Examples.w_insert_fails (Examples.req_tiktok "mp4"))).
Proof.
  eexists _, (mkError "duplicate key").
  split; [left; reflexivity |]. split; [reflexivity |]. split.
  - eapply (proj1 (C9_insert_error_divergence Examples.w_insert_fails
                     (Examples.req_youtube "mp3") _ (mkError "duplicate key"))).
    + left. reflexivity.
    + reflexivity.
  - eapply (proj1 (proj2 (C9_insert_error_divergence Examples.w_insert_fails
                            (Examples.req_tiktok "mp4") _ (mkError "duplicate key")))).
    + left. reflexivity.
    + reflexivity.
Defined.

(** C10. In the result-lookup endpoint the public URL is derived from
    the mp3 path if present and otherwise from the mp4 path, and it is
    always returned under the single field name [mp3_url].  So for a
    record created with type [mp4] (its mp3 path is null), the public
    URL of the video appears in the [mp3_url] field of the descriptor,
    next to [type: "mp4"]. *)
Theorem C10_public_url_under_mp3_url (w : World) (id : string) (meta : jsval) :
  YtResultSpec.row_found w id meta ->
  truthy (YtResult.filePath_of meta) = true ->
  YtResult.filePath_of meta
  = (if truthy (get_opt meta "mp3_path")
     then get_opt meta "mp3_path" else get_opt meta "mp4_path")
  /\ (exists res,
         answered (YtResult.GET w id)
           (prettyJson (JObj [("status", JBool true); ("result", res)]) None)
         /\ get_opt res "mp3_url"
            = get_opt (storage_getPublicUrl w "yt-downloads" (YtResult.filePath_of meta))
                "publicUrl"
         /\ get_opt res "mp4_url" = JUndefined
         /\ get_opt res "type" = get_opt meta "type")
  /\ (forall uuid,
         Stated.one_path uuid "mp4" meta ->
         YtResult.filePath_of meta = JStr (uuid ++ ".mp4")).
Proof.
  intros Hfound Hpath. split; [reflexivity |]. split.
  - eexists. unfold answered.
    rewrite (YtResultFacts.GET_row_found w id meta Hfound), Hpath.
    split; [reflexivity |]. repeat split.
  - intros uuid [(_ & H4 & H3) | (Hty & _)]; [| discriminate].
    unfold YtResult.filePath_of, js_or. now rewrite H3, H4.
Qed.

Lemma C10_witness :
  YtResultSpec.row_found Examples.w_ok "3f2a" Examples.stored_mp4_row
  /\ get_opt Examples.stored_mp4_row "type" = JStr "mp4"
  /\ exists res,
       answered (YtResult.GET Examples.w_ok "3f2a")
         (prettyJson (JObj [("status", JBool true); ("result", res)]) None)
       /\ get_opt res "mp3_url"
          = get_opt (storage_getPublicUrl Examples.w_ok "yt-downloads"
                       (YtResult.filePath_of Examples.stored_mp4_row)) "publicUrl"
       /\ get_opt res "mp4_url" = JUndefined
       /\ get_opt res "type" = get_opt Examples.stored_mp4_row "type".
Proof.
  assert (F : YtResultSpec.row_found Examples.w_ok "3f2a" Examples.stored_mp4_row).
  { eexists. split; [reflexivity |]. split; reflexivity. }
  split; [exact F |]. split; [reflexivity |].
  exact (proj1 (proj2 (C10_public_url_under_mp3_url Examples.w_ok "3f2a"
                         Examples.stored_mp4_row F eq_refl))).
Defined.

(** C1, on the TikTok video route, at a request for [mp3] whose video
    the extractor knows without a music address: the route answers the
    hard failure "No music URL found from any provider" after asking the
    extractor alone.  Neither relay mirror is asked, although the first
    mirror would have resolved the address, and the audio route, given
    the same address by the same third parties, falls through to the
    mirror and succeeds. *)
Theorem C1_hard_failure_without_relay :
  answered (TikTokMp4.GET Examples.w_video_only (Examples.req_tiktok "mp3"))
    (prettyJson (error_envelope "No music URL found from any provider") (Some 500))
  /\ fetched (trace (TikTokMp4.GET Examples.w_video_only (Examples.req_tiktok "mp3")))
     = [JStr (TikTokMp4.tikwm_url Examples.tiktok_address)]
  /\ TikTokMp4Spec.relay_answer Examples.w_video_only Examples.tiktok_address true
       "https://dwnld.nichind.dev"
     = Some (JStr "https://relay.example/file")
  /\ ~ Stated.hard_failure_only_when_exhausted Examples.w_video_only
         (Examples.req_tiktok "mp3") Examples.tiktok_address
  /\ fetched (trace (TikTokMp3.GET Examples.w_video_only Examples.req_tiktok_audio))
     = [JStr (TikTokMp3.tikwm_url Examples.tiktok_address);
        JStr "https://dwnld.nichind.dev";
        JStr "https://relay.example/file"]
  /\ exists r,
       answered (TikTokMp3.GET Examples.w_video_only Examples.req_tiktok_audio) r
       /\ is_success r = true.
Proof.
  split; [reflexivity |]. split; [reflexivity |]. split; [reflexivity |].
  split; [| split; [reflexivity | eexists; split; reflexivity]].
  intros H. specialize (H _ eq_refl (or_intror eq_refl)).
  vm_compute in H. discriminate.
Qed.

(* ===================================================================== *)
(** * Further properties of the routes *)
(* ===================================================================== *)

Lemma stats_lookups tr l : only_lookups tr -> stats (tr ++ l) = stats l.
Proof. intros H. rewrite stats_app. now destruct (only_lookups_quiet _ H) as (-> & _). Qed.

Lemma logged_lookups tr l : only_lookups tr -> logged (tr ++ l) = logged l.
Proof.
  intros H. rewrite logged_app. now destruct (only_lookups_quiet _ H) as (_ & -> & _).
Qed.

Lemma inserted_lookups tr l : only_lookups tr -> inserted (tr ++ l) = inserted l.
Proof.
  intros H. rewrite inserted_app. now destruct (only_lookups_quiet _ H) as (_ & _ & -> & _).
Qed.

Lemma uploaded_lookups tr l : only_lookups tr -> uploaded (tr ++ l) = uploaded l.
Proof.
  intros H. rewrite uploaded_app.
  now destruct (only_lookups_quiet _ H) as (_ & _ & _ & -> & _).
Qed.

Lemma bad_request_accounted hits m msg : m = bad_request msg -> accounted hits m.
Proof. intros ->. left. split; [reflexivity |]. eexists. split; reflexivity. Qed.

Ltac quiet H :=
  cbn [app stats logged inserted uploaded fst snd];
  rewrite ?stats_app, ?logged_app, ?inserted_app, ?uploaded_app;
  rewrite ?(stats_lookups _ _ H), ?(logged_lookups _ _ H),
    ?(inserted_lookups _ _ H), ?(uploaded_lookups _ _ H);
  cbn [app stats logged inserted uploaded fst snd].

Ltac invert_yt Hrun :=
  inversion Hrun as [? ?E | ? ? ? ?E ?F | ? ? ? ?E ?F ?O | ? ? ? ? ?E ?F ?O ?B
                    | ? ? ? ? ? ? ?E ?F ?O ?B ?S]; subst;
  [ | | | | match goal with S : YtRun.store _ _ _ _ _ _ _ _ _ |- _ => inversion S; subst end ].

Ltac invert_mp3 Hrun :=
  inversion Hrun as [?E | ? ? ?E ?F | ? ? ?E ?F ?O | ? ? ? ?E ?F ?O ?B
                    | ? ? ? ? ? ?E ?F ?O ?B ?S]; subst;
  [ | | | |
    match goal with S : TikTokMp3Run.store _ _ _ _ _ _ _ _ |- _ => inversion S; subst end ].

Ltac invert_mp4 Hrun :=
  inversion Hrun as [?Ty ?G | ?Ty ?G | ? ?G ?F | ? ?G ?F ?O | ? ? ?G ?F ?O ?B
                    | ? ? ? ? ?G ?F ?O ?B ?S]; subst;
  [ | | | | |
    match goal with
    | S : TikTokMp4Run.store _ _ _ _ _ _ _ _ _ _ |- _ =>
        inversion S as [ | | ? ? ? ? ?U ?T ?N]; subst;
        [ | |
          match goal with
          | T : TikTokMp4Run.thumb _ _ _ _,
            N : TikTokMp4Run.finish _ _ _ _ _ _ _ _ _ _ _ |- _ =>
              inversion T; subst; inversion N; subst
          end ]
    end ].

Lemma yt_accounted w req : accounted "total_hits" (Yt.GET w req).
Proof.
  destruct (Validation.yt_validated w req) as [(msg & E) | (u & ty & Hwf)].
  { eapply bad_request_accounted; eauto. }
  destruct (Cases.yt_GET_cases w req u ty Hwf) as (tr & tl & out & Hl & Hrun & Ht & Ho).
  unfold accounted, answered. rewrite Ht, Ho. right.
  invert_yt Hrun.
  all: cbn [app stats logged fst snd YtSpec.on_error];
    rewrite <- ?app_assoc; rewrite ?(stats_lookups _ _ Hl), ?(logged_lookups _ _ Hl);
    cbn [app stats logged fst snd].
  all: try (right; split; [reflexivity | split; [reflexivity | eexists; split; reflexivity]]).
  left; split; [reflexivity | split; [reflexivity | eexists; split; [reflexivity |]]].
  destruct Hwf as (_ & _ & _ & [-> | ->] & _); reflexivity.
Qed.

Lemma mp3_accounted w req : accounted "total_hits" (TikTokMp3.GET w req).
Proof.
  destruct (Validation.tiktok_audio_validated w req) as [(msg & E) | (u & Hwf)].
  { eapply bad_request_accounted; eauto. }
  destruct (Cases.mp3_GET_cases w req u Hwf) as (tr & tl & out & Hl & Hrun & Ht & Ho).
  unfold accounted, answered. rewrite Ht, Ho. right.
  invert_mp3 Hrun.
  all: cbn [app stats logged fst snd TikTokMp3On.on_error TikTokMp3Run.closing];
    rewrite <- ?app_assoc; rewrite ?(stats_lookups _ _ Hl), ?(logged_lookups _ _ Hl);
    cbn [app stats logged fst snd].
  all: try (right; split; [reflexivity | split; [reflexivity | eexists; split; reflexivity]]).
  all: left; split; [reflexivity | split; [reflexivity | eexists; split; [reflexivity |]]].
  all: destruct (TikTokMp3Spec.instantAppearance_of req); reflexivity.
Qed.

Lemma mp4_accounted w req : accounted "total_hits" (TikTokMp4.GET w req).
Proof.
  destruct (Validation.tiktok_video_validated w req) as [(msg & E) | (u & ty & Hwf)].
  { eapply bad_request_accounted; eauto. }
  destruct (Cases.mp4_GET_cases w req u ty Hwf)
    as (tr & d & tl & out & Hl & Hres & Hrun & Ht & Ho).
  unfold accounted, answered. rewrite Ht, Ho. right.
  invert_mp4 Hrun.
  all: cbn [app stats logged fst snd TikTokMp4On.on_error TikTokMp4Run.closing];
    rewrite <- ?app_assoc; rewrite ?(stats_lookups _ _ Hl), ?(logged_lookups _ _ Hl);
    cbn [app stats logged fst snd].
  all: try (right; split; [reflexivity | split; [reflexivity | eexists; split; reflexivity]]).
  all: left; split; [reflexivity | split; [reflexivity | eexists; split; [reflexivity |]]].
  all: destruct Hwf as (_ & _ & _ & [-> | ->]);
    destruct (TikTokMp4Spec.autoShow_of req); reflexivity.
Qed.

(* --------------------------------------------------------------------- *)
(** ** Provider resolution *)
(* --------------------------------------------------------------------- *)

(** X1. [downloadFromCobalt] is a fallback chain over [COBALT_INSTANCES]:
    it asks the instances in the order of the list, returns the answer
    of the first one that yields a result without asking the ones after
    it, and throws its fixed message exactly when every instance has
    been asked and has failed.  Whatever happens it only talks to the
    network and the console. *)
Theorem yt_relay_chain (w : World) (u ty : string) :
  only_lookups (trace (Yt.downloadFromCobalt w u ty))
  /\ ((exists before i after d,
          cobalt_instances = (before ++ i :: after)%list
          /\ (forall j, In j before -> YtSpec.provider_answer w u ty j = None)
          /\ YtSpec.provider_answer w u ty i = Some d
          /\ outcome (Yt.downloadFromCobalt w u ty) = inr d
          /\ fetched (trace (Yt.downloadFromCobalt w u ty)) = map JStr (before ++ [i]))
      \/ (YtSpec.providers_fail w u ty
          /\ outcome (Yt.downloadFromCobalt w u ty) = inl (mkError Yt.unavailable)
          /\ fetched (trace (Yt.downloadFromCobalt w u ty)) = map JStr cobalt_instances)).
Proof.
  split; [apply LookupFacts.yt_download_lookups |].
  destruct (outcome (Yt.downloadFromCobalt w u ty)) as [e | d] eqn:E.
  - right. destruct (YtFacts.downloadFromCobalt_throws w u ty e E) as (-> & Hf & Ht). auto.
  - left. destruct (YtFacts.downloadFromCobalt_returns w u ty d E)
      as (before & i & after & Hc & Hb & Hi & Ht).
    exists before, i, after, d. auto.
Qed.

(** X2. One turn of the relay loop of [downloadFromCobalt]: when the
    instance answers with status [tunnel], [redirect] or [stream], its
    answer is returned as it is, whatever its [url] field holds, even
    nothing at all. *)
Theorem yt_relay_answer_taken_unchecked
        (w : World) (i u ty : string) (resp : FetchResponse) (data : jsval) :
  fetch w (JStr i) (Yt.cobalt_init u ty) = inr resp ->
  ok resp = true ->
  json resp = inr data ->
  js_eq_str (get_opt data "status") "tunnel"
  || js_eq_str (get_opt data "status") "redirect"
  || js_eq_str (get_opt data "status") "stream" = true ->
  YtSpec.provider_answer w u ty i
  = Some (Yt.mkDownload (get_opt data "url") (get_opt data "filename")).
Proof.
  intros F O J S.
  assert (Hobj : exists fs, data = JObj fs).
  { destruct data; try (cbn in S; discriminate). eauto. }
  destruct Hobj as (fs & ->).
  unfold YtSpec.provider_answer, yielded, Yt.try_instance. unfold_monad.
  cbn. rewrite F. cbn. rewrite O. cbn. rewrite J. cbn.
  unfold get. cbn. unfold get_opt in S.
  destruct (js_eq_str _ "error") eqn:Ee.
  - exfalso. destruct (assoc "status" fs) as [[] |]; cbn in *; try discriminate.
    apply String.eqb_eq in Ee. subst. discriminate.
  - cbn. rewrite S. reflexivity.
Qed.

Lemma yt_relay_answer_taken_unchecked_witness :
  YtSpec.provider_answer Scenes.w_bare Examples.youtube_address "mp4"
    "https://dwnld.nichind.dev"
  = Some (Yt.mkDownload JUndefined JUndefined).
Proof.
  apply (yt_relay_answer_taken_unchecked Scenes.w_bare "https://dwnld.nichind.dev"
           Examples.youtube_address "mp4" Scenes.bare_response Scenes.relay_bare);
    reflexivity.
Defined.

Lemma mp3_tikwm_answer_truthy w u ua m :
  TikTokMp3Spec.tikwm_answer w u ua = Some m -> truthy m = true.
Proof.
  unfold TikTokMp3Spec.tikwm_answer, yielded, TikTokMp3.tryTikwm. unfold_monad.
  run; intros X; inversion X; subst; assumption.
Qed.

Lemma mp3_relay_answer_truthy w u i m :
  TikTokMp3Spec.relay_answer w u i = Some m -> truthy m = true.
Proof.
  unfold TikTokMp3Spec.relay_answer, yielded, TikTokMp3.try_instance. unfold_monad.
  run; intros X; inversion X; subst; assumption.
Qed.

(** X3. Provider resolution of the audio route never throws and only
    talks to the network.  The extractor is asked first; the relays are
    asked, in the order of their list, only when the extractor gave
    nothing, and none is asked after the first one that answers.  The
    address obtained is never empty, and there is none exactly when the
    extractor and every relay have been asked and have failed. *)
Theorem tiktok_audio_resolution_chain (w : World) (u ua : string) :
  only_lookups (trace (TikTokMp3.resolve w u ua))
  /\ ((exists m,
          TikTokMp3Spec.tikwm_answer w u ua = Some m /\ truthy m = true
          /\ outcome (TikTokMp3.resolve w u ua) = inr (Some m)
          /\ fetched (trace (TikTokMp3.resolve w u ua)) = [JStr (TikTokMp3.tikwm_url u)])
      \/ (exists before i after m,
             TikTokMp3Spec.tikwm_answer w u ua = None
             /\ cobalt_instances = (before ++ i :: after)%list
             /\ (forall j, In j before -> TikTokMp3Spec.relay_answer w u j = None)
             /\ TikTokMp3Spec.relay_answer w u i = Some m /\ truthy m = true
             /\ outcome (TikTokMp3.resolve w u ua) = inr (Some m)
             /\ fetched (trace (TikTokMp3.resolve w u ua))
                = JStr (TikTokMp3.tikwm_url u) :: map JStr (before ++ [i]))
      \/ (TikTokMp3Spec.providers_fail w u ua
          /\ outcome (TikTokMp3.resolve w u ua) = inr None
          /\ fetched (trace (TikTokMp3.resolve w u ua))
             = JStr (TikTokMp3.tikwm_url u) :: map JStr cobalt_instances)).
Proof.
  split; [apply LookupFacts.mp3_resolve_lookups |].
  destruct (TikTokMp3Facts.mp3_resolve_spec w u ua) as (_ & H). cbv zeta in H.
  destruct (TikTokMp3Spec.tikwm_answer w u ua) as [m |] eqn:Et.
  { left. exists m. destruct H as (Ho & Hf).
    repeat split; auto. eapply mp3_tikwm_answer_truthy; eauto. }
  destruct H as (Ho & Hf). right.
  destruct (snd (first_success (TikTokMp3Spec.relay_answer w u) cobalt_instances))
    as [m |] eqn:Es.
  - left.
    destruct (first_success_some _ _ _ Es) as (before & i & Hfst & Hi & Hb).
    destruct (first_success_prefix (TikTokMp3Spec.relay_answer w u) cobalt_instances)
      as (rest & Hrest).
    rewrite Hfst in Hrest, Hf. rewrite <- app_assoc in Hrest.
    exists before, i, rest, m. repeat split; auto.
    eapply mp3_relay_answer_truthy; eauto.
  - right. apply first_success_none in Es as (Hfst & Hall).
    rewrite Hfst in Hf. repeat split; auto.
Qed.

Lemma js_or_null_cases a : js_or a JNull = JNull \/ truthy (js_or a JNull) = true.
Proof. unfold js_or. destruct (truthy a) eqn:E; auto. Qed.

(** X4. The extractor of the video route, [tryTikwm], never throws: it
    sends one request, to the extractor's address, and answers a record
    or nothing.  A record always carries a video address, a title and
    an author that are not empty; its music address and its thumbnail
    address are either [null] or not empty. *)
Theorem tiktok_extractor_record (w : World) (u ua : string) :
  (exists tl,
      TikTokMp4.tryTikwm w u ua
      = (Fetch (JStr (TikTokMp4.tikwm_url u)) (TikTokMp4Run.tikwm_init ua) :: tl,
         inr (TikTokMp4Spec.tikwm_answer w u ua))
      /\ fetched tl = [] /\ only_lookups tl)
  /\ match TikTokMp4Spec.tikwm_answer w u ua with
     | Some d => TikTokMp4Run.sound_record d
     | None => True
     end.
Proof.
  split.
  - pose proof (LookupFacts.mp4_tryTikwm_lookups w u ua) as L.
    destruct (TikTokMp4Facts.mp4_tryTikwm_shape w u ua) as (init & tl & E & Hf & _).
    assert (init = TikTokMp4Run.tikwm_init ua) as ->.
    { revert E. unfold TikTokMp4.tryTikwm, TikTokMp4Run.tikwm_init. unfold_monad.
      run; congruence. }
    exists tl. rewrite E in *. repeat split; auto.
  - unfold TikTokMp4Spec.tikwm_answer, yielded, TikTokMp4.tryTikwm, TikTokMp4Run.sound_record.
    unfold_monad. run; auto; cbn.
    all: repeat split; auto using YtFacts.js_or_truthy, js_or_null_cases.
Qed.

Lemma get_truthy v k : truthy v = true -> get v k = inr (get_opt v k).
Proof. unfold get, get_opt, truthy. destruct v; congruence. Qed.

Lemma get_of_field v k x k' :
  get_opt v k = x -> x <> JUndefined -> get v k' = inr (get_opt v k').
Proof. unfold get, get_opt. destruct v; congruence. Qed.

(** X5. When the extractor answers a request of the video route with a
    readable body (code 0 and a [data] object), the record takes the
    high-definition rendition [hdplay] whenever the body lists one and
    the standard rendition [play] only otherwise; with neither, the
    extractor counts as having failed, whatever else the body lists. *)
Theorem tiktok_extractor_prefers_hd
        (w : World) (u ua : string) (resp : FetchResponse) (data : jsval) :
  fetch w (JStr (TikTokMp4.tikwm_url u)) (TikTokMp4Run.tikwm_init ua) = inr resp ->
  ok resp = true ->
  json resp = inr data ->
  get_opt data "code" = JNum 0 ->
  truthy (get_opt data "data") = true ->
  match TikTokMp4Spec.tikwm_answer w u ua with
  | Some d =>
      TikTokMp4.videoUrl d
      = (if truthy (get_opt (get_opt data "data") "hdplay")
         then get_opt (get_opt data "data") "hdplay"
         else get_opt (get_opt data "data") "play")
      /\ truthy (TikTokMp4.videoUrl d) = true
  | None =>
      truthy (get_opt (get_opt data "data") "hdplay") = false
      /\ truthy (get_opt (get_opt data "data") "play") = false
  end.
Proof.
  intros F O J C D.
  assert (G : forall k, get data k = inr (get_opt data k)).
  { intros k. eapply get_of_field; [exact C | discriminate]. }
  assert (G' : forall k, get (get_opt data "data") k = inr (get_opt (get_opt data "data") k)).
  { intros k. now apply get_truthy. }
  unfold TikTokMp4Spec.tikwm_answer, yielded, TikTokMp4.tryTikwm. unfold_monad.
  fold (TikTokMp4Run.tikwm_init ua).
  cbn. rewrite F. cbn. rewrite O. cbn. rewrite J. cbn. rewrite !G. cbn.
  rewrite C, D. unfold js_neq_zero. cbn. rewrite !G'. cbn. unfold js_or at 1 2.
  destruct (truthy (get_opt (get_opt data "data") "hdplay")) eqn:H; cbn.
  - rewrite H. cbn. auto.
  - destruct (truthy (get_opt (get_opt data "data") "play")) eqn:P; cbn; auto.
Qed.

Lemma tiktok_extractor_prefers_hd_witness :
  match TikTokMp4Spec.tikwm_answer Scenes.w_hd Examples.tiktok_address "Mozilla/5.0" with
  | Some d =>
      TikTokMp4.videoUrl d = JStr "https://cdn.example/v_hd.mp4"
      /\ truthy (TikTokMp4.videoUrl d) = true
  | None => False /\ False
  end.
Proof.
  exact (tiktok_extractor_prefers_hd Scenes.w_hd Examples.tiktok_address "Mozilla/5.0"
           (Examples.json_response Scenes.tikwm_hd) Scenes.tikwm_hd
           eq_refl eq_refl eq_refl eq_refl eq_refl).
Defined.

Lemma hex_digit_plain n : is_delimiter (hex_digit n) = false.
Proof.
  unfold hex_digit.
  do 16 (destruct n as [| n]; [reflexivity |]). destruct n; reflexivity.
Qed.

Lemma unreserved_plain c : uri_unreserved c = true -> is_delimiter c = false.
Proof.
  destruct c as [[] [] [] [] [] [] [] []]; cbv; congruence.
Qed.

Lemma encodeURIComponent_plain s c :
  In c (chars (encodeURIComponent s)) -> is_delimiter c = false.
Proof.
  unfold chars. induction s as [| a s IH]; [intros [] |].
  unfold encodeURIComponent; fold encodeURIComponent.
  destruct (uri_unreserved a) eqn:E; cbn [list_ascii_of_string In].
  - intros [<- | H]; [now apply unreserved_plain | auto].
  - intros [<- | [<- | [<- | H]]]; auto using hex_digit_plain.
Qed.

(** X6. The caller's text reaches a provider as one query value: the
    addresses requested from the extractor (both TikTok routes) and
    from the image generator are a fixed prefix, the escaped text and a
    fixed suffix, and the escaped text holds none of the characters
    that delimit the parts of an address, so no text can add or
    override a parameter of the provider request. *)
Theorem provider_query_is_one_value (s : string) :
  exists v,
    (forall c, In c (chars v) -> is_delimiter c = false)
    /\ TikTokMp4.tikwm_url s = "https://www.tikwm.com/api/?url=" ++ v ++ "&hd=1"
    /\ TikTokMp3.tikwm_url s = "https://www.tikwm.com/api/?url=" ++ v
    /\ ImagenRun.flux_url s = "https://api.siputzx.my.id/api/ai/flux?prompt=" ++ v.
Proof.
  exists (encodeURIComponent s). split; [apply encodeURIComponent_plain |].
  repeat split.
Qed.

(* --------------------------------------------------------------------- *)
(** ** Bookkeeping *)
(* --------------------------------------------------------------------- *)

(** X7. Counters and request log of the three downloader routes, the
    calls to [incrementStat] and [logApiRequest] returning normally: a
    request turned away with a 400 is neither counted nor logged; every
    other request is counted once under [total_hits], then once under
    [total_success] or under [total_errors], and logged exactly once,
    with status 200 in the first case and 500 in the second, which is
    the status it is answered with. *)
Theorem downloader_requests_accounted (w : World) (req : NextRequest) :
  accounted "total_hits" (Yt.GET w req)
  /\ accounted "total_hits" (TikTokMp4.GET w req)
  /\ accounted "total_hits" (TikTokMp3.GET w req).
Proof.
  split; [apply yt_accounted | split; [apply mp4_accounted | apply mp3_accounted]].
Qed.

Lemma backed_nil w bucket t : inserted t = [] -> backed_by_upload w bucket t.
Proof. intros H table row. rewrite H. intros []. Qed.

Lemma backed_intro w bucket t l1 key body ct l2 table row l3 :
  t = (l1 ++ StorageUpload bucket key body ct :: l2 ++ DbInsert table row :: l3)%list ->
  storage_upload w bucket key body ct = inr None ->
  get_opt row "mp4_path" = JStr key \/ get_opt row "mp3_path" = JStr key ->
  inserted l1 = [] -> inserted l2 = [] -> inserted l3 = [] ->
  backed_by_upload w bucket t.
Proof.
  intros -> Hu Hp H1 H2 H3 table' row'.
  rewrite inserted_app. cbn [inserted]. rewrite inserted_app, H1, H2. cbn [inserted app].
  rewrite H3. intros [[= <- <-] | []].
  exists l1, l2, l3, key, body, ct. auto.
Qed.

Ltac backed Hl :=
  lazymatch goal with
  | |- backed_by_upload ?w _
         (?h :: (?tr ++ ?f :: StorageUpload ?b ?k ?body ?ct :: ?rest) ++ ?tail)%list =>
      lazymatch rest with
      | DbInsert ?t ?r :: ?rest' =>
          apply (backed_intro w b _ (h :: tr ++ [f])%list k body ct [] t r
                   (rest' ++ tail)%list)
      | (?tt ++ DbInsert ?t ?r :: ?rest')%list =>
          apply (backed_intro w b _ (h :: tr ++ [f])%list k body ct tt t r
                   (rest' ++ tail)%list)
      | _ => apply backed_nil
      end
  | |- _ => apply backed_nil
  end;
  try assumption;
  try (cbn [app inserted fst snd YtSpec.on_error TikTokMp3On.on_error TikTokMp4On.on_error
              TikTokMp3Run.closing TikTokMp4Run.closing];
       rewrite <- ?app_assoc; cbn [app inserted];
       rewrite ?inserted_app, ?(inserted_lookups _ _ Hl);
       rewrite ?(proj1 (proj2 (proj2 (only_lookups_quiet _ Hl))));
       cbn [app inserted]; reflexivity).

Lemma yt_backed w req : backed_by_upload w "yt-downloads" (trace (Yt.GET w req)).
Proof.
  destruct (Validation.yt_validated w req) as [(msg & E) | (u & ty & Hwf)].
  { rewrite E. now apply backed_nil. }
  destruct (Cases.yt_GET_cases w req u ty Hwf) as (tr & tl & out & Hl & Hrun & Ht & Ho).
  rewrite Ht. clear Ht Ho.
  assert (Hp : forall info,
             get_opt (YtRun.row_of w u ty info) "mp4_path" = JStr (YtRun.fileName_of w ty)
             \/ get_opt (YtRun.row_of w u ty info) "mp3_path"
                = JStr (YtRun.fileName_of w ty)).
  { intros info. destruct Hwf as (_ & _ & _ & [-> | ->] & _); [right | left]; reflexivity. }
  invert_yt Hrun; backed Hl; apply Hp.
Qed.

Lemma mp3_backed w req : backed_by_upload w "tiktok-mp3s" (trace (TikTokMp3.GET w req)).
Proof.
  destruct (Validation.tiktok_audio_validated w req) as [(msg & E) | (u & Hwf)].
  { rewrite E. now apply backed_nil. }
  destruct (Cases.mp3_GET_cases w req u Hwf) as (tr & tl & out & Hl & Hrun & Ht & Ho).
  rewrite Ht. clear Ht Ho.
  invert_mp3 Hrun; backed Hl; right; reflexivity.
Qed.

Lemma mp4_backed w req :
  backed_by_upload w "tiktok-downloads" (trace (TikTokMp4.GET w req)).
Proof.
  destruct (Validation.tiktok_video_validated w req) as [(msg & E) | (u & ty & Hwf)].
  { rewrite E. now apply backed_nil. }
  destruct (Cases.mp4_GET_cases w req u ty Hwf)
    as (tr & d & tl & out & Hl & Hres & Hrun & Ht & Ho).
  rewrite Ht. clear Ht Ho.
  assert (Hp : forall p,
             get_opt (TikTokMp4Run.row_of w u ty d p) "mp4_path"
             = JStr (TikTokMp4Run.key_of w ty)
             \/ get_opt (TikTokMp4Run.row_of w u ty d p) "mp3_path"
                = JStr (TikTokMp4Run.key_of w ty)).
  { intros p. destruct Hwf as (_ & _ & _ & [-> | ->]); [right | left]; reflexivity. }
  invert_mp4 Hrun; backed Hl; apply Hp.
Qed.

(* --------------------------------------------------------------------- *)
(** ** Storage *)
(* --------------------------------------------------------------------- *)

(** X8. In the three downloader routes a metadata row is written only
    for an object that is in storage: whenever a row is handed to
    [insert], an object was uploaded to the bucket of the route earlier
    in the same request, the storage acknowledged that upload, and the
    row names the key of that object under [mp4_path] or [mp3_path]. *)
Theorem row_names_stored_object (w : World) (req : NextRequest) :
  backed_by_upload w "yt-downloads" (trace (Yt.GET w req))
  /\ backed_by_upload w "tiktok-downloads" (trace (TikTokMp4.GET w req))
  /\ backed_by_upload w "tiktok-mp3s" (trace (TikTokMp3.GET w req)).
Proof.
  split; [apply yt_backed | split; [apply mp4_backed | apply mp3_backed]].
Qed.

Ltac find_in := cbn [In app]; rewrite ?in_app_iff; cbn [In]; auto 12.

Ltac relayed_here :=
  lazymatch goal with
  | F : fetch ?w ?a ?i = inr ?resp, O : ok ?resp = true,
    B : arrayBuffer ?resp = inr ?buffer,
    U : storage_upload ?w ?bk ?k ?buffer ?ct = inr None |- relayed _ ?bk _ ?buffer =>
      exists a, i, resp, k, ct; repeat split; auto; find_in
  end.

Lemma yt_delivers_stored w req : delivers_stored w "yt-downloads" (Yt.GET w req).
Proof.
  intros r b. unfold answered.
  destruct (Validation.yt_validated w req) as [(msg & E) | (u & ty & Hwf)].
  { rewrite E. cbn. intros [= <-]. discriminate. }
  destruct (Cases.yt_GET_cases w req u ty Hwf) as (tr & tl & out & Hl & Hrun & Ht & Ho).
  rewrite Ht, Ho. clear Ht Ho. intros [= <-].
  invert_yt Hrun; try discriminate.
  unfold YtRun.delivered. destruct (ty =? "mp4")%string; [| discriminate].
  cbn. intros [= <-]. relayed_here.
Qed.

Lemma mp3_delivers_stored w req : delivers_stored w "tiktok-mp3s" (TikTokMp3.GET w req).
Proof.
  intros r b. unfold answered.
  destruct (Validation.tiktok_audio_validated w req) as [(msg & E) | (u & Hwf)].
  { rewrite E. cbn. intros [= <-]. discriminate. }
  destruct (Cases.mp3_GET_cases w req u Hwf) as (tr & tl & out & Hl & Hrun & Ht & Ho).
  rewrite Ht, Ho. clear Ht Ho. intros [= <-].
  invert_mp3 Hrun; try discriminate.
  all: unfold TikTokMp3Run.delivered;
    destruct (TikTokMp3Spec.instantAppearance_of req); [| discriminate];
    cbn; intros [= <-]; relayed_here.
Qed.

Lemma mp4_delivers_stored w req :
  delivers_stored w "tiktok-downloads" (TikTokMp4.GET w req).
Proof.
  intros r b. unfold answered.
  destruct (Validation.tiktok_video_validated w req) as [(msg & E) | (u & ty & Hwf)].
  { rewrite E. cbn. intros [= <-]. discriminate. }
  destruct (Cases.mp4_GET_cases w req u ty Hwf)
    as (tr & d & tl & out & Hl & Hres & Hrun & Ht & Ho).
  rewrite Ht, Ho. clear Ht Ho. intros [= <-].
  invert_mp4 Hrun; try discriminate.
  all: unfold TikTokMp4Run.delivered;
    destruct (ty =? "mp4")%string; [| discriminate];
    destruct (TikTokMp4Spec.autoShow_of req); [| discriminate];
    cbn; intros [= <-]; relayed_here.
Qed.

(** X9. The bytes a downloader route answers with are the bytes it
    stored: whenever a response carries raw media, those bytes are the
    body of an accepted download made during the request, and an
    object holding exactly them was uploaded to the bucket of the
    route, the storage having acknowledged the upload. *)
Theorem delivered_bytes_are_stored (w : World) (req : NextRequest) :
  delivers_stored w "yt-downloads" (Yt.GET w req)
  /\ delivers_stored w "tiktok-downloads" (TikTokMp4.GET w req)
  /\ delivers_stored w "tiktok-mp3s" (TikTokMp3.GET w req).
Proof.
  split; [apply yt_delivers_stored
         | split; [apply mp4_delivers_stored | apply mp3_delivers_stored]].
Qed.

Lemma delivered_bytes_are_stored_witness :
  (exists r,
      answered (TikTokMp4.GET Examples.w_ok (Examples.req_tiktok "mp4")) r
      /\ body_of r = Some Examples.some_bytes)
  /\ relayed Examples.w_ok "tiktok-downloads"
       (trace (TikTokMp4.GET Examples.w_ok (Examples.req_tiktok "mp4")))
       Examples.some_bytes.
Proof.
  split; [eexists; split; reflexivity |].
  eapply (proj1 (proj2 (delivered_bytes_are_stored Examples.w_ok
                          (Examples.req_tiktok "mp4"))));
    reflexivity.
Defined.

Lemma yt_resolved w u ty d tr d' info :
  outcome (Yt.downloadFromCobalt w u ty) = inr d ->
  Yt.Promise_all2 (Yt.downloadFromCobalt w u ty) (Yt.getVideoInfo w u) = (tr, inr (d', info)) ->
  d' = d.
Proof.
  unfold Yt.Promise_all2. intros ->.
  destruct (outcome (Yt.getVideoInfo w u)); congruence.
Qed.

Lemma yt_resolved_ok w u ty d tr e :
  VideoId.extractVideoId u <> None ->
  outcome (Yt.downloadFromCobalt w u ty) = inr d ->
  Yt.Promise_all2 (Yt.downloadFromCobalt w u ty) (Yt.getVideoInfo w u) = (tr, inl e) ->
  False.
Proof.
  intros Hid Hd. unfold Yt.Promise_all2. rewrite Hd.
  destruct (VideoId.extractVideoId u) as [videoId |] eqn:E; [| congruence].
  destruct (YtFacts.getVideoInfo_valid w u videoId E) as (info & tl & -> & _).
  cbn. congruence.
Qed.

(** X10. The download-and-store stage of the YouTube route, once a relay
    has answered with [d].  A media request that is rejected or
    refused, or whose body cannot be read, ends the request with a 500
    (a refusal is reported with the status code the host returned) and
    nothing is handed to the storage or the datastore.  A body that
    was read is uploaded under the key of the request; an upload that
    throws or that the storage refuses ends the request with a 500 and
    no row is written; only an acknowledged upload is followed by the
    metadata row. *)
Theorem yt_storage_stage
        (w : World) (req : NextRequest) (u ty : string) (d : Yt.DownloadResult) :
  YtSpec.well_formed req u ty ->
  outcome (Yt.downloadFromCobalt w u ty) = inr d ->
  match fetch w (Yt.url d) (YtRun.media_init (Yt.realUA_of req)) with
  | inl e => fails_with (Yt.GET w req) (message e) /\ nothing_stored (Yt.GET w req)
  | inr resp =>
      if ok resp then
        match arrayBuffer resp with
        | inl e => fails_with (Yt.GET w req) (message e) /\ nothing_stored (Yt.GET w req)
        | inr buffer =>
            uploaded (trace (Yt.GET w req)) = [("yt-downloads", YtRun.fileName_of w ty)]
            /\ match storage_upload w "yt-downloads" (YtRun.fileName_of w ty)
                       buffer (YtRun.contentType_of ty) with
               | inl e =>
                   fails_with (Yt.GET w req) (message e)
                   /\ inserted (trace (Yt.GET w req)) = []
               | inr (Some e) =>
                   fails_with (Yt.GET w req) ("Failed to upload to storage: " ++ message e)
                   /\ inserted (trace (Yt.GET w req)) = []
               | inr None =>
                   exists row, inserted (trace (Yt.GET w req)) = [("yt_downloads", row)]
               end
        end
      else
        fails_with (Yt.GET w req) ("Failed to fetch media: " ++ string_of_Z (status resp))
        /\ nothing_stored (Yt.GET w req)
  end.
Proof.
  intros Hwf Hd.
  destruct (Cases.yt_GET_cases w req u ty Hwf) as (tr & tl & out & Hl & Hrun & Ht & Ho).
  pose proof Hwf as (_ & _ & _ & _ & Hid).
  unfold fails_with, nothing_stored, answered. rewrite Ht, Ho. clear Ht Ho.
  invert_yt Hrun;
    try (exfalso; eapply yt_resolved_ok; eauto; fail);
    match goal with
    | E : Yt.Promise_all2 _ _ = (_, inr (?d', _)) |- _ =>
        assert (d' = d) by (eapply yt_resolved; eauto); subst d'
    end;
    repeat match goal with
      | F : ?x = _ |- context [match ?x with _ => _ end] => rewrite F
      | O : ok ?r = _ |- context [if ok ?r then _ else _] => rewrite O
      end;
    cbn [app uploaded inserted fst snd YtSpec.on_error];
    rewrite <- ?app_assoc; cbn [app];
    rewrite ?(uploaded_lookups _ _ Hl), ?(inserted_lookups _ _ Hl);
    cbn [app uploaded inserted fst snd message]; eauto.
Qed.

Lemma yt_storage_stage_witness :
  (fails_with (Yt.GET Scenes.w_blocked (Examples.req_youtube "mp4"))
     "Failed to fetch media: 403"
   /\ nothing_stored (Yt.GET Scenes.w_blocked (Examples.req_youtube "mp4")))
  /\ (fails_with (Yt.GET Scenes.w_truncated (Examples.req_youtube "mp4")) "terminated"
      /\ nothing_stored (Yt.GET Scenes.w_truncated (Examples.req_youtube "mp4"))).
Proof.
  assert (Hwf : YtSpec.well_formed (Examples.req_youtube "mp4")
                  Examples.youtube_address "mp4").
  { repeat split; auto; discriminate. }
  split.
  - exact (yt_storage_stage Scenes.w_blocked (Examples.req_youtube "mp4")
             Examples.youtube_address "mp4"
             (Yt.mkDownload (JStr "https://relay.example/file") (JStr "file"))
             Hwf eq_refl).
  - exact (yt_storage_stage Scenes.w_truncated (Examples.req_youtube "mp4")
             Examples.youtube_address "mp4"
             (Yt.mkDownload (JStr "https://relay.example/file") (JStr "file"))
             Hwf eq_refl).
Defined.

Ltac read_cells :=
  repeat match goal with
    | F : ?x = _ |- context [match ?x with _ => _ end] => rewrite F
    | O : ok ?r = _ |- context [if ok ?r then _ else _] => rewrite O
    end.

(** X11. The download-and-store stage of the TikTok audio route, once
    provider resolution has given the music address [m].  A download
    that is rejected or refused, or whose body cannot be read, ends the
    request with a 500 and nothing is handed to the storage or the
    datastore.  A body that was read is uploaded as [id.mp3]; an
    upload that throws or that the storage refuses ends the request
    with a 500 and no row is written; only an acknowledged upload is
    followed by the metadata row. *)
Theorem tiktok_audio_storage_stage
        (w : World) (req : NextRequest) (u : string) (m : jsval) :
  TikTokMp3Spec.well_formed req u ->
  outcome (TikTokMp3.resolve w u (TikTokMp4Spec.realUA_of req)) = inr (Some m) ->
  match fetch w m (TikTokMp3Run.media_init (TikTokMp4Spec.realUA_of req)) with
  | inl e =>
      fails_with (TikTokMp3.GET w req) (message e) /\ nothing_stored (TikTokMp3.GET w req)
  | inr resp =>
      if ok resp then
        match arrayBuffer resp with
        | inl e =>
            fails_with (TikTokMp3.GET w req) (message e)
            /\ nothing_stored (TikTokMp3.GET w req)
        | inr buffer =>
            uploaded (trace (TikTokMp3.GET w req))
            = [("tiktok-mp3s", TikTokMp3Run.fileName_of w)]
            /\ match storage_upload w "tiktok-mp3s" (TikTokMp3Run.fileName_of w)
                       buffer "audio/mpeg" with
               | inl e =>
                   fails_with (TikTokMp3.GET w req) (message e)
                   /\ inserted (trace (TikTokMp3.GET w req)) = []
               | inr (Some e) =>
                   fails_with (TikTokMp3.GET w req)
                     ("Failed to upload to storage: " ++ message e)
                   /\ inserted (trace (TikTokMp3.GET w req)) = []
               | inr None =>
                   exists row,
                     inserted (trace (TikTokMp3.GET w req)) = [("tiktok_mp3s", row)]
               end
        end
      else
        fails_with (TikTokMp3.GET w req) "Failed to fetch music file from provider"
        /\ nothing_stored (TikTokMp3.GET w req)
  end.
Proof.
  intros Hwf Hm.
  destruct (Cases.mp3_GET_cases w req u Hwf) as (tr & tl & out & Hl & Hrun & Ht & Ho).
  unfold fails_with, nothing_stored, answered. rewrite Ht, Ho. clear Ht Ho.
  invert_mp3 Hrun;
    match goal with
    | E : TikTokMp3.resolve _ _ _ = _ |- _ =>
        unfold outcome in Hm; rewrite E in Hm; cbn in Hm;
        first [discriminate Hm | injection Hm as <-]
    end;
    read_cells;
    cbn [app uploaded inserted fst snd TikTokMp3On.on_error TikTokMp3Run.closing];
    rewrite <- ?app_assoc; cbn [app];
    rewrite ?(uploaded_lookups _ _ Hl), ?(inserted_lookups _ _ Hl);
    cbn [app uploaded inserted fst snd message]; eauto.
Qed.

Lemma tiktok_audio_storage_stage_witness :
  (fails_with (TikTokMp3.GET Scenes.w_blocked Examples.req_tiktok_audio)
     "Failed to fetch music file from provider"
   /\ nothing_stored (TikTokMp3.GET Scenes.w_blocked Examples.req_tiktok_audio))
  /\ (fails_with (TikTokMp3.GET Scenes.w_truncated Examples.req_tiktok_audio) "terminated"
      /\ nothing_stored (TikTokMp3.GET Scenes.w_truncated Examples.req_tiktok_audio)).
Proof.
  assert (Hwf : TikTokMp3Spec.well_formed Examples.req_tiktok_audio Examples.tiktok_address).
  { split; [reflexivity | discriminate]. }
  split.
  - exact (tiktok_audio_storage_stage Scenes.w_blocked Examples.req_tiktok_audio
             Examples.tiktok_address (JStr "https://cdn.example/a.mp3") Hwf eq_refl).
  - exact (tiktok_audio_storage_stage Scenes.w_truncated Examples.req_tiktok_audio
             Examples.tiktok_address (JStr "https://cdn.example/a.mp3") Hwf eq_refl).
Defined.

(** X12. The download-and-store stage of the TikTok video route, once
    provider resolution has given an address for the requested leg.  A
    download that is rejected or refused, or whose body cannot be
    read, ends the request with a 500 (a refusal is reported with a
    message that names the leg) and nothing is handed to the storage or
    the datastore.  A body that was read is the first object uploaded;
    an upload of it that throws or that the storage refuses ends the
    request with a 500 (a refusal names the leg), nothing else being
    stored; only an acknowledged upload is followed by the metadata
    row. *)
Theorem tiktok_video_storage_stage
        (w : World) (req : NextRequest) (u ty : string) (d : TikTokMp4.TikTokData) :
  TikTokMp4Spec.well_formed req u ty ->
  outcome (TikTokMp4.resolve w u ty (TikTokMp4Spec.realUA_of req)) = inr d ->
  truthy (TikTokMp4Run.leg_url ty d) = true ->
  match fetch w (TikTokMp4Run.leg_url ty d)
          (TikTokMp4.ua_init (TikTokMp4Spec.realUA_of req)) with
  | inl e =>
      fails_with (TikTokMp4.GET w req) (message e) /\ nothing_stored (TikTokMp4.GET w req)
  | inr resp =>
      if ok resp then
        match arrayBuffer resp with
        | inl e =>
            fails_with (TikTokMp4.GET w req) (message e)
            /\ nothing_stored (TikTokMp4.GET w req)
        | inr buffer =>
            match storage_upload w "tiktok-downloads" (TikTokMp4Run.key_of w ty)
                    buffer (TikTokMp4Run.contentType_of ty) with
            | inl e =>
                fails_with (TikTokMp4.GET w req) (message e)
                /\ uploaded (trace (TikTokMp4.GET w req))
                   = [("tiktok-downloads", TikTokMp4Run.key_of w ty)]
                /\ inserted (trace (TikTokMp4.GET w req)) = []
            | inr (Some e) =>
                fails_with (TikTokMp4.GET w req)
                  (TikTokMp4Run.upload_failure ty ++ message e)
                /\ uploaded (trace (TikTokMp4.GET w req))
                   = [("tiktok-downloads", TikTokMp4Run.key_of w ty)]
                /\ inserted (trace (TikTokMp4.GET w req)) = []
            | inr None =>
                exists rest row,
                  uploaded (trace (TikTokMp4.GET w req))
                  = ("tiktok-downloads", TikTokMp4Run.key_of w ty) :: rest
                  /\ inserted (trace (TikTokMp4.GET w req)) = [("tiktok_downloads", row)]
            end
        end
      else
        fails_with (TikTokMp4.GET w req) (TikTokMp4Run.fetch_failure ty)
        /\ nothing_stored (TikTokMp4.GET w req)
  end.
Proof.
  intros Hwf Hd Hleg.
  destruct (Cases.mp4_GET_cases w req u ty Hwf)
    as (tr & d' & tl & out & Hl & Hres & Hrun & Ht & Ho).
  assert (d' = d) as -> by (unfold outcome in Hd; rewrite Hres in Hd; cbn in Hd; congruence).
  unfold fails_with, nothing_stored, answered. rewrite Ht, Ho. clear Ht Ho.
  invert_mp4 Hrun;
    try (unfold TikTokMp4Run.leg_url in Hleg; cbn in Hleg; congruence);
    read_cells;
    cbn [app uploaded inserted fst snd TikTokMp4On.on_error TikTokMp4Run.closing];
    rewrite <- ?app_assoc; cbn [app];
    rewrite ?(uploaded_lookups _ _ Hl), ?(inserted_lookups _ _ Hl);
    cbn [app uploaded inserted fst snd message]; eauto.
Qed.

Lemma tiktok_video_storage_stage_witness :
  (fails_with (TikTokMp4.GET Scenes.w_blocked (Examples.req_tiktok "mp3"))
     "Failed to fetch music file"
   /\ nothing_stored (TikTokMp4.GET Scenes.w_blocked (Examples.req_tiktok "mp3")))
  /\ (fails_with (TikTokMp4.GET Scenes.w_truncated (Examples.req_tiktok "mp4")) "terminated"
      /\ nothing_stored (TikTokMp4.GET Scenes.w_truncated (Examples.req_tiktok "mp4"))).
Proof.
  assert (Hwf : forall ty, ty = "mp3" \/ ty = "mp4" ->
                TikTokMp4Spec.well_formed (Examples.req_tiktok ty)
                  Examples.tiktok_address ty).
  { intros ty Hty. repeat split; auto; discriminate. }
  split.
  - exact (tiktok_video_storage_stage Scenes.w_blocked (Examples.req_tiktok "mp3")
             Examples.tiktok_address "mp3"
             (TikTokMp4.mkData (JStr "https://cdn.example/v.mp4")
                (JStr "https://cdn.example/a.mp3") (JStr "clip") (JStr "Unknown") JNull)
             (Hwf "mp3" (or_introl eq_refl)) eq_refl eq_refl).
  - exact (tiktok_video_storage_stage Scenes.w_truncated (Examples.req_tiktok "mp4")
             Examples.tiktok_address "mp4"
             (TikTokMp4.mkData (JStr "https://cdn.example/v.mp4")
                (JStr "https://cdn.example/a.mp3") (JStr "clip") (JStr "Unknown") JNull)
             (Hwf "mp4" (or_intror eq_refl)) eq_refl eq_refl).
Defined.

Lemma lookups_no_upload tr b k body ct :
  only_lookups tr -> ~ In (StorageUpload b k body ct) tr.
Proof.
  unfold only_lookups. rewrite forallb_forall. intros H Hin.
  specialize (H _ Hin). discriminate.
Qed.

Lemma primary_not_jpeg ty : TikTokMp4Run.contentType_of ty <> "image/jpeg".
Proof. unfold TikTokMp4Run.contentType_of. destruct (ty =? "mp4")%string; discriminate. Qed.

(** X13. The thumbnail mirror of the TikTok video route never ends a
    request: whenever the handler has handed a thumbnail to the
    storage, the metadata row is handed to [insert] all the same.  The
    row records no thumbnail path when that upload threw, and it
    records the thumbnail key whatever the storage answered otherwise,
    also when the answer is an error and no such object exists. *)
Theorem thumbnail_upload_never_aborts (w : World) (req : NextRequest) (body : bytes) :
  In (StorageUpload "tiktok-downloads" (TikTokMp4Run.thumb_key w) body "image/jpeg")
     (trace (TikTokMp4.GET w req)) ->
  exists row,
    inserted (trace (TikTokMp4.GET w req)) = [("tiktok_downloads", row)]
    /\ get_opt row "thumbnail_path"
       = match storage_upload w "tiktok-downloads" (TikTokMp4Run.thumb_key w) body
                 "image/jpeg" with
         | inl _ => JNull
         | inr _ => JStr (TikTokMp4Run.thumb_key w)
         end.
Proof.
  destruct (Validation.tiktok_video_validated w req) as [(msg & E) | (u & ty & Hwf)].
  { rewrite E. intros []. }
  destruct (Cases.mp4_GET_cases w req u ty Hwf)
    as (tr & d & tl & out & Hl & Hres & Hrun & Ht & Ho).
  rewrite Ht. clear Ht Ho.
  pose proof (lookups_no_upload tr "tiktok-downloads" (TikTokMp4Run.thumb_key w) body
                "image/jpeg" Hl) as Hno.
  pose proof (primary_not_jpeg ty) as Hct.
  invert_mp4 Hrun; intros Hin;
    unfold TikTokMp4Run.closing in Hin;
    cbn [app In fst snd TikTokMp4On.on_error] in Hin;
    rewrite ?in_app_iff in Hin; cbn [In] in Hin;
    repeat match goal with
      | H : _ \/ _ |- _ => destruct H
      | H : False |- _ => destruct H
      | H : In ?x ?t, N : ~ In ?x ?t |- _ => destruct (N H)
      | H : @eq effect _ _ |- _ =>
          first [discriminate H
                | injection H; intros; exfalso; congruence
                | injection H as <-]
      end;
    read_cells;
    cbn [app inserted fst snd TikTokMp4On.on_error TikTokMp4Run.closing];
    rewrite <- ?app_assoc; cbn [app];
    rewrite ?(inserted_lookups _ _ Hl); cbn [app inserted];
    eexists; (split; [reflexivity | reflexivity]).
Qed.

Lemma thumbnail_upload_never_aborts_witness :
  storage_upload Scenes.w_hd "tiktok-downloads" (TikTokMp4Run.thumb_key Scenes.w_hd)
    Examples.some_bytes "image/jpeg"
  = inr (Some (mkError "quota exceeded"))
  /\ exists row,
      inserted (trace (TikTokMp4.GET Scenes.w_hd (Examples.req_tiktok "mp4")))
      = [("tiktok_downloads", row)]
      /\ get_opt row "thumbnail_path" = JStr "3f2a_thumb.jpg".
Proof.
  split; [reflexivity |].
  apply (thumbnail_upload_never_aborts Scenes.w_hd (Examples.req_tiktok "mp4")
           Examples.some_bytes).
  vm_compute. repeat (first [left; reflexivity | right]).
Defined.

Lemma footprint_nil bucket table keys t :
  uploaded t = [] -> inserted t = [] -> footprint bucket table keys t.
Proof.
  intros Hu Hi. unfold footprint. rewrite Hu, Hi. cbn.
  repeat split; try (intros ? ? []); lia.
Qed.

Ltac footprint_here Hl :=
  unfold footprint, TikTokMp3Run.closing, TikTokMp4Run.closing;
  cbn [app uploaded inserted fst snd YtSpec.on_error TikTokMp3On.on_error
         TikTokMp4On.on_error];
  rewrite <- ?app_assoc; cbn [app uploaded inserted];
  rewrite ?(uploaded_lookups _ _ Hl), ?(inserted_lookups _ _ Hl);
  rewrite ?(proj1 (proj2 (proj2 (proj2 (only_lookups_quiet _ Hl))))),
    ?(proj1 (proj2 (proj2 (only_lookups_quiet _ Hl))));
  cbn [app uploaded inserted List.length In];
  repeat split; intros;
  repeat match goal with
    | H : _ \/ _ |- _ => destruct H
    | H : False |- _ => destruct H
    | H : (_, _) = (_, _) |- _ => injection H as <- <-
    end;
  auto; try lia.

Lemma type_of_well_formed req ty :
  searchParams_get req "type" = Some ty -> ty = "mp3" \/ ty = "mp4" -> type_of req = ty.
Proof. unfold type_of. intros -> [-> | ->]; reflexivity. Qed.

Lemma yt_footprint w req :
  footprint "yt-downloads" "yt_downloads" [YtRun.fileName_of w (type_of req)]
    (trace (Yt.GET w req)).
Proof.
  destruct (Validation.yt_validated w req) as [(msg & E) | (u & ty & Hwf)].
  { rewrite E. now apply footprint_nil. }
  destruct (Cases.yt_GET_cases w req u ty Hwf) as (tr & tl & out & Hl & Hrun & Ht & Ho).
  rewrite Ht. clear Ht Ho.
  destruct Hwf as (_ & _ & Hty & Hmp & _). rewrite (type_of_well_formed req ty Hty Hmp).
  invert_yt Hrun; footprint_here Hl.
Qed.

Lemma mp3_footprint w req :
  footprint "tiktok-mp3s" "tiktok_mp3s" [TikTokMp3Run.fileName_of w]
    (trace (TikTokMp3.GET w req)).
Proof.
  destruct (Validation.tiktok_audio_validated w req) as [(msg & E) | (u & Hwf)].
  { rewrite E. now apply footprint_nil. }
  destruct (Cases.mp3_GET_cases w req u Hwf) as (tr & tl & out & Hl & Hrun & Ht & Ho).
  rewrite Ht. clear Ht Ho.
  invert_mp3 Hrun; footprint_here Hl.
Qed.

Lemma mp4_footprint w req :
  footprint "tiktok-downloads" "tiktok_downloads"
    [TikTokMp4Run.key_of w (type_of req); TikTokMp4Run.thumb_key w]
    (trace (TikTokMp4.GET w req)).
Proof.
  destruct (Validation.tiktok_video_validated w req) as [(msg & E) | (u & ty & Hwf)].
  { rewrite E. now apply footprint_nil. }
  destruct (Cases.mp4_GET_cases w req u ty Hwf)
    as (tr & d & tl & out & Hl & Hres & Hrun & Ht & Ho).
  rewrite Ht. clear Ht Ho.
  destruct Hwf as (_ & _ & Hty & Hmp). rewrite (type_of_well_formed req ty Hty Hmp).
  invert_mp4 Hrun; footprint_here Hl.
Qed.

(** X14. What a request of a downloader route can leave behind: at most
    one row, in the table of the route, and objects in the bucket of
    the route only: one at most, under the key of the requested type,
    and in the TikTok video route one more at most, the thumbnail.  In
    particular a request for one type never stores the other. *)
Theorem storage_footprint (w : World) (req : NextRequest) :
  footprint "yt-downloads" "yt_downloads" [YtRun.fileName_of w (type_of req)]
    (trace (Yt.GET w req))
  /\ footprint "tiktok-downloads" "tiktok_downloads"
       [TikTokMp4Run.key_of w (type_of req); TikTokMp4Run.thumb_key w]
       (trace (TikTokMp4.GET w req))
  /\ footprint "tiktok-mp3s" "tiktok_mp3s" [TikTokMp3Run.fileName_of w]
       (trace (TikTokMp3.GET w req)).
Proof.
  split; [apply yt_footprint | split; [apply mp4_footprint | apply mp3_footprint]].
Qed.

(* --------------------------------------------------------------------- *)
(** ** The image generator *)
(* --------------------------------------------------------------------- *)

(** X15. Every request of the image route ends in one of three ways.
    Without a prompt it is turned away with the 400 error page and
    nothing is done.  Otherwise it is counted under [total_requests],
    and either it goes through: the generator gave an image, the
    watermark was downloaded and composed onto it, the result was
    stored under [imagen-3.5-pro/id.png], a row naming that key was
    written, both acknowledged, and the answer carries the very bytes
    stored and the address of the result under [X-Result-URL]; or it
    fails: the answer is the 500 error page with a message that is
    never empty, the request is counted under [total_errors] and
    logged with status 500, and a row was written only if the
    datastore then refused it. *)
Theorem imagen_request_outcomes (w : World) (req : NextRequest) :
  ImagenRun.turned_away w req
  \/ exists prompt,
       searchParams_get req "prompt" = Some prompt /\ prompt <> EmptyString
       /\ (ImagenRun.went_through w req prompt \/ ImagenRun.failed w req prompt).
Proof.
  destruct (Validation.falsy_cases (searchParams_get req "prompt"))
    as [Hp | (prompt & Ep & Hne & _)].
  - left. now apply Validation.imagen_missing_prompt.
  - right. exists prompt. repeat split; auto.
    now apply ImagenFacts.imagen_GET_cases.
Qed.

Lemma random_bot_listed w k : In (Imagen.getRandomBotUA w k) Imagen.BOT_USER_AGENTS.
Proof.
  unfold Imagen.getRandomBotUA. apply nth_In.
  apply Nat.mod_upper_bound. discriminate.
Qed.

(** X16. Where the bytes of [generateFromFlux] come from.  When it
    returns, the generator accepted the request for the escaped prompt
    and the bytes are, unchanged, either the body of that answer (an
    answer that is not JSON and whose type says image) or the body of
    an accepted download from the address a JSON answer names under
    [data], [result], [url] or [image], in this order of preference.
    Both requests present a user agent of [BOT_USER_AGENTS]. *)
Theorem flux_image_provenance (w : World) (prompt : string) (img : bytes) :
  outcome (Imagen.generateFromFlux w prompt) = inr img ->
  ImagenRun.generated w prompt img (trace (Imagen.generateFromFlux w prompt))
  /\ (exists ua, In ua Imagen.BOT_USER_AGENTS
                 /\ ImagenRun.user_agent_of (ImagenRun.flux_init w) = JStr ua)
  /\ (exists ua, In ua Imagen.BOT_USER_AGENTS
                 /\ ImagenRun.user_agent_of (ImagenRun.image_init w) = JStr ua).
Proof.
  intros H. split; [now apply ImagenFacts.generateFromFlux_returns |].
  split; eexists; (split; [apply random_bot_listed | reflexivity]).
Qed.

Lemma flux_image_provenance_witness :
  ImagenRun.generated Scenes.w_hd "a red fox" Examples.some_bytes
    [Fetch (JStr "https://api.siputzx.my.id/api/ai/flux?prompt=a%20red%20fox")
       (ImagenRun.flux_init Scenes.w_hd)]
  /\ (exists ua, In ua Imagen.BOT_USER_AGENTS
                 /\ ImagenRun.user_agent_of (ImagenRun.flux_init Scenes.w_hd) = JStr ua)
  /\ (exists ua, In ua Imagen.BOT_USER_AGENTS
                 /\ ImagenRun.user_agent_of (ImagenRun.image_init Scenes.w_hd) = JStr ua).
Proof.
  exact (flux_image_provenance Scenes.w_hd "a red fox" Examples.some_bytes eq_refl).
Defined.

(* --------------------------------------------------------------------- *)
(** ** The lookup endpoint *)
(* --------------------------------------------------------------------- *)

(** X17. The lookup endpoint only reads: whatever the identifier and
    whatever the datastore does, it answers, having issued exactly one
    query, on the table of the YouTube downloads and for the identifier
    given; it requests nothing from the network, stores nothing, and is
    neither counted nor logged. *)
Theorem lookup_only_reads (w : World) (id : string) :
  (exists r, answered (YtResult.GET w id) r)
  /\ selected (trace (YtResult.GET w id)) = [("yt_downloads", id)]
  /\ fetched (trace (YtResult.GET w id)) = []
  /\ uploaded (trace (YtResult.GET w id)) = []
  /\ inserted (trace (YtResult.GET w id)) = []
  /\ stats (trace (YtResult.GET w id)) = []
  /\ logged (trace (YtResult.GET w id)) = [].
Proof.
  unfold answered.
  destruct (YtResultFacts.lookup_cases w id) as [H | [(meta & H) | H]].
  - rewrite (YtResultFacts.GET_row_missing w id H). cbn. eauto 10.
  - rewrite (YtResultFacts.GET_row_found w id meta H). cbn. eauto 10.
  - rewrite (YtResultFacts.GET_lookup_throws w id H). cbn. eauto 10.
Qed.

Lemma append_truthy s c t : truthy (JStr (s ++ String c t)) = true.
Proof. unfold truthy. destruct s; reflexivity. Qed.

Lemma yt_file_truthy w ty : truthy (JStr (YtRun.fileName_of w ty)) = true.
Proof.
  unfold YtRun.fileName_of.
  change (randomUUID w ++ "." ++ (if (ty =? "mp3")%string then "mp3" else "mp4"))
    with (randomUUID w ++ String "." (if (ty =? "mp3")%string then "mp3" else "mp4")).
  apply append_truthy.
Qed.

Lemma yt_row_file w u ty info :
  ty = "mp3" \/ ty = "mp4" ->
  YtResult.filePath_of (YtRun.row_of w u ty info) = JStr (YtRun.fileName_of w ty).
Proof.
  intros Hty. pose proof (yt_file_truthy w ty) as T.
  destruct Hty as [-> | ->]; unfold YtResult.filePath_of, js_or, YtRun.row_of, get_opt;
    cbn [assoc String.eqb Ascii.eqb Bool.eqb]; [now rewrite T | reflexivity].
Qed.

(** X18. A download of the YouTube route can be read back.  When the
    route answers a success it has stored one object, under [id.type]
    in the bucket [yt-downloads], and written one row; and wherever
    the lookup endpoint finds that row, it answers a descriptor that
    carries the identifier, the address and the type of the request
    and, under [mp3_url], the public address of that very object.  The
    title, the author and the thumbnail it answers are the ones the
    download answered (which names the thumbnail [thumbnail], the
    lookup [thumbnail_url]). *)
Theorem download_reads_back (w : World) (req : NextRequest) (r : response) :
  answered (Yt.GET w req) r ->
  is_success r = true ->
  exists row u ty,
    YtSpec.well_formed req u ty
    /\ uploaded (trace (Yt.GET w req)) = [("yt-downloads", YtRun.fileName_of w ty)]
    /\ inserted (trace (Yt.GET w req)) = [("yt_downloads", row)]
    /\ forall w' id,
        YtResultSpec.row_found w' id row ->
        exists res,
          Lookup.describes w' id res
          /\ Lookup.reads_back w w' u ty res
          /\ forall answer, result_of r = Some answer -> Lookup.same_description answer res.
Proof.
  unfold answered.
  destruct (Validation.yt_validated w req) as [(msg & E) | (u & ty & Hwf)].
  { rewrite E. cbn. intros [= <-]. discriminate. }
  destruct (Cases.yt_GET_cases w req u ty Hwf) as (tr & tl & out & Hl & Hrun & Ht & Ho).
  rewrite Ht, Ho. clear Ht Ho. intros [= <-].
  pose proof Hwf as (_ & _ & _ & Hmp & _).
  invert_yt Hrun; try discriminate. intros _.
  match goal with
  | H : db_insert w "yt_downloads" (YtRun.row_of w u ty ?i) = inr None |- _ =>
      rename i into info
  end.
  exists (YtRun.row_of w u ty info), u, ty.
  split; [exact Hwf |].
  cbn [app uploaded inserted fst snd]. rewrite <- ?app_assoc. cbn [app].
  rewrite (uploaded_lookups _ _ Hl), (inserted_lookups _ _ Hl).
  split; [reflexivity |]. split; [reflexivity |].
  intros w' id Hfound. eexists. unfold Lookup.describes, answered.
  rewrite (YtResultFacts.GET_row_found w' id _ Hfound).
  rewrite (yt_row_file w u ty info Hmp), (yt_file_truthy w ty).
  split; [reflexivity |]. split; [repeat split |].
  unfold YtRun.delivered, Lookup.same_description.
  destruct Hmp as [-> | ->]; cbn; [| discriminate].
  intros answer [= <-]. repeat split.
Qed.

Lemma download_reads_back_witness :
  exists row res,
    inserted (trace (Yt.GET Examples.w_ok (Examples.req_youtube "mp3")))
    = [("yt_downloads", row)]
    /\ Lookup.describes (Holding.w_holding row) "3f2a" res
    /\ get_opt res "mp3_url" = JStr "https://storage.example/yt-downloads/3f2a.mp3".
Proof.
  destruct (download_reads_back Examples.w_ok (Examples.req_youtube "mp3")
              (YtRun.delivered Examples.w_ok Examples.youtube_address "mp3"
                 (Yt.mkInfo (JStr "clip") (JStr "Unknown")
                    (Yt.thumbnail_of "dQw4w9WgXcQ")) Examples.some_bytes)
              eq_refl eq_refl)
    as (row & u & ty & Hwf & _ & Hins & H).
  destruct Hwf as (Hu & _ & Hty & _).
  injection Hu as <-. injection Hty as <-.
  injection Hins as <-.
  eexists. 
  destruct (H (Holding.w_holding
                 (YtRun.row_of Examples.w_ok Examples.youtube_address "mp3"
                    (Yt.mkInfo (JStr "clip") (JStr "Unknown")
                       (Yt.thumbnail_of "dQw4w9WgXcQ")))) "3f2a")
    as (res & Hd & (_ & _ & _ & Hm) & _).
  { exists JNull. split; [reflexivity | split; reflexivity]. }
  exists res. split; [reflexivity |]. split; [exact Hd | exact Hm].
Defined.

(* --------------------------------------------------------------------- *)
(** ** Identifiers and addresses *)
(* --------------------------------------------------------------------- *)

Lemma id_char_plain c : VideoId.isIdChar c = true -> is_delimiter c = false.
Proof. destruct c as [[] [] [] [] [] [] [] []]; cbv; congruence. Qed.

Lemma id_chars_plain s c :
  VideoId.all_id_chars s = true -> In c (chars s) -> is_delimiter c = false.
Proof.
  unfold chars. induction s as [| a s IH]; cbn; [intros _ [] |].
  intros H. apply andb_true_iff in H as [Ha Hs].
  intros [<- | Hin]; [now apply id_char_plain | auto].
Qed.

(** X19. What [extractVideoId] returns is read from the address: the
    identifier is the text that follows one of the five literal
    prefixes somewhere in the address, or it is the whole address.  It
    holds none of the characters that delimit the parts of an address,
    so the embed-info request and the thumbnail address built from it
    keep their shape. *)
Theorem extracted_id_is_read_from_url (url id : string) :
  VideoId.extractVideoId url = Some id ->
  ((exists pre p rest, In p VideoId.shapes /\ url = pre ++ p ++ id ++ rest) \/ url = id)
  /\ (forall c, In c (chars id) -> is_delimiter c = false).
Proof.
  intros H. split.
  - unfold VideoId.extractVideoId, VideoId.patterns in H. cbn [VideoId.first_match] in H.
    destruct (VideoId.str_match url (VideoId.Prefixed VideoId.shapes)) as [cap |] eqn:E1.
    + injection H as ->. cbn [VideoId.str_match] in E1.
      destruct (VideoIdFacts.search_sound _ _ _ E1) as (pre & p & rest & Hp & Hu & _).
      left. eauto.
    + cbn [VideoId.str_match] in H.
      destruct (VideoId.take_class 11 url) as [[cap rest] |] eqn:E2; [| discriminate].
      destruct rest; [| discriminate]. injection H as ->.
      apply VideoIdFacts.take_class_sound in E2 as (Hu & _).
      right. now rewrite VideoIdFacts.app_empty_r in Hu.
  - destruct (VideoIdFacts.extractVideoId_valid url id H) as (_ & Ha).
    intros c. now apply id_chars_plain.
Qed.

Lemma extracted_id_is_read_from_url_witness :
  ((exists pre p rest,
       In p VideoId.shapes
       /\ "https://www.youtube.com/shorts/dQw4w9WgXcQ?feature=share"
          = pre ++ p ++ "dQw4w9WgXcQ" ++ rest)
   \/ "https://www.youtube.com/shorts/dQw4w9WgXcQ?feature=share" = "dQw4w9WgXcQ")
  /\ (forall c, In c (chars "dQw4w9WgXcQ") -> is_delimiter c = false).
Proof.
  exact (extracted_id_is_read_from_url
           "https://www.youtube.com/shorts/dQw4w9WgXcQ?feature=share" "dQw4w9WgXcQ" eq_refl).
Defined.

Lemma split_comma_first_prefix s :
  exists rest,
    s = split_comma_first s ++ rest /\ (rest = EmptyString \/ exists r, rest = String "," r).
Proof.
  induction s as [| c s (rest & IH & Hr)]; cbn [split_comma_first].
  - exists EmptyString. auto.
  - destruct (Ascii.eqb c ",") eqn:E.
    + apply Ascii.eqb_eq in E. subst c. exists (String "," s). eauto.
    + exists rest. split; [| exact Hr].
      change (String c s = String c (split_comma_first s ++ rest)). now rewrite <- IH.
Qed.

Lemma split_comma_first_plain s c : In c (chars (split_comma_first s)) -> c <> ","%char.
Proof.
  unfold chars. induction s as [| a s IH]; cbn [split_comma_first]; [intros [] |].
  destruct (Ascii.eqb a ",") eqn:E; [intros [] |].
  cbn [list_ascii_of_string In]. intros [<- | H]; [| auto].
  now apply Ascii.eqb_neq.
Qed.

(** X20. The client address every route logs is the first entry of the
    [x-forwarded-for] header: the text of the header up to its first
    comma, taken as it is.  When the header is absent, empty or starts
    with a comma, the address is [127.0.0.1].  It is never empty and
    never holds a comma. *)
Theorem client_address_first_hop (req : NextRequest) :
  userIP_of req <> EmptyString
  /\ (forall c, In c (chars (userIP_of req)) -> c <> ","%char)
  /\ match headers_get req "x-forwarded-for" with
     | None => userIP_of req = "127.0.0.1"
     | Some h =>
         (exists rest,
             h = userIP_of req ++ rest
             /\ (rest = EmptyString \/ exists r, rest = String "," r))
         \/ (userIP_of req = "127.0.0.1"
             /\ (h = EmptyString \/ exists r, h = String "," r))
     end.
Proof.
  unfold userIP_of, or_default.
  destruct (headers_get req "x-forwarded-for") as [h |]; cbn [option_map].
  2:{ repeat split; try discriminate.
      intros c Hc. cbv in Hc. intuition (subst; discriminate). }
  destruct (split_comma_first_prefix h) as (rest & Hh & Hr).
  destruct (split_comma_first h =? EmptyString)%string eqn:E.
  - apply String.eqb_eq in E. rewrite E in Hh. change (h = rest) in Hh. subst rest.
    repeat split; try discriminate.
    + intros c Hc. cbv in Hc. intuition (subst; discriminate).
    + right. auto.
  - apply String.eqb_neq in E. repeat split; auto.
    + apply split_comma_first_plain.
    + left. eauto.
Qed.

(* --------------------------------------------------------------------- *)
(** ** The result page *)
(* --------------------------------------------------------------------- *)

(** X21. The loading state of the result page.  With an identifier the
    effect makes one request, to the lookup address of that
    identifier, and always clears [loading], however the request ends:
    the page then shows an alert, a card or nothing, never the
    spinner, and an alert and a card never come from the same answer
    since the effect sets one of [error] and [data] only.  Without an
    identifier the effect requests nothing and the page stays on the
    spinner. *)
Theorem page_loading_ends (request : string -> Error + jsval) (id : string) :
  (id <> EmptyString ->
   snd (ResultPage.effect_of request id ResultPage.initial) = [ResultPage.address id]
   /\ ResultPage.loading (fst (ResultPage.effect_of request id ResultPage.initial)) = false
   /\ ResultPage.shown request id <> ResultPage.Spinner
   /\ (ResultPage.error (fst (ResultPage.effect_of request id ResultPage.initial)) = JNull
       \/ ResultPage.data (fst (ResultPage.effect_of request id ResultPage.initial)) = JNull))
  /\ (id = EmptyString ->
      ResultPage.effect_of request id ResultPage.initial = (ResultPage.initial, [])
      /\ ResultPage.shown request id = ResultPage.Spinner).
Proof.
  unfold ResultPage.shown, ResultPage.effect_of. split.
  - intros Hid. apply String.eqb_neq in Hid. rewrite Hid. cbn [fst snd].
    split; [reflexivity |]. split; [reflexivity |]. split.
    + unfold ResultPage.render. cbn [ResultPage.loading ResultPage.setLoading].
      destruct (truthy _); [discriminate |]. destruct (truthy _); discriminate.
    + destruct (request (ResultPage.address id)) as [e | res]; cbn; auto.
      destruct (get res "status") as [e | st]; cbn; auto.
      destruct (truthy st); cbn; auto.
  - intros ->. split; reflexivity.
Qed.

Lemma served_lookup w id :
  ResultPage.served w (ResultPage.address id)
  = match outcome (YtResult.GET w id) with
    | inr r =>
        match r_payload r with
        | JsonBody v => inr v
        | _ => inl (mkError "Unexpected token")
        end
    | inl e => inl e
    end.
Proof.
  unfold ResultPage.served, ResultPage.address.
  now rewrite VideoIdFacts.strip_prefix_self.
Qed.

(** X22. The result page in front of the lookup endpoint of this
    application ([prettyJson] answering the envelope it is given).
    For every identifier that is not empty the page shows: the alert
    [Download not found] when the datastore delivers no row; the alert
    [Internal server error] when the query is rejected; the alert
    [File not found] for a row without a path; and otherwise the card
    of the row, with its title, its author and its thumbnail when it
    has one, whose player and download link point to the public
    address of the stored file, or to the empty address when the
    storage names none. *)
Theorem page_shows_lookup_answer (w : World) (id : string) :
  id <> EmptyString ->
  (YtResultSpec.row_missing w id ->
   ResultPage.shown (ResultPage.served w) id = ResultPage.Alert (JStr "Download not found"))
  /\ (YtResultSpec.lookup_throws w id ->
      ResultPage.shown (ResultPage.served w) id
      = ResultPage.Alert (JStr "Internal server error"))
  /\ (forall meta,
         YtResultSpec.row_found w id meta ->
         ResultPage.shown (ResultPage.served w) id
         = if truthy (YtResult.filePath_of meta)
           then ResultPage.card_of id meta
                  (storage_getPublicUrl w "yt-downloads" (YtResult.filePath_of meta))
           else ResultPage.Alert (JStr "File not found")).
Proof.
  intros Hid. apply String.eqb_neq in Hid.
  unfold ResultPage.shown, ResultPage.effect_of. rewrite Hid, served_lookup.
  split; [| split].
  - intros H. rewrite (YtResultFacts.GET_row_missing w id H). reflexivity.
  - intros H. rewrite (YtResultFacts.GET_lookup_throws w id H). reflexivity.
  - intros meta H. rewrite (YtResultFacts.GET_row_found w id meta H).
    destruct (truthy (YtResult.filePath_of meta)); reflexivity.
Qed.

Lemma page_shows_lookup_answer_witness :
  ResultPage.shown (ResultPage.served Examples.w_ok) "3f2a"
  = ResultPage.Card
      (Some (JStr "https://img.youtube.com/vi/dQw4w9WgXcQ/maxresdefault.jpg"))
      (JStr "clip") (JStr "Unknown")
      (JStr "https://storage.example/yt-downloads/3f2a.mp4")
      "youtube_3f2a.mp3".
Proof.
  assert (F : YtResultSpec.row_found Examples.w_ok "3f2a" Examples.stored_mp4_row).
  { eexists. split; [reflexivity |]. split; reflexivity. }
  assert (N : "3f2a" <> EmptyString) by discriminate.
  exact (proj2 (proj2 (page_shows_lookup_answer Examples.w_ok "3f2a" N))
           Examples.stored_mp4_row F).
Defined.

(* --------------------------------------------------------------------- *)
(** ** Keys and content types *)
(* --------------------------------------------------------------------- *)

Lemma lookups_well_typed w tr : only_lookups tr -> Forall (well_typed w) tr.
Proof.
  unfold only_lookups. rewrite forallb_forall, Forall_forall.
  intros H e He. specialize (H e He). destruct e; try discriminate; exact I.
Qed.

Ltac typed_here Hl :=
  unfold TikTokMp3Run.closing, TikTokMp4Run.closing;
  cbn [app fst snd YtSpec.on_error TikTokMp3On.on_error TikTokMp4On.on_error];
  repeat first
    [ apply Forall_nil
    | apply Forall_cons
    | apply Forall_app; split
    | apply (lookups_well_typed _ _ Hl) ];
  try exact I; cbn [well_typed]; auto.

Lemma yt_well_typed w req : Forall (well_typed w) (trace (Yt.GET w req)).
Proof.
  destruct (Validation.yt_validated w req) as [(msg & E) | (u & ty & Hwf)].
  { rewrite E. constructor. }
  destruct (Cases.yt_GET_cases w req u ty Hwf) as (tr & tl & out & Hl & Hrun & Ht & Ho).
  rewrite Ht. clear Ht Ho.
  destruct Hwf as (_ & _ & _ & Hmp & _).
  invert_yt Hrun; typed_here Hl; destruct Hmp as [-> | ->]; auto.
Qed.

Lemma mp3_well_typed w req : Forall (well_typed w) (trace (TikTokMp3.GET w req)).
Proof.
  destruct (Validation.tiktok_audio_validated w req) as [(msg & E) | (u & Hwf)].
  { rewrite E. constructor. }
  destruct (Cases.mp3_GET_cases w req u Hwf) as (tr & tl & out & Hl & Hrun & Ht & Ho).
  rewrite Ht. clear Ht Ho.
  invert_mp3 Hrun; typed_here Hl.
Qed.

Lemma mp4_well_typed w req : Forall (well_typed w) (trace (TikTokMp4.GET w req)).
Proof.
  destruct (Validation.tiktok_video_validated w req) as [(msg & E) | (u & ty & Hwf)].
  { rewrite E. constructor. }
  destruct (Cases.mp4_GET_cases w req u ty Hwf)
    as (tr & d & tl & out & Hl & Hres & Hrun & Ht & Ho).
  rewrite Ht. clear Ht Ho.
  destruct Hwf as (_ & _ & _ & Hmp).
  invert_mp4 Hrun; typed_here Hl; destruct Hmp as [-> | ->]; auto.
Qed.

(** X23. Keys and content types agree in everything the downloader
    routes store: an object is uploaded as [id.mp3] with the type
    [audio/mpeg], as [id.mp4] with [video/mp4], or as [id_thumb.jpg]
    with [image/jpeg], [id] being the identifier drawn for the
    request. *)
Theorem stored_objects_are_typed (w : World) (req : NextRequest) :
  Forall (well_typed w) (trace (Yt.GET w req))
  /\ Forall (well_typed w) (trace (TikTokMp4.GET w req))
  /\ Forall (well_typed w) (trace (TikTokMp3.GET w req)).
Proof.
  split; [apply yt_well_typed | split; [apply mp4_well_typed | apply mp3_well_typed]].
Qed.
